(* ===== verification/_CoqProject ===== *)
-Q . S2P
Prelude.v
PotEig.v
Cplx.v
Eigh.v
NACsForce.v
SACAnalysis.v
RungeKutta.v
Hopping.v
Verlet.v
Trajectory.v
Drivers.v
Scenario.v
