(* ===== verification/Prelude.v ===== *)
(** * A verification development of Tully_FSSH (fewest-switches surface hopping)

    The repository simulates one particle of mass [mass] on two electronic
    surfaces with Tully's fewest-switches surface hopping (J. Chem. Phys. 93,
    1061 (1990)).  Its physics lives in five Python files:

    - [src/FSSH.py/PotEig.py]: the three diabatic model potentials
      [Potenial_SAC], [Potenial_DAC], [Potenial_ECR], each mapping a position
      [p] to the 2x2 diabatic matrix [V] and its derivative [V_der];
    - [src/FSSH.py/NACsForce.py]: [Calc_dij_force], which calls
      [numpy.linalg.eigh] on [V] and rotates [V_der] into the adiabatic basis
      to get the eigen-energies [Eig], the non-adiabatic coupling [dij] and the
      adiabatic forces [force];
    - [src/FSSH.py/run/Fourth_RungeKutta.py]: [Coefficient_DiffEqu], the
      right-hand side of the electronic amplitude equation, and
      [Fourth_RungeKutta], one classical RK4 step of it;
    - [src/FSSH.py/hopping_probability.py]: [HoppingProbability], the
      stochastic hop with its frustrated-hop gate and the energy-conserving
      velocity rescaling, and [VelocityVerlet], the nuclear step;
    - [src/FSSH.py/run/FSSH.py]: [main], the per-step loop
      RK4 -> hop -> Verlet until the particle leaves [(PMin, PMax)] or
      1038 steps have been made, and the tally of the four outcome buckets.

    Data flow of one step: the adiabatic data ([Eig], [dij], [force]) of the
    current position feed the electronic step and the hop decision; the hop
    decision's state and velocity feed the Verlet step, which re-evaluates the
    potential and [Calc_dij_force] at the new position for the next step.

    ** Files of the development (in dependency order)

    - [Prelude] (this file): [fssh_scope] notations for 2x2 matrices,
      [np_sign] (numpy's [sign]), [Rltb] (a float comparison as a [bool]),
      [py_get2] (Python indexing of a length-2 array, with [IndexError] as
      [None]), the 2x2 real matrices [Mat2], the derivative combinators and
      the [dlim] tactic used by the potentials, [lincomb] for equations that
      follow linearly from hypotheses, the [fssh] and [fssh_rw] hint
      databases, and list lemmas.
    - [PotEig]: [Module PotEig], the three potentials of [PotEig.py] with
      their parameters as named constants, and the closed enumeration
      [family] / [potential] of the three (spec, section 9).
    - [Cplx]: complex numbers as pairs of reals (numpy [complex128]), the
      complex 2-vectors ([cstate]) and 2x2 matrices ([combine], [a]).
    - [Eigh]: the contract of [numpy.linalg.eigh] as [Class Eigh], the
      closed-form instance [EighClosed] (a symmetric eigenvector matrix) and
      the equally valid [EighRotation] (the opposite sign of the second
      eigenvector, a rotation).
    - [NACsForce]: [Calc_dij_force] in a Section over any [Eigh].
    - [SACAnalysis]: [Calc_dij_force] on [Potenial_SAC] in closed form
      (energies [-+ r], forces [+- g] with [r = sqrt(V00^2 + V01^2)]), the
      entries [sac_a], [sac_b], [sac_a1], [sac_b1] of [V] and [V_der] and
      the branch formulas [sac_aP], [sac_aM] of [V00] on each side of
      [p = 0]; bounds along the whole line; Section [Branch] bounds the
      derivative of [g] on a smooth branch, and the mean value theorem turns
      that into a Lipschitz constant and a trapezoid rule for the energy.
    - [RungeKutta]: [Coefficient_DiffEqu], [Fourth_RungeKutta], the generic
      RK4 step [rk4] of Section [RK4Linear] and Section [NormDrift].
    - [Hopping]: [HoppingProbability], with the draw of [random.random()]
      as the argument [rnd].
    - [Verlet]: [VelocityVerlet] and [SAC_adiabatic] (the composition of
      [Potenial_SAC] and [Calc_dij_force] that the step and the trajectory
      start perform), and the energy of a step on the SAC model
      ([state_sign], [VelocityVerlet_sac], [vv_energy]).
    - [Trajectory]: the loop of [FSSH.py]'s [main] as [fssh_step] (one
      iteration), [fssh_loop] (the [while] with its [break]), [tally],
      [run_ensemble], [probabilities] and the momentum sweep [fssh_sweep];
      [reachable] is the step relation of a trajectory.
    - [Drivers]: the [main] functions of [hopping_probability.py],
      [NACsForce.py] (with [Plot]), [PotEig.py] and [Fourth_RungeKutta.py]
      without their [print] and [matplotlib] calls: [hopping_main],
      [Plot_data], [nacs_main], [poteig_main], [rk4_main], and numpy's
      [linspace].
    - [Scenario]: [FSSH.py]'s own run (momentum 20) as an invariant of
      [fssh_step] ([scen_inv]: adiabatic data of the current position, a
      positive velocity, the position and the total energy after [k] steps),
      and the loop as the transition relation [steps_to].

    ** What the theorems show

    - Potentials ([Potenial_SAC_exact], [Potenial_DAC_exact],
      [Potenial_ECR_exact], [Potenial_coupling_pos]): [V] and [V_der] are
      symmetric and [V_der] is the exact derivative of [V] at every position,
      the [p == 0] branches included; the diabatic coupling is positive
      everywhere.
    - Adiabatic transform ([Calc_dij_force_shape],
      [Calc_dij_force_gap_potentials], [Calc_dij_force_hellmann_feynman],
      [Calc_dij_force_conservative], [Calc_dij_force_rotation_force],
      [eigh_closed_contract], [eigh_up_to_sign],
      [Calc_dij_force_two_outputs], [Calc_dij_force_norm_bounds]): for a
      symmetric [V] with nonzero coupling every implementation of numpy's
      contract returns the closed form's eigenvalues and its eigenvectors up
      to the sign of each column, so the energies never depend on LAPACK and
      [Calc_dij_force] has exactly two possible results, decided by whether
      the two columns share a sign; energies ascend, the coupling is
      antisymmetric, the gap never vanishes along the three potentials; for
      every implementation the forces are the Hellmann-Feynman forces
      [-(U^T V_der U)[k,k]] for every [V_der] exactly when the eigenvector
      matrix is symmetric, and then, along every potential, exactly minus
      the slopes of the adiabatic energies; with a rotation (equally allowed
      by numpy's contract) the upper-state force has the wrong sign at every
      [V] with nonzero coupling: the code's [MatrixDot] is not the spec's
      [U^T . V_der . U]; for every
      implementation the forces, and the coupling times the gap, are bounded
      by [||V_der||_F].
    - Electronic propagator ([Fourth_RungeKutta_taylor],
      [Fourth_RungeKutta_norm], [Fourth_RungeKutta_drift],
      [electronic_step_gauge]): one RK4 step is the degree-4 Taylor
      polynomial of the exact propagator; the norm drift of one step is
      exactly [-h^6/72 |L^3 c|^2 + h^8/576 |L^4 c|^2]; for
      [h^2 ||combine||_F^2 <= 8], [n] steps never increase the norm and lose
      at most [n h * h^5/72 ||combine||_F^6 |c|^2]; the sign convention of
      the coupling is a gauge choice that changes no hop decision.
    - Hop decision ([HoppingProbability_state1], [_state2], [_frustrated],
      [_energy], [_rest], [_total]): Tully's rule in each state, the
      frustrated-hop gate, exact energy conservation with the direction kept
      on every hop, no hop at rest, never an [IndexError].
    - Nuclear step ([VelocityVerlet_total], [VelocityVerlet_reversible],
      [VelocityVerlet_energy]): never an [IndexError], returns the adiabatic
      data of its new position, is exactly time-reversible, and on the SAC
      model changes the total energy by at most [L D^2 / 2 + S h^2 / (8 m)]
      for a step of length [D] and time step [h] (a second-order error).
    - Error paths ([fssh_zero_mass_raises], [HoppingProbability_total]):
      with [mass == 0] the run raises [ZeroDivisionError] at
      [momentum / mass] before any step, and a hop from state 2 raises at
      [2.0 / mass]; with a nonzero mass the hop decision never raises.
    - Trajectory ([reachable_inv], [run_trajectory_terminates],
      [run_ensemble_tally], [run_ensemble_all_exit], [fssh_momentum_bounds],
      [fssh_sweep_bounds], [fssh_main_outcome], [run_ensemble_reproducible]):
      the invariant of reachable
      states, termination of every trajectory (outside the domain or at
      1038 steps) with fuel shown sufficient, the tally counts every
      trajectory not ending at [p = 0] exactly once, exits included or not,
      the probabilities are bounded, the sweep never fails, and the
      repository's own run (one trajectory at momentum 20) terminates for
      every draw sequence with probabilities 0 or 1; a run depends only on
      the window of draws it consumes, so a fixed seed reproduces it.
    - Drivers ([Plot_data_dispatch], [Plot_forces_conservative],
      [hopping_main_frustrated], [nacs_main_plots], [poteig_main_curve],
      [rk4_main_norm]):
      [Plot]'s string dispatch is the closed enumeration and raises exactly
      for an unknown name or an empty grid; every plotted force is minus the
      slope of the plotted energy; [hopping_probability.py]'s [main] raises
      [TypeError] at its call of [HoppingProbability] (a stray keyword
      [x=p]), and the decision it meant to print is frustrated whatever the
      draw; [PotEig.py]'s curve is
      [Plot]'s ECR energy curve; the amplitude [Fourth_RungeKutta.py]'s
      [main] prints has norm within [10^-12] of 1.
    - Round trips ([Calc_dij_force_roundtrip], [VelocityVerlet_reversible]):
      the energies [Calc_dij_force] returns, rotated back with [eigh]'s
      eigenvectors, give [V] exactly, for every implementation; a Verlet
      step followed by a step with reversed velocity returns to the start.
    - SAC bounds ([sac_adiabatic_bounds]): the energies lie in
      [[-0.0112, 0.0112]] with a gap of at least [2/625], the forces are at
      most [0.0168] in size and Lipschitz with constant [1/4].
    - The scenario ([fssh_scenario_ceiling], [fssh_scenario_eventually]):
      for every draw sequence in [[0,1)] (closed-form [eigh]), [main]'s run
      never exits the domain; the loop only steps from positions inside
      [(-10, 10)] and stops at the 1038-step ceiling with [p] in
      [[-2.5, 3]], and [main] reports the tally of that unfinished
      trajectory (the spec asks for an exit within the ceiling and for
      ceiling-stopped runs to be reported as inconclusive).

    ** Constants of the scenario argument

    The total energy [W = 0.5 m v^2 + Eig[nstate-1]] starts in
    [[0.0888, 0.1]] ([|Eig| <= 0.0112]).  A hop keeps it exactly; a Verlet
    step of length [D] changes it by at most [L D^2 / 2 + S / (8 m)] with
    [L = 1/4] (Lipschitz constant of the force, from [|g'| <= S/r0 + t0],
    [S = 2.81e-4] the bound on [|V_der|^2], [r0 = 1/625] the bound below
    half the gap, [t0 = 0.028] the bound on [|V''|]) and [m = 2000].  As
    long as [W] stays within [1038 * 2e-5] of its start range, the velocity
    stays in [[0.0075, 0.012]], so [D] is in [[0.0074, 1/80]] and the error
    per step below [2e-5]: the invariant closes by induction on the steps.

    ** Fuel

    [fssh_loop] is a [Fixpoint] on fuel.  The source's counter [n] breaks the
    loop at [n == 1038], so [NSTEP = 1038] units of fuel starting from
    [n = 0] always reach a [break] or an exit: [run_trajectory_terminates]
    proves that any larger fuel gives the same result.

    ** Modelling choices

    - Floating-point numbers are modelled as exact reals ([R]); rounding is
      not modelled.  A division of Python floats raises
      [ZeroDivisionError]: [momentum / mass] ([run_trajectory]) and
      [2.0 / mass] ([HoppingProbability]) return [None] for a zero mass.  A
      division of numpy scalars returns [inf]/[nan] without raising
      ([b[1, 0] / a[0, 0].real], [force[nstate-1] / mass]); it is modelled by
      [R]'s total division ([x / 0 = 0]): [a[0, 0] = 0] forces [b[1, 0] = 0]
      (and likewise for state 2), so numpy's [nan > rnd] and the model's
      [0 > rnd] both decide no hop, and the Verlet division by the mass is
      only reached once [momentum / mass] has succeeded.
    - [numpy.linalg.eigh] is a library the sources call, not code of the
      repository: it is a [Class] whose laws are its documented contract; the
      theorems about [Calc_dij_force] hold for every implementation of it,
      and those about the trajectory are stated for any instance.
    - Python's [random.random()] is an argument of the hop decision (a draw in
      [[0,1)]) and, in the trajectory, a stream [draws] indexed by the number
      of draws made so far, so the model is deterministic given the draws.
    - Python integers indexing numpy arrays ([Eig[nstate-1]],
      [force[nstate-1]]) are [Z] indices into [py_get2], which returns
      [None] where Python raises [IndexError]; [ntraj = 0] gives [None]
      where [j[1]/ntraj] raises [ZeroDivisionError].

    ** Not modelled

    The [print], [time] and [matplotlib] calls of every [main] and of
    [FSSH.py] (spec, section 1: out of scope), and the [numba] import.
    Which eigenvector signs LAPACK picks is left open rather than modelled:
    it is unspecified by numpy, [eigh_up_to_sign] shows it is the
    only freedom the contract leaves, and the theorems about [eigh] hold
    for every choice ([Calc_dij_force_two_outputs] gives both outcomes).

    ** Planned next

    The same energy argument for other momenta of a sweep: the constants
    above are specific to momentum 20 (the Verlet step always uses the SAC
    model, so no other potential enters a trajectory).
*)

From Stdlib Require Import Reals Lra Psatz ZArith List Lia.
Open Scope R_scope.

Declare Scope fssh_scope.
Delimit Scope fssh_scope with fssh.

Create HintDb fssh discriminated.
Create Rewrite HintDb fssh_rw.

(** ** Python's comparison [x < y] of two floats, as a [bool] *)

Definition Rltb (x y : R) : bool := if Rlt_dec x y then true else false.

Lemma Rltb_true x y : Rltb x y = true <-> x < y.
Proof. unfold Rltb; destruct (Rlt_dec x y); split; intros; auto; discriminate. Qed.

(** A Python float test [y == 0] that is false. *)
Lemma if_Req_neq {A} x y (a b : A) : x <> y -> (if Req_dec_T x y then a else b) = b.
Proof. intros H; destruct (Req_dec_T x y); [contradiction | reflexivity]. Qed.

(** A Python float test [y == 0] that is true. *)
Lemma if_Req_eq {A} x (a b : A) : (if Req_dec_T x x then a else b) = a.
Proof. destruct (Req_dec_T x x) as [_ | C]; [reflexivity | contradiction]. Qed.

Lemma Rltb_false x y : Rltb x y = false <-> ~ x < y.
Proof. unfold Rltb; destruct (Rlt_dec x y); split; intros; auto; [discriminate | contradiction]. Qed.

(** ** numpy's [sign] *)

Definition np_sign (x : R) : R :=
  if Rlt_dec 0 x then 1 else if Rlt_dec x 0 then -1 else 0.

(** ** Python indexing of a length-2 array by an [int]: indices [0], [1],
    [-1], [-2] are valid, anything else raises [IndexError] ([None]). *)

Definition py_get2 {A : Type} (v : A * A) (i : Z) : option A :=
  match i with
  | Z0 => Some (fst v)
  | Zpos xH => Some (snd v)
  | Zneg xH => Some (snd v)
  | Zneg (xO xH) => Some (fst v)
  | _ => None
  end.

(** ** 2x2 real matrices ([numpy] arrays of shape (2,2)) *)

Record Mat2 := mkMat2 { m00 : R; m01 : R; m10 : R; m11 : R }.

Definition m2_mul (A B : Mat2) : Mat2 :=
  mkMat2 (m00 A * m00 B + m01 A * m10 B) (m00 A * m01 B + m01 A * m11 B)
         (m10 A * m00 B + m11 A * m10 B) (m10 A * m01 B + m11 A * m11 B).

Definition m2_tr (A : Mat2) : Mat2 := mkMat2 (m00 A) (m10 A) (m01 A) (m11 A).

Definition m2_diag (a b : R) : Mat2 := mkMat2 a 0 0 b.

Definition m2_id : Mat2 := m2_diag 1 1.

Definition m2_scale (c : R) (A : Mat2) : Mat2 := mkMat2 (c * m00 A) (c * m01 A) (c * m10 A) (c * m11 A).

Definition m2_sub (A B : Mat2) : Mat2 :=
  mkMat2 (m00 A - m00 B) (m01 A - m01 B) (m10 A - m10 B) (m11 A - m11 B).

(** [-A], used for the opposite sign convention of the coupling. *)
Definition m2_opp (A : Mat2) : Mat2 := m2_scale (-1) A.

Definition m2_symmetric (A : Mat2) : Prop := m01 A = m10 A.

Definition m2_det (A : Mat2) : R := m00 A * m11 A - m01 A * m10 A.

Infix "⋅" := m2_mul (at level 40, left associativity) : fssh_scope.
Notation "A 'ᵀ'" := (m2_tr A) (at level 1, format "A 'ᵀ'") : fssh_scope.

Open Scope fssh_scope.

Lemma Mat2_ext (A B : Mat2) :
  m00 A = m00 B -> m01 A = m01 B -> m10 A = m10 B -> m11 A = m11 B -> A = B.
Proof. destruct A, B; simpl; intros -> -> -> ->; reflexivity. Qed.

(** Reduce an equation of matrices to its four entries. *)
Ltac mat2_ext := apply Mat2_ext; cbn [m00 m01 m10 m11 m2_mul m2_tr m2_diag m2_id].

(** ** Generic lemmas on reals *)

Lemma np_sign_pos x : 0 < x -> np_sign x = 1.
Proof. unfold np_sign; intros H; destruct (Rlt_dec 0 x); [reflexivity | lra]. Qed.

Lemma np_sign_neg x : x < 0 -> np_sign x = -1.
Proof.
  unfold np_sign; intros H.
  destruct (Rlt_dec 0 x); [lra|]; destruct (Rlt_dec x 0); [reflexivity | lra].
Qed.

Lemma np_sign_zero : np_sign 0 = 0.
Proof.
  unfold np_sign; destruct (Rlt_dec 0 0); [lra|]; destruct (Rlt_dec 0 0); [lra | reflexivity].
Qed.

(** The square of the sign of a nonzero number is 1. *)
Lemma np_sign_sqr x : x <> 0 -> np_sign x * np_sign x = 1.
Proof.
  intros H; destruct (Rtotal_order x 0) as [Hx | [Hx | Hx]]; [| contradiction |].
  - rewrite np_sign_neg by exact Hx; ring.
  - rewrite np_sign_pos by exact Hx; ring.
Qed.

(** [sign x * x] is [|x|]: a rescaled velocity keeps the direction. *)
Lemma np_sign_mul_self x : np_sign x * x = Rabs x.
Proof.
  destruct (Rtotal_order x 0) as [Hx | [Hx | Hx]].
  - rewrite np_sign_neg, Rabs_left by exact Hx; ring.
  - subst; rewrite np_sign_zero, Rabs_R0; ring.
  - rewrite np_sign_pos, Rabs_right by lra; ring.
Qed.

(** Decimal literals such as [0.5] are [Q2R] constants, opaque to [ring]
    and [field]; [lra] evaluates them. *)
Lemma R_half : 0.5 = / 2.
Proof. lra. Qed.

Lemma sqr_sqrt_nonneg x : 0 <= x -> sqrt x * sqrt x = x.
Proof. apply sqrt_sqrt. Qed.

#[export] Hint Resolve np_sign_pos np_sign_neg np_sign_sqr sqrt_pos exp_pos : fssh.
#[export] Hint Rewrite np_sign_zero : fssh_rw.

(** ** Derivatives of real functions

    [derivable_pt_lim f x l] is the Standard Library's statement that [f] has
    derivative [l] at [x].  The combinators below state the usual rules on
    lambda terms, so that [dlim] can build the derivative of a potential
    entry by following its syntax. *)

Lemma dlim_const c x : derivable_pt_lim (fun _ => c) x 0.
Proof. exact (derivable_pt_lim_const c x). Qed.

Lemma dlim_id x : derivable_pt_lim (fun q => q) x 1.
Proof. exact (derivable_pt_lim_id x). Qed.

Lemma dlim_plus f g x lf lg :
  derivable_pt_lim f x lf -> derivable_pt_lim g x lg ->
  derivable_pt_lim (fun q => f q + g q) x (lf + lg).
Proof. intros Hf Hg; exact (derivable_pt_lim_plus f g x lf lg Hf Hg). Qed.

Lemma dlim_minus f g x lf lg :
  derivable_pt_lim f x lf -> derivable_pt_lim g x lg ->
  derivable_pt_lim (fun q => f q - g q) x (lf - lg).
Proof. intros Hf Hg; exact (derivable_pt_lim_minus f g x lf lg Hf Hg). Qed.

Lemma dlim_opp f x l :
  derivable_pt_lim f x l -> derivable_pt_lim (fun q => - f q) x (- l).
Proof. intros H; exact (derivable_pt_lim_opp f x l H). Qed.

Lemma dlim_mult f g x lf lg :
  derivable_pt_lim f x lf -> derivable_pt_lim g x lg ->
  derivable_pt_lim (fun q => f q * g q) x (lf * g x + f x * lg).
Proof. intros Hf Hg; exact (derivable_pt_lim_mult f g x lf lg Hf Hg). Qed.

Lemma dlim_pow f x l n :
  derivable_pt_lim f x l ->
  derivable_pt_lim (fun q => f q ^ n) x (INR n * f x ^ Nat.pred n * l).
Proof.
  intros H; exact (derivable_pt_lim_comp f (fun y => y ^ n) x l _ H (derivable_pt_lim_pow (f x) n)).
Qed.

Lemma dlim_exp f x l :
  derivable_pt_lim f x l -> derivable_pt_lim (fun q => exp (f q)) x (exp (f x) * l).
Proof.
  intros H; exact (derivable_pt_lim_comp f exp x l (exp (f x)) H (derivable_pt_lim_exp _)).
Qed.

Lemma dlim_value f x l l' : derivable_pt_lim f x l -> l = l' -> derivable_pt_lim f x l'.
Proof. intros H ->; exact H. Qed.

(** A function that agrees with [g] on the positive (negative) half-line has
    [g]'s derivative at every positive (negative) point. *)
Lemma dlim_on_pos f g x l :
  (forall z, 0 < z -> f z = g z) -> 0 < x ->
  derivable_pt_lim g x l -> derivable_pt_lim f x l.
Proof.
  intros Hfg Hx Hg.
  apply (derivable_pt_lim_locally_ext g f x 0 (x + 1)); [lra | | exact Hg].
  intros z Hz; symmetry; apply Hfg; lra.
Qed.

Lemma dlim_on_neg f g x l :
  (forall z, z < 0 -> f z = g z) -> x < 0 ->
  derivable_pt_lim g x l -> derivable_pt_lim f x l.
Proof.
  intros Hfg Hx Hg.
  apply (derivable_pt_lim_locally_ext g f x (x - 1) 0); [lra | | exact Hg].
  intros z Hz; symmetry; apply Hfg; lra.
Qed.

(** Gluing at 0: a function given by [g1] right of 0 and by [g2] left of 0,
    with the value of both at 0 and the same derivative [l] there, has
    derivative [l] at 0.  This is what the [p == 0] branches of the
    potentials need. *)
Lemma dlim_glue0 f g1 g2 l :
  (forall z, 0 < z -> f z = g1 z) -> (forall z, z < 0 -> f z = g2 z) ->
  f 0 = g1 0 -> f 0 = g2 0 ->
  derivable_pt_lim g1 0 l -> derivable_pt_lim g2 0 l -> derivable_pt_lim f 0 l.
Proof.
  intros H1 H2 E1 E2 D1 D2 eps Heps.
  destruct (D1 eps Heps) as [d1 Hd1]; destruct (D2 eps Heps) as [d2 Hd2].
  assert (Hd : 0 < Rmin d1 d2) by (apply Rmin_pos; apply cond_pos).
  exists (mkposreal _ Hd); intros h Hh Habs; simpl in Habs.
  pose proof (Rmin_l d1 d2); pose proof (Rmin_r d1 d2).
  destruct (Rlt_dec 0 h) as [Hp | Hn].
  - rewrite (H1 (0 + h)), E1 by lra; apply Hd1; [exact Hh | lra].
  - rewrite (H2 (0 + h)), E2 by (destruct (Rtotal_order h 0) as [|[|]]; lra).
    apply Hd2; [exact Hh | lra].
Qed.

Lemma dlim_ext f g x l :
  (forall z, f z = g z) -> derivable_pt_lim g x l -> derivable_pt_lim f x l.
Proof. intros H; apply derivable_pt_lim_ext; intros z; symmetry; apply H. Qed.

Lemma dlim_div_const f x l c :
  derivable_pt_lim f x l -> derivable_pt_lim (fun q => f q / c) x (l / c).
Proof.
  intros H; apply (dlim_ext _ (fun q => f q * / c)); [intros z; reflexivity |].
  eapply dlim_value; [apply dlim_mult; [exact H | apply dlim_const] | cbv beta; unfold Rdiv; ring].
Qed.

Lemma dlim_sqrt f x l :
  derivable_pt_lim f x l -> 0 < f x ->
  derivable_pt_lim (fun q => sqrt (f q)) x (/ (2 * sqrt (f x)) * l).
Proof.
  intros H Hpos.
  exact (derivable_pt_lim_comp f sqrt x l _ H (derivable_pt_lim_sqrt _ Hpos)).
Qed.

Lemma dlim_div f g x lf lg :
  derivable_pt_lim f x lf -> derivable_pt_lim g x lg -> g x <> 0 ->
  derivable_pt_lim (fun q => f q / g q) x ((lf * g x - lg * f x) / (g x) ^ 2).
Proof.
  intros Hf Hg Hx; pose proof (derivable_pt_lim_div f g x lf lg Hf Hg Hx) as H.
  replace ((g x) ^ 2) with (Rsqr (g x)) by (unfold Rsqr; ring); exact H.
Qed.

(** Build the derivative of a closed expression by its syntax. *)
Ltac dlim_step :=
  match goal with
  | |- derivable_pt_lim (fun _ => ?c) _ _ => apply dlim_const
  | |- derivable_pt_lim (fun q => q) _ _ => apply dlim_id
  | |- derivable_pt_lim (fun q => exp (@?g q)) _ _ => apply (dlim_exp g)
  | |- derivable_pt_lim (fun q => @?f q + @?g q) _ _ => apply (dlim_plus f g)
  | |- derivable_pt_lim (fun q => @?f q - @?g q) _ _ => apply (dlim_minus f g)
  | |- derivable_pt_lim (fun q => - @?f q) _ _ => apply (dlim_opp f)
  | |- derivable_pt_lim (fun q => @?f q * @?g q) _ _ => apply (dlim_mult f g)
  | |- derivable_pt_lim (fun q => @?f q ^ ?n) _ _ => apply (dlim_pow f)
  | |- derivable_pt_lim (fun q => @?f q / ?c) _ _ => apply (dlim_div_const f)
  | |- derivable_pt_lim (fun q => @?f q / @?g q) _ _ => apply (dlim_div f g)
  | |- derivable_pt_lim (fun q => sqrt (@?f q)) _ _ => apply (dlim_sqrt f)
  | H : derivable_pt_lim ?f ?x _ |- derivable_pt_lim ?f ?x _ => exact H
  | H : derivable_pt_lim ?f ?x _ |- derivable_pt_lim (fun q => ?f q) ?x _ => exact H
  end.

(** [dlim] proves [derivable_pt_lim f x l] when [l] is, up to [ring], the
    derivative that the rules compute. *)
Ltac dlim :=
  eapply dlim_value; [repeat dlim_step | cbv beta; cbn [INR Nat.pred]; ring].




(** A function given by [gpos] on the positive half-line and by [gneg] on the
    negative one, with a value at 0 shared by both, has at every point the
    derivative [D] that follows the same three branches, provided the two
    one-sided formulas agree at 0. *)
Lemma dlim_piecewise (f D gpos gneg lpos lneg : R -> R) x :
  (forall z, 0 < z -> f z = gpos z /\ D z = lpos z) ->
  (forall z, z < 0 -> f z = gneg z /\ D z = lneg z) ->
  f 0 = gpos 0 -> f 0 = gneg 0 -> D 0 = lpos 0 -> D 0 = lneg 0 ->
  (forall z, derivable_pt_lim gpos z (lpos z)) ->
  (forall z, derivable_pt_lim gneg z (lneg z)) ->
  derivable_pt_lim f x (D x).
Proof.
  intros Hp Hn F1 F2 D1 D2 Gp Gn.
  destruct (Rtotal_order x 0) as [Hx | [Hx | Hx]].
  - rewrite (proj2 (Hn x Hx)); apply (dlim_on_neg f gneg); [apply Hn | exact Hx | apply Gn].
  - subst x; apply (dlim_glue0 f gpos gneg); [apply Hp | apply Hn | exact F1 | exact F2 | |];
      [rewrite D1 | rewrite D2]; auto.
  - rewrite (proj2 (Hp x Hx)); apply (dlim_on_pos f gpos); [apply Hp | exact Hx | apply Gp].
Qed.

(** An entry given everywhere by one smooth formula [g] with derivative [l]. *)
Lemma dlim_entry (f D g l : R -> R) x :
  (forall z, f z = g z) -> (forall z, D z = l z) ->
  (forall z, derivable_pt_lim g z (l z)) -> derivable_pt_lim f x (D x).
Proof. intros Hf HD Hg; rewrite HD; apply (dlim_ext f g); [exact Hf | apply Hg]. Qed.

(** An entry that is a constant multiple of another one. *)
Lemma dlim_scale_ext f g x c l m :
  (forall z, f z = c * g z) -> m = c * l ->
  derivable_pt_lim g x l -> derivable_pt_lim f x m.
Proof.
  intros Hf -> Hg; apply (dlim_ext f (fun z => c * g z)); [exact Hf |].
  eapply dlim_value; [apply dlim_mult; [apply dlim_const | exact Hg] | cbv beta; ring].
Qed.

(** Present the derivative [e] in a goal [derivable_pt_lim f x e] as a
    function of the point, [(fun q => e[q/x]) x], for the lemmas above. *)
Ltac point_fun :=
  match goal with
  | |- derivable_pt_lim ?f ?x ?e =>
      let e' := eval pattern x in e in
      match e' with ?D _ => change (derivable_pt_lim f x (D x)) end
  end.

(** A matrix-valued function has the matrix [D] as derivative at [x] when
    each entry has the corresponding entry of [D] as derivative. *)
Definition m2_derivable_pt_lim (f : R -> Mat2) (x : R) (D : Mat2) : Prop :=
  derivable_pt_lim (fun q => m00 (f q)) x (m00 D) /\
  derivable_pt_lim (fun q => m01 (f q)) x (m01 D) /\
  derivable_pt_lim (fun q => m10 (f q)) x (m10 D) /\
  derivable_pt_lim (fun q => m11 (f q)) x (m11 D).

(** Case analysis on the real comparisons of a Python [if]/[elif] chain,
    closing the contradictory branches. *)
Ltac py_branches :=
  repeat match goal with
    | |- context [Rlt_dec ?a ?b] => destruct (Rlt_dec a b)
    | |- context [Req_dec_T ?a ?b] => destruct (Req_dec_T a b)
    end;
  try (exfalso; lra);
  try match goal with H : ?x <> ?x |- _ => exfalso; exact (H eq_refl) end.

(** ** Equations that follow linearly from equational hypotheses

    [lincomb H c] proves [L = R] when [L - R = c * (X - Y)] is a ring
    identity for [H : X = Y]; [lincomb2] does the same with two hypotheses.
    The eigen-equations of [Eigh] are of this kind: they hold modulo the
    defining equation [r * r = del^2 + b^2] of the square root. *)
Ltac lincomb H c :=
  match type of H with ?X = ?Y =>
    apply Rminus_diag_uniq; transitivity (c * (X - Y));
    [first [ring | field] | rewrite (Rminus_diag_eq X Y H); ring] end.

Ltac lincomb2 H1 c1 H2 c2 :=
  match type of H1 with ?X1 = ?Y1 => match type of H2 with ?X2 = ?Y2 =>
    apply Rminus_diag_uniq; transitivity (c1 * (X1 - Y1) + c2 * (X2 - Y2));
    [first [ring | field] | rewrite (Rminus_diag_eq X1 Y1 H1), (Rminus_diag_eq X2 Y2 H2); ring] end end.

(** A sign: the square roots of one. *)
Lemma sq_one_cases s : s * s = 1 -> s = 1 \/ s = -1.
Proof.
  intros H; assert (H0 : (s - 1) * (s + 1) = 0) by lra.
  destruct (Rmult_integral _ _ H0); [left | right]; lra.
Qed.

(** A sign common to both sides of a sandwich [A . B . A] cancels. *)
Lemma m2_scale_sandwich s A B : s * s = 1 -> m2_scale s A ⋅ B ⋅ m2_scale s A = A ⋅ B ⋅ A.
Proof.
  intros Hs; destruct (sq_one_cases s Hs) as [-> | ->];
    destruct A, B; unfold m2_scale; apply Mat2_ext; cbn; ring.
Qed.

Lemma m2_det_mul A B : m2_det (A ⋅ B) = m2_det A * m2_det B.
Proof. destruct A, B; unfold m2_det; cbn; ring. Qed.

Lemma m2_det_tr A : m2_det (A ᵀ) = m2_det A.
Proof. destruct A; unfold m2_det; cbn; ring. Qed.

(** An orthogonal matrix is invertible: [U^T U = I] gives [det U^2 = 1]. *)
Lemma m2_orth_det U : U ᵀ ⋅ U = m2_id -> m2_det U <> 0.
Proof.
  intros H Hd; apply (f_equal m2_det) in H.
  rewrite m2_det_mul, m2_det_tr, Hd in H; unfold m2_det in H; cbn in H; lra.
Qed.

Definition m2_trace (A : Mat2) : R := m00 A + m11 A.

Lemma m2_mul_assoc A B C : A ⋅ (B ⋅ C) = A ⋅ B ⋅ C.
Proof. destruct A, B, C; mat2_ext; ring. Qed.

Lemma m2_mul_id_l A : m2_id ⋅ A = A.
Proof. destruct A; mat2_ext; ring. Qed.

Lemma m2_mul_id_r A : A ⋅ m2_id = A.
Proof. destruct A; mat2_ext; ring. Qed.

Lemma m2_trace_comm A B : m2_trace (A ⋅ B) = m2_trace (B ⋅ A).
Proof. destruct A, B; unfold m2_trace; cbn; ring. Qed.

(** An invertible right factor cancels. *)
Lemma m2_mul_cancel_r X Y U : m2_det U <> 0 -> X ⋅ U = Y ⋅ U -> X = Y.
Proof.
  destruct X as [x0 x1 x2 x3], Y as [y0 y1 y2 y3], U as [a b c d]; unfold m2_det; cbn.
  intros Hd H; injection H as E0 E1 E2 E3.
  assert (K : forall p q r s, p * a + q * c = r * a + s * c -> p * b + q * d = r * b + s * d ->
                              p = r /\ q = s).
  { intros p q r s F1 F2; split; apply Rminus_diag_uniq; apply (Rmult_eq_reg_r (a * d - b * c));
      auto; [lincomb2 F1 d F2 (- c) | lincomb2 F1 (- b) F2 a]. }
  destruct (K _ _ _ _ E0 E1), (K _ _ _ _ E2 E3); subst; reflexivity.
Qed.

(** Orthonormal columns give orthonormal rows. *)
Lemma m2_orth_rows U : U ᵀ ⋅ U = m2_id -> U ⋅ U ᵀ = m2_id.
Proof.
  intros H; apply (m2_mul_cancel_r _ _ U (m2_orth_det _ H)).
  rewrite <- m2_mul_assoc, H, m2_mul_id_r, m2_mul_id_l; reflexivity.
Qed.

(** The squared Frobenius norm. *)
Definition m2_frob2 (A : Mat2) : R := m00 A ^ 2 + m01 A ^ 2 + m10 A ^ 2 + m11 A ^ 2.

#[export] Hint Resolve pow2_ge_0 Rplus_le_le_0_compat Rmult_le_pos : fssh.

Lemma m2_frob2_nonneg A : 0 <= m2_frob2 A.
Proof. unfold m2_frob2; auto with fssh. Qed.

#[export] Hint Resolve m2_frob2_nonneg : fssh.

(** Cauchy-Schwarz in the plane, by Lagrange's identity. *)
Lemma cauchy_schwarz2 x0 x1 z0 z1 :
  (x0 * z0 + x1 * z1) ^ 2 <= (x0 ^ 2 + x1 ^ 2) * (z0 ^ 2 + z1 ^ 2).
Proof.
  assert (E : (x0 ^ 2 + x1 ^ 2) * (z0 ^ 2 + z1 ^ 2) = (x0 * z0 + x1 * z1) ^ 2 + (x0 * z1 - x1 * z0) ^ 2)
    by ring.
  rewrite E; pose proof (pow2_ge_0 (x0 * z1 - x1 * z0)); lra.
Qed.

(** [|x^T A y|^2 <= ||A||_F^2] for unit vectors [x] and [y]. *)
Lemma quad_form_bound x0 x1 y0 y1 A :
  x0 ^ 2 + x1 ^ 2 = 1 -> y0 ^ 2 + y1 ^ 2 = 1 ->
  (x0 * (m00 A * y0 + m01 A * y1) + x1 * (m10 A * y0 + m11 A * y1)) ^ 2 <= m2_frob2 A.
Proof.
  intros Hx Hy; eapply Rle_trans; [apply cauchy_schwarz2 |]; rewrite Hx, Rmult_1_l.
  pose proof (cauchy_schwarz2 (m00 A) (m01 A) y0 y1); pose proof (cauchy_schwarz2 (m10 A) (m11 A) y0 y1).
  rewrite Hy in *; unfold m2_frob2; lra.
Qed.

(** The entries of [U . A . U] for an orthogonal [U] are bounded by [||A||_F]. *)
Lemma m2_sandwich_bound U A :
  U ᵀ ⋅ U = m2_id ->
  m00 (U ⋅ A ⋅ U) ^ 2 <= m2_frob2 A /\ m01 (U ⋅ A ⋅ U) ^ 2 <= m2_frob2 A /\
  m11 (U ⋅ A ⋅ U) ^ 2 <= m2_frob2 A.
Proof.
  intros HC; pose proof (m2_orth_rows _ HC) as HR.
  destruct U as [a b c d]; unfold m2_id, m2_diag in HC, HR; cbn in HC, HR.
  injection HC as C0 C1 _ C3; injection HR as R0 _ _ R3.
  assert (Ua : a ^ 2 + b ^ 2 = 1) by lra. assert (Ub : c ^ 2 + d ^ 2 = 1) by lra.
  assert (Va : a ^ 2 + c ^ 2 = 1) by lra. assert (Vb : b ^ 2 + d ^ 2 = 1) by lra.
  cbn [m2_mul m00 m01 m10 m11]; split; [| split].
  - replace (_ * a + _ * c) with (a * (m00 A * a + m01 A * c) + b * (m10 A * a + m11 A * c)) by ring.
    apply quad_form_bound; assumption.
  - replace (_ * b + _ * d) with (a * (m00 A * b + m01 A * d) + b * (m10 A * b + m11 A * d)) by ring.
    apply quad_form_bound; assumption.
  - replace (_ * b + _ * d) with (c * (m00 A * b + m01 A * d) + d * (m10 A * b + m11 A * d)) by ring.
    apply quad_form_bound; assumption.
Qed.

(** ** Bounds on the exponential *)

Lemma exp_le_1 x : x <= 0 -> exp x <= 1.
Proof. intros Hx; rewrite <- exp_0; destruct (Rle_lt_or_eq_dec _ _ Hx) as [H | ->]; [left; apply exp_increasing, H | right; reflexivity]. Qed.

(** [e^x >= (1 + x/2)^2] for [x >= -2]. *)
Lemma exp_mono x y : x <= y -> exp x <= exp y.
Proof. intros [H | ->]; [left; apply exp_increasing, H | right; reflexivity]. Qed.

Lemma exp_quad_lower x : -2 <= x -> 1 + x + x ^ 2 / 4 <= exp x.
Proof.
  intros Hx; assert (E : exp x = exp (x / 2) * exp (x / 2)) by (rewrite <- exp_plus; f_equal; field).
  rewrite E.
  pose proof (exp_ineq1_le (x / 2)).
  replace (1 + x + x ^ 2 / 4) with ((1 + x / 2) * (1 + x / 2)) by field.
  apply Rmult_le_compat; lra.
Qed.

(** [e^{-x} e^{x} = 1], and a square bounded by [e^{2x}] times [e^{-2x}]. *)
Lemma exp_opp_mul x : exp (- x) * exp x = 1.
Proof. rewrite <- exp_plus, Rplus_opp_l; apply exp_0. Qed.

Lemma sq_exp_opp_le u x : u ^ 2 <= exp x ^ 2 -> (u * exp (- x)) ^ 2 <= 1.
Proof.
  intros H; pose proof (exp_opp_mul x) as E; pose proof (pow2_ge_0 (exp (- x))).
  replace ((u * exp (- x)) ^ 2) with (u ^ 2 * exp (- x) ^ 2) by ring.
  replace 1 with (exp x ^ 2 * exp (- x) ^ 2) by (rewrite <- Rpow_mult_distr, Rmult_comm, E; ring).
  apply Rmult_le_compat_r; assumption.
Qed.

(** [|2 x| e^{-x^2} <= 1]. *)
Lemma gauss_slope x : (2 * x * exp (- x ^ 2)) ^ 2 <= 1.
Proof.
  apply sq_exp_opp_le; pose proof (exp_ineq1_le (x ^ 2)); pose proof (pow2_ge_0 (x ^ 2 - 1)).
  pose proof (pow2_ge_0 x); nra.
Qed.

(** [|4 x^2 - 2| e^{-x^2} <= 2]. *)
Lemma gauss_curv x : ((4 * x ^ 2 - 2) / 2 * exp (- x ^ 2)) ^ 2 <= 1.
Proof.
  apply sq_exp_opp_le; pose proof (exp_quad_lower (x ^ 2)) as He; pose proof (pow2_ge_0 x).
  assert (H0 : 0 <= 1 + x ^ 2 + (x ^ 2) ^ 2 / 4) by nra.
  assert (H2 : ((4 * x ^ 2 - 2) / 2) ^ 2 <= (1 + x ^ 2 + (x ^ 2) ^ 2 / 4) ^ 2)
    by (pose proof (pow2_ge_0 (x ^ 2 - 2)); pose proof (pow2_ge_0 (x ^ 2)); nra).
  apply (Rle_trans _ _ _ H2); apply pow_incr; lra.
Qed.

Lemma Rabs_le_bounds x a : Rabs x <= a -> - a <= x <= a.
Proof. intros H; pose proof (Rle_abs x); pose proof (Rle_abs (- x)); rewrite Rabs_Ropp in *; lra. Qed.

(** A quotient by a positive number is bounded by the numerator's bound. *)
Lemma Rabs_div_le X r L : 0 < r -> Rabs X <= r * L -> Rabs (X / r) <= L.
Proof.
  intros Hr HX; pose proof (Rle_abs X); pose proof (Rle_abs (- X)); rewrite Rabs_Ropp in *.
  pose proof (Rinv_0_lt_compat r Hr); pose proof (Rinv_r r ltac:(lra)).
  unfold Rdiv; apply Rabs_le; split; nra.
Qed.

(** ** Lists *)

Lemma filter_all {A : Type} (f : A -> bool) (l : list A) :
  List.Forall (fun x => f x = true) l -> List.filter f l = l.
Proof. induction 1 as [| x l Hx _ IH]; cbn; [reflexivity | rewrite Hx, IH; reflexivity]. Qed.

(** A comprehension over [range(len(l))] that indexes two arrays built
    from [l] is a [map] over [l]. *)
Lemma map_nth2_seq {A B C D : Type} (h1 : A -> B) (h2 : A -> C) (g : B -> C -> D)
    (l : list A) (d1 : B) (d2 : C) :
  List.map (fun i => g (List.nth i (List.map h1 l) d1) (List.nth i (List.map h2 l) d2))
           (List.seq 0 (length l)) =
  List.map (fun x => g (h1 x) (h2 x)) l.
Proof.
  induction l as [| x l IH]; [reflexivity |]; cbn [length List.seq List.map].
  rewrite <- List.seq_shift, List.map_map; cbn [List.nth]; f_equal; exact IH.
Qed.

(** The [k]-th element of a [map], inside the list. *)
Lemma nth_map_lt {A B : Type} (g : A -> B) (l : list A) (a : A) (b : B) k :
  (k < length l)%nat -> List.nth k (List.map g l) b = g (List.nth k l a).
Proof.
  intros Hk; rewrite (List.nth_indep _ b (g a)) by (rewrite List.length_map; exact Hk).
  apply List.map_nth.
Qed.

Lemma length_filter_le {A : Type} (f : A -> bool) (l : list A) :
  (length (List.filter f l) <= length l)%nat.
Proof. induction l as [| x l IH]; cbn; [| destruct (f x); cbn]; lia. Qed.
