(* ===== verification/PotEig.v ===== *)
(** * The diabatic model potentials of [src/FSSH.py/PotEig.py]

    [Potenial_SAC], [Potenial_DAC] and [Potenial_ECR] (the source's spelling)
    map a position [p] to the pair [(V, V_der)] of 2x2 matrices.  The source
    fills two [np.zeros([2,2])] arrays entry by entry; the model builds the
    same four entries as a [Mat2].  The parameters [A, B, C, ...] local to
    each function are named constants of the module.

    The theorems: [V] and [V_der] are symmetric, [V_der] is the exact
    derivative of [V] at every position (the [p == 0] branches included), and
    the off-diagonal coupling [V[0,1]] is positive everywhere, which is what
    keeps the adiabatic gap of [NACsForce] away from zero. *)

From Stdlib Require Import Reals Lra.
From S2P Require Import Prelude.
Open Scope R_scope.

Module PotEig.

(** ** Simple avoided crossing (PotEig.py, lines 24-58) *)

Definition SAC_A : R := 0.01.
Definition SAC_B : R := 1.6.
Definition SAC_C : R := 0.005.
Definition SAC_D : R := 1.

Definition Potenial_SAC (p : R) : Mat2 * Mat2 :=
  let '(V00, Vder00) :=
    if Rlt_dec 0 p then (SAC_A * (1 - exp (- SAC_B * p)), SAC_A * SAC_B * exp (- SAC_B * p))
    else if Req_dec_T p 0 then (0, SAC_A * SAC_B)
    else (- SAC_A * (1 - exp (SAC_B * p)), SAC_A * SAC_B * exp (SAC_B * p)) in
  let V01 := SAC_C * exp (- SAC_D * p ^ 2) in
  let Vder01 := -2 * p * SAC_C * SAC_D * exp (- SAC_D * p ^ 2) in
  (mkMat2 V00 V01 V01 (-1 * V00), mkMat2 Vder00 Vder01 Vder01 (-1 * Vder00)).

(** ** Dual avoided crossing (PotEig.py, lines 60-83) *)

Definition DAC_A : R := 0.1.
Definition DAC_B : R := 0.28.
Definition DAC_C : R := 0.015.
Definition DAC_D : R := 0.06.
Definition DAC_E0 : R := 0.05.

Definition Potenial_DAC (p : R) : Mat2 * Mat2 :=
  let V11 := - DAC_A * exp (- DAC_B * p ^ 2) + DAC_E0 in
  let V01 := DAC_C * exp (- DAC_D * p ^ 2) in
  let Vder11 := DAC_A * DAC_B * 2 * p * exp (- DAC_B * p ^ 2) in
  let Vder01 := -2 * p * DAC_C * DAC_D * exp (- DAC_D * p ^ 2) in
  (mkMat2 0 V01 V01 V11, mkMat2 0 Vder01 Vder01 Vder11).

(** ** Extended coupling with reflection (PotEig.py, lines 85-115);
    [6*(10**-4)] is [6 * 10^-4]. *)

Definition ECR_A : R := 6 * / 10 ^ 4.
Definition ECR_B : R := 0.10.
Definition ECR_C : R := 0.90.

Definition Potenial_ECR (p : R) : Mat2 * Mat2 :=
  let '(V01, Vder01) :=
    if Rlt_dec p 0 then (ECR_B * exp (ECR_C * p), ECR_B * ECR_C * exp (ECR_C * p))
    else if Req_dec_T p 0 then (ECR_B, ECR_B * ECR_C)
    else (ECR_B * (2 - exp (- ECR_C * p)), ECR_B * ECR_C * exp (- ECR_C * p)) in
  (mkMat2 ECR_A V01 V01 (- ECR_A), mkMat2 0 Vder01 Vder01 0).

(** ** Lemmas *)

(** Unfold a potential at a point and split its branches. *)
Ltac pot_branches :=
  unfold Potenial_SAC, Potenial_DAC, Potenial_ECR; py_branches; cbn [fst snd m00 m01 m10 m11].

Lemma exp_neg_lt_1 x : 0 < x -> exp (- x) < 1.
Proof. intros H; rewrite <- exp_0; apply exp_increasing; lra. Qed.

(** The value of an entry at 0 agrees with its one-sided formulas. *)
Ltac at_zero := pot_branches; rewrite ?Rmult_0_r, ?exp_0; ring.

(** One entry given by a single formula everywhere. *)
Ltac smooth_entry g l :=
  point_fun; apply (dlim_entry _ _ g l); [intro; pot_branches; reflexivity | intro; pot_branches; reflexivity
                              | intro; dlim].

(** One entry given by the [p > 0], [p == 0], [p < 0] branches. *)
Ltac piecewise_entry gp gn lp ln :=
  point_fun; apply (dlim_piecewise _ _ gp gn lp ln);
  [ intros ? ?; pot_branches; split; reflexivity | intros ? ?; pot_branches; split; reflexivity
  | at_zero | at_zero | at_zero | at_zero | intro; dlim | intro; dlim ].

(** The [m11] entry of [V] and [V_der] are minus the [m00] ones. *)
Ltac mirror_entry H :=
  match type of H with derivable_pt_lim ?g ?x ?l =>
    apply (dlim_scale_ext _ g x (-1) l); [| | exact H] end;
  [intro; pot_branches; reflexivity | pot_branches; ring].

Lemma Potenial_SAC_wf (p : R) :
  m2_symmetric (fst (Potenial_SAC p)) /\ m2_symmetric (snd (Potenial_SAC p)) /\
  m2_derivable_pt_lim (fun q => fst (Potenial_SAC q)) p (snd (Potenial_SAC p)).
Proof.
  assert (H00 : derivable_pt_lim (fun q => m00 (fst (Potenial_SAC q))) p
                                 (m00 (snd (Potenial_SAC p)))).
  { piecewise_entry (fun q => SAC_A * (1 - exp (- SAC_B * q)))
                    (fun q => - SAC_A * (1 - exp (SAC_B * q)))
                    (fun q => SAC_A * SAC_B * exp (- SAC_B * q))
                    (fun q => SAC_A * SAC_B * exp (SAC_B * q)). }
  unfold m2_symmetric, m2_derivable_pt_lim.
  split; [|split]; [pot_branches; reflexivity .. |].
  split; [exact H00 | split; [|split]]; [| | mirror_entry H00];
    smooth_entry (fun q => SAC_C * exp (- SAC_D * q ^ 2))
                 (fun q => -2 * q * SAC_C * SAC_D * exp (- SAC_D * q ^ 2)).
Qed.

(** C4.  For every position [p], the simple-avoided-crossing matrices [V]
    and [V_der] are symmetric and [V_der] is the exact derivative of [V] at
    [p], entry by entry, on the three branches [p > 0], [p == 0], [p < 0]. *)
Theorem Potenial_SAC_exact (p : R) :
  m2_symmetric (fst (Potenial_SAC p)) /\ m2_symmetric (snd (Potenial_SAC p)) /\
  m2_derivable_pt_lim (fun q => fst (Potenial_SAC q)) p (snd (Potenial_SAC p)).
Proof. apply Potenial_SAC_wf. Qed.

Lemma Potenial_DAC_wf (p : R) :
  m2_symmetric (fst (Potenial_DAC p)) /\ m2_symmetric (snd (Potenial_DAC p)) /\
  m2_derivable_pt_lim (fun q => fst (Potenial_DAC q)) p (snd (Potenial_DAC p)).
Proof.
  unfold m2_symmetric, m2_derivable_pt_lim.
  split; [|split]; [reflexivity .. |].
  split; [|split; [|split]].
  - smooth_entry (fun _ : R => 0) (fun _ : R => 0).
  - smooth_entry (fun q => DAC_C * exp (- DAC_D * q ^ 2))
                 (fun q => -2 * q * DAC_C * DAC_D * exp (- DAC_D * q ^ 2)).
  - smooth_entry (fun q => DAC_C * exp (- DAC_D * q ^ 2))
                 (fun q => -2 * q * DAC_C * DAC_D * exp (- DAC_D * q ^ 2)).
  - smooth_entry (fun q => - DAC_A * exp (- DAC_B * q ^ 2) + DAC_E0)
                 (fun q => DAC_A * DAC_B * 2 * q * exp (- DAC_B * q ^ 2)).
Qed.

(** C28.  For every position [p], the dual-avoided-crossing matrices [V] and
    [V_der] are symmetric and [V_der] is the exact derivative of [V] at [p]. *)
Theorem Potenial_DAC_exact (p : R) :
  m2_symmetric (fst (Potenial_DAC p)) /\ m2_symmetric (snd (Potenial_DAC p)) /\
  m2_derivable_pt_lim (fun q => fst (Potenial_DAC q)) p (snd (Potenial_DAC p)).
Proof. apply Potenial_DAC_wf. Qed.

Lemma Potenial_ECR_wf (p : R) :
  m2_symmetric (fst (Potenial_ECR p)) /\ m2_symmetric (snd (Potenial_ECR p)) /\
  m2_derivable_pt_lim (fun q => fst (Potenial_ECR q)) p (snd (Potenial_ECR p)).
Proof.
  assert (H01 : derivable_pt_lim (fun q => m01 (fst (Potenial_ECR q))) p
                                 (m01 (snd (Potenial_ECR p)))).
  { piecewise_entry (fun q => ECR_B * (2 - exp (- ECR_C * q)))
                    (fun q => ECR_B * exp (ECR_C * q))
                    (fun q => ECR_B * ECR_C * exp (- ECR_C * q))
                    (fun q => ECR_B * ECR_C * exp (ECR_C * q)). }
  unfold m2_symmetric, m2_derivable_pt_lim.
  split; [|split]; [pot_branches; reflexivity .. |].
  split; [|split; [exact H01 | split]].
  - smooth_entry (fun _ : R => ECR_A) (fun _ : R => 0).
  - apply (dlim_ext _ (fun q => m01 (fst (Potenial_ECR q)))); [intro; pot_branches; reflexivity |].
    replace (m10 (snd (Potenial_ECR p))) with (m01 (snd (Potenial_ECR p)))
      by (pot_branches; reflexivity); exact H01.
  - smooth_entry (fun _ : R => - ECR_A) (fun _ : R => 0).
Qed.

(** C27.  For every position [p], the extended-coupling matrices [V] and
    [V_der] are symmetric and [V_der] is the exact derivative of [V] at [p];
    in particular the [p == 0] branch ([V01 = B], [V_der01 = B*C]) is the
    common limit of the [p < 0] and [p > 0] formulas. *)
Theorem Potenial_ECR_exact (p : R) :
  m2_symmetric (fst (Potenial_ECR p)) /\ m2_symmetric (snd (Potenial_ECR p)) /\
  m2_derivable_pt_lim (fun q => fst (Potenial_ECR q)) p (snd (Potenial_ECR p)).
Proof. apply Potenial_ECR_wf. Qed.

Lemma Potenial_coupling_pos_wf (p : R) :
  0 < m01 (fst (Potenial_SAC p)) /\ 0 < m01 (fst (Potenial_DAC p)) /\
  0 < m01 (fst (Potenial_ECR p)).
Proof.
  pose proof (exp_pos (- SAC_D * p ^ 2)); pose proof (exp_pos (- DAC_D * p ^ 2)).
  pose proof (exp_pos (ECR_C * p)).
  assert (0 < p -> exp (- ECR_C * p) < 1)
    by (intros; rewrite Ropp_mult_distr_l_reverse; apply exp_neg_lt_1;
        unfold ECR_C; lra).
  unfold SAC_C, DAC_C, ECR_B in *.
  pot_branches; unfold SAC_C, DAC_C, ECR_B; repeat split; nra.
Qed.

(** The diabatic coupling [V[0,1]] of each of the three potentials is
    positive at every position, so the diabatic matrix is never diagonal. *)
Theorem Potenial_coupling_pos (p : R) :
  0 < m01 (fst (Potenial_SAC p)) /\ 0 < m01 (fst (Potenial_DAC p)) /\
  0 < m01 (fst (Potenial_ECR p)).
Proof. apply Potenial_coupling_pos_wf. Qed.

(** ** The three families as a closed enumeration

    The callers select a potential by a string ([NACsForce.Plot]) or by
    naming the function ([FSSH.py], [hopping_probability.py]); the spec's
    design notes (section 9) ask for a closed enumeration dispatched by one
    function.  [family] and [potential] are that enumeration, against which
    the string dispatch of [Plot] is proved equal in [Drivers]. *)
Inductive family := SAC | DAC | ECR.

Definition potential (f : family) : R -> Mat2 * Mat2 :=
  match f with SAC => Potenial_SAC | DAC => Potenial_DAC | ECR => Potenial_ECR end.

(** Every family: symmetric [V] and [V_der], [V_der] the derivative of [V],
    and a positive coupling. *)
Lemma potential_wf f p :
  m2_symmetric (fst (potential f p)) /\ m2_symmetric (snd (potential f p)) /\
  m2_derivable_pt_lim (fun q => fst (potential f q)) p (snd (potential f p)) /\
  0 < m01 (fst (potential f p)).
Proof.
  destruct (Potenial_coupling_pos_wf p) as (H1 & H2 & H3).
  destruct f; cbn [potential].
  - destruct (Potenial_SAC_wf p) as (A & B & C); split; [exact A | split; [exact B | split; [exact C | exact H1]]].
  - destruct (Potenial_DAC_wf p) as (A & B & C); split; [exact A | split; [exact B | split; [exact C | exact H2]]].
  - destruct (Potenial_ECR_wf p) as (A & B & C); split; [exact A | split; [exact B | split; [exact C | exact H3]]].
Qed.

End PotEig.
