(* ===== verification/Cplx.v ===== *)
(** * Complex numbers, complex 2-vectors and 2x2 complex matrices

    numpy's [complex128] is a pair of doubles; the model is a pair of reals
    [Cplx] with the field operations written out on components.  The
    electronic amplitude [cstate] of the sources is a [CVec2] (a numpy array
    of shape (2,)), the matrices [combine] (Fourth_RungeKutta.py) and [a]
    (hopping_probability.py) are [CMat2].  [cplx_ext] reduces an equation of
    these records to equations of reals. *)

From Stdlib Require Import Reals Lra.
From S2P Require Import Prelude.
Open Scope R_scope.

Record Cplx := mkC { re : R; im : R }.

Definition RtoC (r : R) : Cplx := mkC r 0.
Definition Ci : Cplx := mkC 0 1.
Definition Cadd (z w : Cplx) : Cplx := mkC (re z + re w) (im z + im w).
Definition Csub (z w : Cplx) : Cplx := mkC (re z - re w) (im z - im w).
Definition Copp (z : Cplx) : Cplx := mkC (- re z) (- im z).
Definition Cmul (z w : Cplx) : Cplx :=
  mkC (re z * re w - im z * im w) (re z * im w + im z * re w).
Definition Cconj (z : Cplx) : Cplx := mkC (re z) (- im z).
(** A complex number times a real one ([t_step * c_dot]) and divided by a
    real one ([K_1/2.0], [(...)/6]). *)
Definition CscaleR (r : R) (z : Cplx) : Cplx := mkC (r * re z) (r * im z).
Definition CdivR (z : Cplx) (r : R) : Cplx := mkC (re z / r) (im z / r).
(** [|z|^2]. *)
Definition Cnorm2 (z : Cplx) : R := re z * re z + im z * im z.

Declare Scope cplx_scope.
Delimit Scope cplx_scope with C.
Infix "+" := Cadd : cplx_scope.
Infix "-" := Csub : cplx_scope.
Infix "*" := Cmul : cplx_scope.
Notation "- z" := (Copp z) : cplx_scope.

(** ** Complex 2-vectors (the amplitude [cstate]) *)

Record CVec2 := mkCV { cv0 : Cplx; cv1 : Cplx }.

Definition cv_add (u v : CVec2) : CVec2 := mkCV (Cadd (cv0 u) (cv0 v)) (Cadd (cv1 u) (cv1 v)).
Definition cv_scaleR (r : R) (v : CVec2) : CVec2 := mkCV (CscaleR r (cv0 v)) (CscaleR r (cv1 v)).
Definition cv_divR (v : CVec2) (r : R) : CVec2 := mkCV (CdivR (cv0 v) r) (CdivR (cv1 v) r).
Definition cv_scale (z : Cplx) (v : CVec2) : CVec2 := mkCV (Cmul z (cv0 v)) (Cmul z (cv1 v)).
(** [|c_1|^2 + |c_2|^2]. *)
Definition cv_norm2 (v : CVec2) : R := Cnorm2 (cv0 v) + Cnorm2 (cv1 v).

(** ** 2x2 complex matrices *)

Record CMat2 := mkCM { cm00 : Cplx; cm01 : Cplx; cm10 : Cplx; cm11 : Cplx }.

(** [np.dot(v, M)] for a vector [v] of shape (2,): the row vector [v] times [M]. *)
Definition cv_dot_cm (v : CVec2) (M : CMat2) : CVec2 :=
  mkCV (Cadd (Cmul (cv0 v) (cm00 M)) (Cmul (cv1 v) (cm10 M)))
       (Cadd (Cmul (cv0 v) (cm01 M)) (Cmul (cv1 v) (cm11 M))).

(** The outer product [c^T . conj(c)]: entry [(k,j)] is [c_k * conj(c_j)]. *)
Definition cv_outer_conj (v : CVec2) : CMat2 :=
  mkCM (Cmul (cv0 v) (Cconj (cv0 v))) (Cmul (cv0 v) (Cconj (cv1 v)))
       (Cmul (cv1 v) (Cconj (cv0 v))) (Cmul (cv1 v) (Cconj (cv1 v))).

Definition cm_conj (M : CMat2) : CMat2 :=
  mkCM (Cconj (cm00 M)) (Cconj (cm01 M)) (Cconj (cm10 M)) (Cconj (cm11 M)).

(** [np.multiply(M, A)] of a complex and a real matrix (entrywise). *)
Definition cm_mul_elem (M : CMat2) (A : Mat2) : CMat2 :=
  mkCM (Cmul (cm00 M) (RtoC (m00 A))) (Cmul (cm01 M) (RtoC (m01 A)))
       (Cmul (cm10 M) (RtoC (m10 A))) (Cmul (cm11 M) (RtoC (m11 A))).

(** [.real] and [.imag] of a complex matrix. *)
Definition cm_re (M : CMat2) : Mat2 := mkMat2 (re (cm00 M)) (re (cm01 M)) (re (cm10 M)) (re (cm11 M)).
Definition cm_im (M : CMat2) : Mat2 := mkMat2 (im (cm00 M)) (im (cm01 M)) (im (cm10 M)) (im (cm11 M)).

(** ** Extensionality *)

Lemma Cplx_ext (z w : Cplx) : re z = re w -> im z = im w -> z = w.
Proof. destruct z, w; simpl; intros -> ->; reflexivity. Qed.

Lemma CVec2_ext (u v : CVec2) : cv0 u = cv0 v -> cv1 u = cv1 v -> u = v.
Proof. destruct u, v; simpl; intros -> ->; reflexivity. Qed.

(** Reduce an equation of vectors or complex numbers to real equations on
    the four (or two) components. *)
Ltac cplx_ext :=
  repeat first [ apply CVec2_ext | apply Cplx_ext ];
  cbn [re im cv0 cv1 cm00 cm01 cm10 cm11 RtoC Ci Cadd Csub Copp Cmul Cconj CscaleR CdivR
       cv_add cv_scaleR cv_divR cv_scale cv_dot_cm].

Lemma Cnorm2_nonneg z : 0 <= Cnorm2 z.
Proof. unfold Cnorm2; nra. Qed.

(** [|z|^2 = 0] only at [z = 0]. *)
Lemma Cnorm2_zero z : Cnorm2 z = 0 -> z = mkC 0 0.
Proof. unfold Cnorm2; intros H; apply Cplx_ext; simpl; nra. Qed.

(** [z * conj z] is the real number [|z|^2]. *)
Lemma Cmul_conj_self z : Cmul z (Cconj z) = RtoC (Cnorm2 z).
Proof. unfold Cnorm2; cplx_ext; ring. Qed.

(** Lagrange's identity for two complex pairs. *)
Lemma Cnorm2_lagrange a b x y :
  (Cnorm2 a + Cnorm2 b) * (Cnorm2 x + Cnorm2 y) =
  Cnorm2 (Cadd (Cmul a x) (Cmul b y)) + Cnorm2 (Csub (Cmul a (Cconj y)) (Cmul b (Cconj x))).
Proof. unfold Cnorm2; cbn; ring. Qed.

(** Cauchy-Schwarz: [|a x + b y|^2 <= (|a|^2 + |b|^2) (|x|^2 + |y|^2)]. *)
Lemma Cnorm2_cauchy_schwarz a b x y :
  Cnorm2 (Cadd (Cmul a x) (Cmul b y)) <= (Cnorm2 a + Cnorm2 b) * (Cnorm2 x + Cnorm2 y).
Proof. rewrite Cnorm2_lagrange; pose proof (Cnorm2_nonneg (Csub (Cmul a (Cconj y)) (Cmul b (Cconj x)))); lra. Qed.

Lemma cv_norm2_nonneg v : 0 <= cv_norm2 v.
Proof. unfold cv_norm2; pose proof (Cnorm2_nonneg (cv0 v)); pose proof (Cnorm2_nonneg (cv1 v)); lra. Qed.

(** Multiplying by a number of modulus one keeps the norm. *)
Lemma cv_norm2_scale_unit z v : Cnorm2 z = 1 -> cv_norm2 (cv_scale z v) = cv_norm2 v.
Proof.
  unfold cv_norm2, Cnorm2; intros Hz; cbn.
  transitivity ((re z * re z + im z * im z) *
                (re (cv0 v) * re (cv0 v) + im (cv0 v) * im (cv0 v) +
                 (re (cv1 v) * re (cv1 v) + im (cv1 v) * im (cv1 v)))); [ring | rewrite Hz; ring].
Qed.

#[export] Hint Resolve Cnorm2_nonneg cv_norm2_nonneg : fssh.
#[export] Hint Rewrite Cmul_conj_self : fssh_rw.
