(* ===== verification/Eigh.v ===== *)
(** * The contract of [numpy.linalg.eigh] on 2x2 symmetric matrices

    [Calc_dij_force] (NACsForce.py, line 36) calls
    [eig, vector = np.linalg.eigh(V)].  numpy documents the result as the
    eigenvalues in ascending order and a matrix whose columns are orthonormal
    eigenvectors; which of the two signs of each eigenvector LAPACK returns is
    not specified.  [Class Eigh] states exactly this contract, so that the
    theorems of [NACsForce] hold for every implementation.

    [eigh_closed] is a closed-form implementation (eigenvalues
    [m -+ sqrt(del^2 + b^2)], eigenvectors [(-b, del + r)] and [(del + r, b)]
    normalised), and [eigh_rotation] the same with the second eigenvector's
    sign flipped.  Both discharge the contract: the first returns a symmetric
    (reflection) matrix, the second a rotation.  Conversely, when the
    coupling [V[1,0]] does not vanish, the contract determines [eigh] up to
    the sign of each eigenvector column ([eigh_up_to_sign], from the first
    row of [(V - w I) u = 0] and the unit norm, [eigvec_up_to_sign]). *)

From Stdlib Require Import Reals Lra.
From S2P Require Import Prelude.
Open Scope R_scope.

Class Eigh := {
  eigh : Mat2 -> (R * R) * Mat2;
  eigh_ascending : forall V, m2_symmetric V -> fst (fst (eigh V)) <= snd (fst (eigh V));
  eigh_orthonormal : forall V, m2_symmetric V -> (snd (eigh V)) ᵀ ⋅ snd (eigh V) = m2_id;
  eigh_spectral : forall V, m2_symmetric V ->
    V ⋅ snd (eigh V) = snd (eigh V) ⋅ m2_diag (fst (fst (eigh V))) (snd (fst (eigh V)))
}.

(** ** The closed form *)

Definition eigh_closed (V : Mat2) : (R * R) * Mat2 :=
  let a := m00 V in
  let b := m10 V in
  let d := m11 V in
  let m := (a + d) / 2 in
  let del := (a - d) / 2 in
  let r := sqrt (del ^ 2 + b ^ 2) in
  let s := del + r in
  let n := sqrt (b ^ 2 + s ^ 2) in
  if Req_dec_T n 0 then ((m - r, m + r), m2_id)
  else ((m - r, m + r), mkMat2 (- b / n) (s / n) (s / n) (b / n)).

(** The second eigenvector with the opposite sign. *)
Definition eigh_rotation (V : Mat2) : (R * R) * Mat2 :=
  let '(w, U) := eigh_closed V in (w, mkMat2 (m00 U) (- m01 U) (m10 U) (- m11 U)).

(** The facts about the square roots that every law of [eigh_closed] uses,
    after the symmetric [V] is written [[m + del, b], [b, m - del]]. *)
Lemma eigh_closed_facts (a b d : R) :
  let del := (a - d) / 2 in
  let r := sqrt (del ^ 2 + b ^ 2) in
  let n := sqrt (b ^ 2 + (del + r) ^ 2) in
  a = (a + d) / 2 + del /\ d = (a + d) / 2 - del /\ 0 <= r /\
  r * r = del ^ 2 + b ^ 2 /\ n * n = b ^ 2 + (del + r) ^ 2.
Proof.
  intros del r n; repeat split; unfold del; try field; [apply sqrt_pos | |];
    apply sqrt_sqrt, Rplus_le_le_0_compat; apply pow2_ge_0.
Qed.

(** Unfold [eigh_closed] on a symmetric matrix and name its quantities. *)
Ltac eigh_closed_setup V HV :=
  destruct V as [a c b d]; unfold m2_symmetric in HV; cbn in HV; subst c;
  unfold eigh_closed; cbn [m00 m01 m10 m11];
  destruct (eigh_closed_facts a b d) as (Ha & Hd & Hr0 & Hr & Hn);
  set (del := (a - d) / 2) in *; set (m := (a + d) / 2) in *;
  set (r := sqrt (del ^ 2 + b ^ 2)) in *; set (n := sqrt (b ^ 2 + (del + r) ^ 2)) in *;
  clearbody del m r n; subst a d.

(** In the degenerate branch ([n = 0]) the matrix is already diagonal. *)
Lemma eigh_closed_degenerate b del r n :
  n * n = b ^ 2 + (del + r) ^ 2 -> n = 0 -> b = 0 /\ del + r = 0.
Proof.
  intros Hn ->; pose proof (pow2_ge_0 b); pose proof (pow2_ge_0 (del + r)).
  split; apply Rsqr_eq_0; unfold Rsqr; lra.
Qed.

Lemma eigh_closed_spectral V : m2_symmetric V ->
  V ⋅ snd (eigh_closed V) = snd (eigh_closed V) ⋅ m2_diag (fst (fst (eigh_closed V)))
                                                        (snd (fst (eigh_closed V))).
Proof.
  intros HV; eigh_closed_setup V HV.
  destruct (Req_dec_T n 0) as [Hn0 | Hn0]; cbn [fst snd].
  - destruct (eigh_closed_degenerate b del r n Hn Hn0) as [-> Hs].
    mat2_ext; lra.
  - set (k := / n); unfold Rdiv; fold k; mat2_ext.
    + ring.
    + lincomb Hr (- k).
    + lincomb Hr k.
    + ring.
Qed.

Lemma eigh_closed_orthonormal V : m2_symmetric V ->
  (snd (eigh_closed V)) ᵀ ⋅ snd (eigh_closed V) = m2_id.
Proof.
  intros HV; eigh_closed_setup V HV.
  destruct (Req_dec_T n 0) as [Hn0 | Hn0]; cbn [fst snd].
  - mat2_ext; ring.
  - assert (Hk : n * / n = 1) by (apply Rinv_r; exact Hn0).
    set (k := / n) in *; unfold Rdiv; fold k; mat2_ext; [| ring | ring |];
      lincomb2 Hn (- (k * k)) Hk (n * k + 1).
Qed.

Lemma eigh_closed_ascending V : fst (fst (eigh_closed V)) <= snd (fst (eigh_closed V)).
Proof.
  unfold eigh_closed; destruct (Req_dec_T _ 0); cbn [fst snd];
    pose proof (sqrt_pos (((m00 V - m11 V) / 2) ^ 2 + m10 V ^ 2)); lra.
Qed.

#[export] Instance EighClosed : Eigh :=
  {| eigh := eigh_closed;
     eigh_ascending := fun V _ => eigh_closed_ascending V;
     eigh_orthonormal := eigh_closed_orthonormal;
     eigh_spectral := eigh_closed_spectral |}.

(** ** The other sign convention *)

(** Flipping the sign of an eigenvector column keeps every law. *)
Definition flip_col1 (U : Mat2) : Mat2 := mkMat2 (m00 U) (- m01 U) (m10 U) (- m11 U).

Lemma flip_col1_spectral V U e0 e1 :
  V ⋅ U = U ⋅ m2_diag e0 e1 -> V ⋅ flip_col1 U = flip_col1 U ⋅ m2_diag e0 e1.
Proof.
  destruct V, U; unfold flip_col1; cbn; intros H; injection H as H1 H2 H3 H4.
  mat2_ext; nra.
Qed.

Lemma flip_col1_orthonormal U : U ᵀ ⋅ U = m2_id -> (flip_col1 U) ᵀ ⋅ flip_col1 U = m2_id.
Proof.
  destruct U; unfold flip_col1; cbn; intros H; injection H as H1 H2 H3 H4.
  mat2_ext; nra.
Qed.

Lemma eigh_rotation_closed V : eigh_rotation V = (fst (eigh_closed V), flip_col1 (snd (eigh_closed V))).
Proof. unfold eigh_rotation; destruct (eigh_closed V); reflexivity. Qed.

(** numpy's contract also allows the eigenvector matrix of [eigh_rotation],
    a rotation ([det = 1]) where [eigh_closed] returns a reflection. *)
Definition EighRotation : Eigh :=
  {| eigh := eigh_rotation;
     eigh_ascending := fun V _ => ltac:(rewrite eigh_rotation_closed; apply eigh_closed_ascending);
     eigh_orthonormal := fun V HV => ltac:(rewrite eigh_rotation_closed;
                                           apply flip_col1_orthonormal, eigh_closed_orthonormal, HV);
     eigh_spectral := fun V HV => ltac:(rewrite eigh_rotation_closed;
                                        apply flip_col1_spectral, eigh_closed_spectral, HV) |}.

(** The closed form returns a symmetric eigenvector matrix. *)
Lemma eigh_closed_U_symmetric V : m2_symmetric (snd (eigh_closed V)).
Proof. unfold eigh_closed, m2_symmetric; destruct (Req_dec_T _ 0); reflexivity. Qed.

(** The energies of [eigh_closed], whichever branch it takes. *)
Lemma eigh_closed_eigs V :
  fst (eigh_closed V) =
  ((m00 V + m11 V) / 2 - sqrt (((m00 V - m11 V) / 2) ^ 2 + m10 V ^ 2),
   (m00 V + m11 V) / 2 + sqrt (((m00 V - m11 V) / 2) ^ 2 + m10 V ^ 2)).
Proof. unfold eigh_closed; destruct (Req_dec_T _ 0); reflexivity. Qed.

(** A square root known in closed form. *)
Lemma sqrt_of_sq x y : 0 <= x -> x * x = y -> sqrt y = x.
Proof. intros Hx <-; apply sqrt_square, Hx. Qed.

(** Two unit solutions of the first row of [(V - w I) u = 0] with a nonzero
    coupling [b] differ by a sign: [u1 = (w - a) u0 / b] fixes the ratio,
    and [u0 <> 0] because [u] has norm one. *)
Lemma eigvec_up_to_sign a b w x y x' y' :
  b <> 0 -> a * x + b * y = w * x -> a * x' + b * y' = w * x' ->
  x * x + y * y = 1 -> x' * x' + y' * y' = 1 ->
  exists s, s * s = 1 /\ x' = s * x /\ y' = s * y.
Proof.
  intros Hb H1 H2 Hn Hn'.
  assert (Hy : y = (w - a) * x / b) by (field_simplify_eq; [lra | exact Hb]).
  assert (Hy' : y' = (w - a) * x' / b) by (field_simplify_eq; [lra | exact Hb]).
  assert (Hx : x <> 0) by (intros ->; rewrite Hy in Hn; unfold Rdiv in Hn; lra).
  set (s := x' / x); assert (Hx' : x' = s * x) by (unfold s; field; exact Hx).
  assert (Hys : y' = s * y) by (rewrite Hy', Hy, Hx'; field; exact Hb).
  exists s; split; [| split; assumption].
  rewrite Hx', Hys in Hn'; lincomb2 Hn' 1 Hn (- (s * s)).
Qed.

(** ** Consequences of the contract *)

Section EighFacts.

Context {E : Eigh}.

  (** A symmetric matrix with a nonzero off-diagonal entry has two distinct
      eigenvalues: were they equal to [l], [V U = l U] with [U] invertible
      would force [V = l I]. *)
Lemma eigh_gap_pos V :
    m2_symmetric V -> m01 V <> 0 -> fst (fst (eigh V)) < snd (fst (eigh V)).
  Proof.
    intros HV H01.
    pose proof (eigh_ascending V HV) as Hle; pose proof (eigh_spectral V HV) as Hs.
    pose proof (m2_orth_det _ (eigh_orthonormal V HV)) as Hdet.
    destruct (eigh V) as [[e0 e1] U]; cbn [fst snd] in *.
    destruct (Rle_lt_or_eq_dec _ _ Hle) as [Hlt | <-]; [exact Hlt | exfalso].
    destruct V as [a c b d], U as [u0 u1 u2 u3]; unfold m2_det in Hdet; cbn in *.
    injection Hs as E1 E2 _ _.
    apply H01, (Rmult_eq_reg_r (u1 * u2 - u0 * u3)); [| contradict Hdet; lra].
    lincomb2 E1 u1 E2 (- u0).
  Qed.

  (** The eigenvector matrix diagonalises [V]: [U^T V U = diag(w)], and
      [V = U diag(w) U^T]. *)
Lemma eigh_diagonalises V :
    m2_symmetric V ->
    let U := snd (eigh V) in
    let D := m2_diag (fst (fst (eigh V))) (snd (fst (eigh V))) in
    U ᵀ ⋅ V ⋅ U = D /\ V = U ⋅ D ⋅ U ᵀ.
  Proof.
    intros HV U D; pose proof (eigh_orthonormal V HV) as HO; pose proof (eigh_spectral V HV) as HS.
    fold U D in HO, HS; split.
    - rewrite <- m2_mul_assoc, HS, m2_mul_assoc, HO; apply m2_mul_id_l.
    - rewrite <- HS, <- m2_mul_assoc, (m2_orth_rows _ HO); symmetry; apply m2_mul_id_r.
  Qed.

  (** Trace and determinant of [V] are those of [diag(w)]. *)
Lemma eigh_trace_det V :
    m2_symmetric V ->
    fst (fst (eigh V)) + snd (fst (eigh V)) = m00 V + m11 V /\
    fst (fst (eigh V)) * snd (fst (eigh V)) = m00 V * m11 V - m10 V * m10 V.
  Proof.
    intros HV; destruct (eigh_diagonalises V HV) as [HD HV'].
    pose proof (eigh_orthonormal V HV) as HO.
    set (U := snd (eigh V)) in *; set (w := fst (eigh V)) in *.
    split.
    - change (m2_trace (m2_diag (fst w) (snd w)) = m2_trace V).
      rewrite <- HD, <- m2_mul_assoc, m2_trace_comm, <- m2_mul_assoc, (m2_orth_rows _ HO), m2_mul_id_r.
      reflexivity.
    - replace (m00 V * m11 V - m10 V * m10 V) with (m2_det V) by (unfold m2_det; rewrite HV; ring).
      replace (fst w * snd w) with (m2_det (m2_diag (fst w) (snd w))) by (unfold m2_det; cbn; ring).
      rewrite <- HD, !m2_det_mul, m2_det_tr.
      pose proof (f_equal m2_det HO) as H1; rewrite m2_det_mul, m2_det_tr in H1.
      replace (m2_det m2_id) with 1 in H1 by (unfold m2_det; cbn; ring).
      transitivity (m2_det V * (m2_det U * m2_det U)); [ring | rewrite H1; ring].
  Qed.

  (** The squared energies sum to [||V||_F^2]. *)
Lemma eigh_energy_sq V :
    m2_symmetric V -> fst (fst (eigh V)) ^ 2 + snd (fst (eigh V)) ^ 2 = m2_frob2 V.
  Proof.
    intros HV; destruct (eigh_trace_det V HV) as [Ht Hd]; unfold m2_frob2; rewrite HV.
    replace (fst (fst (eigh V)) ^ 2 + snd (fst (eigh V)) ^ 2)
      with ((fst (fst (eigh V)) + snd (fst (eigh V))) ^ 2 - 2 * (fst (fst (eigh V)) * snd (fst (eigh V))))
      by ring.
    rewrite Ht, Hd; ring.
  Qed.

  (** The squared gap is [(a - d)^2 + 4 b^2]. *)
Lemma eigh_gap_sq V :
    m2_symmetric V ->
    (fst (fst (eigh V)) - snd (fst (eigh V))) ^ 2 = (m00 V - m11 V) ^ 2 + 4 * m10 V ^ 2.
  Proof.
    intros HV; destruct (eigh_trace_det V HV) as [Ht Hd].
    replace ((fst (fst (eigh V)) - snd (fst (eigh V))) ^ 2)
      with ((fst (fst (eigh V)) + snd (fst (eigh V))) ^ 2 - 4 * (fst (fst (eigh V)) * snd (fst (eigh V))))
      by ring.
    rewrite Ht, Hd; ring.
  Qed.

  (** The eigenvalues are determined by the contract: they are those of the
      closed form. *)
Lemma eigh_eigenvalues V : m2_symmetric V -> fst (eigh V) = fst (eigh_closed V).
  Proof.
    intros HV; rewrite eigh_closed_eigs.
    destruct (eigh_trace_det V HV) as [Ht Hd]; pose proof (eigh_ascending V HV) as Ha.
    destruct (eigh V) as [[w0 w1] U]; cbn [fst snd] in *.
    replace (sqrt (((m00 V - m11 V) / 2) ^ 2 + m10 V ^ 2)) with ((w1 - w0) / 2).
    - f_equal; lra.
    - symmetry; apply sqrt_of_sq; [lra |].
      lincomb2 Ht ((w0 + w1 + m00 V + m11 V) / 4) Hd (-1).
  Qed.

  (** The four scalar equations of the contract that pin down a column:
      the first row of [V U = U diag(w)] and the unit norm, per column. *)
Lemma eigh_column_eqs V :
    m2_symmetric V ->
    let U := snd (eigh V) in let w := fst (eigh V) in
    m00 V * m00 U + m10 V * m10 U = fst w * m00 U /\
    m00 V * m01 U + m10 V * m11 U = snd w * m01 U /\
    m00 U * m00 U + m10 U * m10 U = 1 /\ m01 U * m01 U + m11 U * m11 U = 1.
  Proof.
    intros HV U w; pose proof (eigh_spectral V HV) as Hs; pose proof (eigh_orthonormal V HV) as Ho.
    fold U w in Hs, Ho; destruct U as [u00 u01 u10 u11], V as [a b c d]; unfold m2_symmetric in HV;
      cbn in HV, Hs, Ho |- *; subst b.
    injection Hs as Hs0 Hs1 _ _; injection Ho as Ho0 _ _ Ho3.
    repeat split; [rewrite Hs0 | rewrite Hs1 | rewrite Ho0 | rewrite Ho3]; ring.
  Qed.



End EighFacts.

(** With a nonzero coupling no eigenvector is a coordinate axis: the
    lower eigenvector has a nonzero second component.  Otherwise row 1 of
    [V U = U diag(w)] gives [V[1,0] U[0,0] = 0], and column 0 would vanish. *)
Lemma eigh_offdiag_nz `{Eigh} V :
  m2_symmetric V -> m10 V <> 0 -> m10 (snd (eigh V)) <> 0.
Proof.
  intros HV Hb H0; pose proof (eigh_spectral V HV) as Hs.
  destruct (eigh_column_eqs V HV) as (_ & _ & Hn & _).
  destruct (eigh V) as [w [u00 u01 u10 u11]]; cbn in H0, Hn, Hs; subst u10.
  injection Hs as _ _ Hs _.
  assert (Hu : u00 = 0) by (apply (Rmult_integral_contrapositive_currified (m10 V) u00) in Hb; nra).
  subst u00; lra.
Qed.

(** Every implementation returns the eigenvectors of the closed form up
    to the sign of each column, when the coupling does not vanish. *)
Lemma eigh_up_to_sign `{Eigh} V :
  m2_symmetric V -> m10 V <> 0 ->
  exists s0 s1, s0 * s0 = 1 /\ s1 * s1 = 1 /\
    snd (eigh V) = snd (eigh_closed V) ⋅ m2_diag s0 s1.
Proof.
  intros HV Hb; pose proof (eigh_eigenvalues V HV) as Hw.
  destruct (eigh_column_eqs V HV) as (E0 & E1 & N0 & N1).
  destruct (@eigh_column_eqs EighClosed V HV) as (C0 & C1 & M0 & M1); cbn [eigh EighClosed] in C0, C1, M0, M1.
  rewrite Hw in E0, E1.
  destruct (eigvec_up_to_sign _ _ _ _ _ _ _ Hb C0 E0 M0 N0) as (s0 & Hs0 & Hx0 & Hy0).
  destruct (eigvec_up_to_sign _ _ _ _ _ _ _ Hb C1 E1 M1 N1) as (s1 & Hs1 & Hx1 & Hy1).
  exists s0, s1; split; [exact Hs0 | split; [exact Hs1 |]].
  apply Mat2_ext; cbn; rewrite ?Hx0, ?Hy0, ?Hx1, ?Hy1; ring.
Qed.

(** [eigh_closed] at a matrix whose square roots are known. *)
Lemma eigh_closed_explicit a b d r n :
  0 <= r -> r * r = ((a - d) / 2) ^ 2 + b ^ 2 ->
  0 < n -> n * n = b ^ 2 + ((a - d) / 2 + r) ^ 2 ->
  eigh_closed (mkMat2 a b b d) =
  (((a + d) / 2 - r, (a + d) / 2 + r),
   mkMat2 (- b / n) (((a - d) / 2 + r) / n) (((a - d) / 2 + r) / n) (b / n)).
Proof.
  intros Hr0 Hr Hn0 Hn; unfold eigh_closed; cbn [m00 m10 m11].
  rewrite (sqrt_of_sq r _ Hr0 Hr), (sqrt_of_sq n _ (Rlt_le _ _ Hn0) Hn).
  destruct (Req_dec_T n 0); [lra | reflexivity].
Qed.

(** Refinement: for every symmetric [V], the closed form [eigh_closed]
    meets numpy's contract for [eigh] (ascending eigenvalues, orthonormal
    eigenvector columns, [V U = U diag(w)]), and its eigenvector matrix is
    symmetric. *)
Theorem eigh_closed_contract V :
  m2_symmetric V ->
  fst (fst (eigh_closed V)) <= snd (fst (eigh_closed V)) /\
  (snd (eigh_closed V)) ᵀ ⋅ snd (eigh_closed V) = m2_id /\
  V ⋅ snd (eigh_closed V) = snd (eigh_closed V) ⋅ m2_diag (fst (fst (eigh_closed V)))
                                                          (snd (fst (eigh_closed V))) /\
  m2_symmetric (snd (eigh_closed V)).
Proof.
  intros HV; repeat split;
    [apply eigh_closed_ascending | apply eigh_closed_orthonormal, HV
    | apply eigh_closed_spectral, HV | apply eigh_closed_U_symmetric].
Qed.

Lemma eigh_closed_contract_witness :
  let V := mkMat2 (7 / 25) (-24 / 25) (-24 / 25) (-7 / 25) in
  m2_symmetric V /\
  fst (fst (eigh_closed V)) <= snd (fst (eigh_closed V)) /\
  (snd (eigh_closed V)) ᵀ ⋅ snd (eigh_closed V) = m2_id /\
  V ⋅ snd (eigh_closed V) = snd (eigh_closed V) ⋅ m2_diag (fst (fst (eigh_closed V)))
                                                          (snd (fst (eigh_closed V))) /\
  m2_symmetric (snd (eigh_closed V)).
Proof.
  intros V; assert (H : m2_symmetric V) by reflexivity.
  split; [exact H | apply (eigh_closed_contract V H)].
Defined.
