(* ===== verification/NACsForce.v ===== *)
(** * Adiabatic energies, coupling and forces: [src/FSSH.py/NACsForce.py]

    [Calc_dij_force V V_der] (lines 26-53) diagonalises [V] with
    [numpy.linalg.eigh], forms [MatrixDot = vector . V_der . vector], and
    returns the eigenvalues [eig], the coupling
    [dij = [[0, d], [-d, 0]]] with [d = MatrixDot[0,1] / (eig[0] - eig[1])]
    and the forces [-MatrixDot[0,0]], [-MatrixDot[1,1]].  The model is
    stated against any [Eigh] instance.

    The theorems: the coupling is antisymmetric with zero diagonal and the
    energies ascend; along every potential of [PotEig] the gap
    [eig[0] - eig[1]] is never zero; with the eigenvector matrix of
    [eigh_closed] (a reflection, [U^T = U]) [MatrixDot] is the adiabatic
    matrix [U^T . V_der . U] of the spec, so the forces are the
    Hellmann-Feynman forces [-<u_k|V_der|u_k>]; with the equally valid
    rotation of [EighRotation] they are not: the code multiplies by [U]
    where the spec multiplies by [U^T].  Since every implementation is
    [eigh_closed] up to column signs, and a sign common to both columns
    cancels in [U . V_der . U] ([Calc_dij_force_sign]), these two are the
    only results [Calc_dij_force] can return. *)

From Stdlib Require Import Reals Lra Lia.
From S2P Require Import Prelude PotEig Eigh.
Open Scope R_scope.

Section CalcDijForce.

Context {E : Eigh}.

Definition Calc_dij_force (V V_der : Mat2) : (R * R) * Mat2 * (R * R) :=
    let '(eig, vector) := eigh V in
    let gap := fst eig - snd eig in
    let MatrixDot := vector ⋅ V_der ⋅ vector in
    let d01 := m01 MatrixDot / gap in
    let dij := mkMat2 0 d01 (-1 * d01) 0 in
    let force := (-1 * m00 MatrixDot, -1 * m11 MatrixDot) in
    (eig, dij, force).

  (** The three outputs, named as in the source. *)
Definition cdf_eig (V V_der : Mat2) : R * R := fst (fst (Calc_dij_force V V_der)).
Definition cdf_dij (V V_der : Mat2) : Mat2 := snd (fst (Calc_dij_force V V_der)).
Definition cdf_force (V V_der : Mat2) : R * R := snd (Calc_dij_force V V_der).

Lemma cdf_eig_eigh V V_der : cdf_eig V V_der = fst (eigh V).
  Proof. unfold cdf_eig, Calc_dij_force; destruct (eigh V); reflexivity. Qed.

  (** C26.  For a symmetric [V], [Calc_dij_force] returns ascending energies
      and a coupling matrix with zero diagonal and [dij[1,0] = -dij[0,1]]. *)
Theorem Calc_dij_force_shape V V_der :
    m2_symmetric V ->
    fst (cdf_eig V V_der) <= snd (cdf_eig V V_der) /\
    m00 (cdf_dij V V_der) = 0 /\ m11 (cdf_dij V V_der) = 0 /\
    m10 (cdf_dij V V_der) = - m01 (cdf_dij V V_der).
  Proof.
    intros HV; rewrite cdf_eig_eigh; split; [apply eigh_ascending, HV |].
    unfold cdf_dij, Calc_dij_force; destruct (eigh V); cbn; repeat split; ring.
  Qed.

  (** For a symmetric [V] with nonzero coupling, the gap is nonzero. *)
Lemma Calc_dij_force_gap V V_der :
    m2_symmetric V -> m01 V <> 0 -> fst (cdf_eig V V_der) < snd (cdf_eig V V_der).
  Proof. intros HV H01; rewrite cdf_eig_eigh; apply eigh_gap_pos; assumption. Qed.

  (** For every implementation of [eigh], each force is at most
      [||V_der||_F] in absolute value, and so is the coupling times the
      gap. *)
Lemma Calc_dij_force_bounds V V_der :
    m2_symmetric V ->
    fst (cdf_force V V_der) ^ 2 <= m2_frob2 V_der /\ snd (cdf_force V V_der) ^ 2 <= m2_frob2 V_der /\
    (m01 (cdf_dij V V_der) * (fst (cdf_eig V V_der) - snd (cdf_eig V V_der))) ^ 2 <= m2_frob2 V_der.
  Proof.
    intros HV; pose proof (m2_sandwich_bound _ V_der (eigh_orthonormal V HV)) as B.
    revert B; unfold cdf_force, cdf_dij, cdf_eig, Calc_dij_force.
    destruct (eigh V) as [eig U]; cbn [fst snd m01]; intros (B0 & B1 & B2).
    split; [lra | split; [lra |]].
    destruct (Req_dec_T (fst eig - snd eig) 0) as [Hg | Hg].
    - rewrite Hg, Rmult_0_r, pow_i by lia; auto with fssh.
    - unfold Rdiv; rewrite Rmult_assoc, Rinv_l, Rmult_1_r by exact Hg; exact B1.
  Qed.

  (** For a symmetric [V] and every implementation of [eigh] (so
      whether [MatrixDot] is [U V_der U] or [U^T V_der U]), each force is
      at most [||V_der||_F] in absolute value, and the coupling times the
      gap is at most [||V_der||_F]: the coupling can only grow large where
      the gap closes. *)
Theorem Calc_dij_force_norm_bounds V V_der :
    m2_symmetric V ->
    fst (cdf_force V V_der) ^ 2 <= m2_frob2 V_der /\ snd (cdf_force V V_der) ^ 2 <= m2_frob2 V_der /\
    (m01 (cdf_dij V V_der) * (fst (cdf_eig V V_der) - snd (cdf_eig V V_der))) ^ 2 <= m2_frob2 V_der.
  Proof. apply Calc_dij_force_bounds. Qed.

  (** The coupling is antisymmetric for every input. *)
Lemma cdf_dij_antisym V V_der : m10 (cdf_dij V V_der) = - m01 (cdf_dij V V_der).
  Proof. unfold cdf_dij, Calc_dij_force; destruct (eigh V); cbn; ring. Qed.

End CalcDijForce.

Import PotEig.

(** C19.  At every position [p] and for each of the three potentials, the
    energies that [Calc_dij_force] computes from [V(p)] are strictly
    ordered, so the division by the gap [eig[0] - eig[1]] is never a
    division by zero. *)
Theorem Calc_dij_force_gap_potentials `{Eigh} (p : R) :
  let gap := fun VV : Mat2 * Mat2 =>
               fst (cdf_eig (fst VV) (snd VV)) - snd (cdf_eig (fst VV) (snd VV)) in
  gap (Potenial_SAC p) < 0 /\ gap (Potenial_DAC p) < 0 /\ gap (Potenial_ECR p) < 0.
Proof.
  intros gap; unfold gap.
  destruct (Potenial_coupling_pos_wf p) as (H1 & H2 & H3).
  destruct (Potenial_SAC_wf p) as [S1 _]; destruct (Potenial_DAC_wf p) as [S2 _];
    destruct (Potenial_ECR_wf p) as [S3 _].
  repeat split; apply Rlt_minus, Calc_dij_force_gap; try assumption; lra.
Qed.

(** ** Hellmann-Feynman forces and the transpose *)

(** The adiabatic matrix of the spec, [U^T . V_der . U]. *)
Definition adiabatic_matrix (U V_der : Mat2) : Mat2 := U ᵀ ⋅ V_der ⋅ U.

Lemma m2_tr_symmetric U : m2_symmetric U -> U ᵀ = U.
Proof. destruct U; unfold m2_symmetric; cbn; intros ->; reflexivity. Qed.

(** Whenever [eigh] returns a symmetric eigenvector matrix, [MatrixDot] is
    the adiabatic matrix. *)
Lemma Calc_dij_force_adiabatic `{Eigh} V V_der :
  m2_symmetric (snd (eigh V)) ->
  let M := adiabatic_matrix (snd (eigh V)) V_der in
  cdf_force V V_der = (-1 * m00 M, -1 * m11 M) /\
  m01 (cdf_dij V V_der) = m01 M / (fst (fst (eigh V)) - snd (fst (eigh V))).
Proof.
  intros HU M; unfold M, adiabatic_matrix; rewrite (m2_tr_symmetric _ HU).
  unfold cdf_force, cdf_dij, Calc_dij_force; destruct (eigh V); split; reflexivity.
Qed.

(** The Hellmann-Feynman forces of an eigenvector matrix [U]: minus the
    diagonal of the adiabatic matrix, as spec section 4.2 prescribes. *)
Definition hf_force (U V_der : Mat2) : R * R :=
  (-1 * m00 (adiabatic_matrix U V_der), -1 * m11 (adiabatic_matrix U V_der)).

(** If the code's forces agree with the Hellmann-Feynman forces for the
    two unit derivatives [E10] and [E11], the first column [u] of [U]
    satisfies [u0 (U01 - U10) = 0] and [u1 (U01 - U10) = 0]; since [u] has
    norm one, [U] is symmetric. *)
Lemma hf_force_forces_symmetric U :
  m00 U * m00 U + m10 U * m10 U = 1 ->
  -1 * m00 (U ⋅ mkMat2 0 0 1 0 ⋅ U) = fst (hf_force U (mkMat2 0 0 1 0)) ->
  -1 * m00 (U ⋅ mkMat2 0 0 0 1 ⋅ U) = fst (hf_force U (mkMat2 0 0 0 1)) ->
  m2_symmetric U.
Proof.
  destruct U as [a b c d]; unfold hf_force, adiabatic_matrix, m2_symmetric; cbn.
  intros Hn H1 H2.
  assert (E1 : a * (b - c) = 0) by lra. assert (E2 : c * (b - c) = 0) by lra.
  apply Rminus_diag_uniq; transitivity ((b - c) * (a * a + c * c)); [rewrite Hn; ring |].
  transitivity (a * (a * (b - c)) + c * (c * (b - c))); [ring | rewrite E1, E2; ring].
Qed.

(** C8.  For every implementation of numpy's [eigh] contract and every
    symmetric [V], [Calc_dij_force] returns the Hellmann-Feynman forces
    [-(U^T V_der U)[k,k]] of the eigenvectors [U] it received, for every
    [V_der], exactly when [U] is symmetric: the code's
    [MatrixDot = U . V_der . U] is the spec's [U^T . V_der . U] on the
    diagonal only for a symmetric eigenvector matrix. *)
Theorem Calc_dij_force_hellmann_feynman `{Eigh} V :
  m2_symmetric V ->
  (forall V_der, cdf_force V V_der = hf_force (snd (eigh V)) V_der) <-> m2_symmetric (snd (eigh V)).
Proof.
  intros HV; split.
  - intros Hf; destruct (eigh_column_eqs V HV) as (_ & _ & Hn & _).
    pose proof (Hf (mkMat2 0 0 1 0)) as H1; pose proof (Hf (mkMat2 0 0 0 1)) as H2.
    unfold cdf_force, Calc_dij_force in H1, H2; destruct (eigh V) as [w U]; cbn [snd] in *.
    apply hf_force_forces_symmetric; [exact Hn | exact (f_equal fst H1) | exact (f_equal fst H2)].
  - intros HU V_der; exact (proj1 (Calc_dij_force_adiabatic V V_der HU)).
Qed.

(** Round trip of the adiabatic transformation, for every
    implementation of [eigh] and every symmetric [V]: the energies
    [Calc_dij_force] returns, put back on the diagonal and rotated with the
    eigenvectors [eigh] returned, give back the diabatic [V] exactly, and the
    eigenvectors take [V] to that diagonal: [U diag(Eig) U^T = V] and
    [U^T V U = diag(Eig)]. *)
Theorem Calc_dij_force_roundtrip `{Eigh} V V_der :
  m2_symmetric V ->
  let U := snd (eigh V) in
  let w := cdf_eig V V_der in
  U ⋅ m2_diag (fst w) (snd w) ⋅ U ᵀ = V /\ U ᵀ ⋅ V ⋅ U = m2_diag (fst w) (snd w).
Proof.
  intros HV U w; unfold w; rewrite cdf_eig_eigh.
  destruct (eigh_diagonalises V HV) as [H1 H2]; split; [symmetry; exact H2 | exact H1].
Qed.

(** ** Conservative forces

    With [eigh_closed] and a coupling [b = V[1,0]] that does not vanish, the
    eigenvalues are [m -+ r] with [m = (a+d)/2], [del = (a-d)/2],
    [r = sqrt(del^2 + b^2)], and the eigenvector matrix is
    [[-b, s], [s, b]] / n with [s = del + r], [n = sqrt(b^2 + s^2)].  The
    diagonal of [U . V_der . U] is then [m' -+ (del*del' + b*b') / r], which
    is the derivative of [m -+ r]: the forces are minus the slopes of the
    adiabatic energies. *)

Lemma frac_eq a b c d : b <> 0 -> d <> 0 -> a * d = c * b -> a / b = c / d.
Proof.
  intros Hb Hd H; apply (Rmult_eq_reg_r (b * d)); [| apply Rmult_integral_contrapositive; auto].
  unfold Rdiv; replace (a * / b * (b * d)) with (a * d) by (field; exact Hb).
  replace (c * / d * (b * d)) with (c * b) by (field; exact Hd); exact H.
Qed.

(** The diagonal of [U . V_der . U] for the reflection of [eigh_closed]. *)
Lemma reflection_diagonal a' b' d' del b r n :
  r * r = del ^ 2 + b ^ 2 -> n * n = b ^ 2 + (del + r) ^ 2 -> 0 < r -> n <> 0 ->
  let U := mkMat2 (- b / n) ((del + r) / n) ((del + r) / n) (b / n) in
  let M := U ⋅ mkMat2 a' b' b' d' ⋅ U in
  m00 M = (a' + d') / 2 - (del * ((a' - d') / 2) + b * b') / r /\
  m11 M = (a' + d') / 2 + (del * ((a' - d') / 2) + b * b') / r.
Proof.
  intros Hr Hn Hr0 Hn0 U M; unfold M, U; cbn [m2_mul m00 m01 m10 m11]; split.
  - transitivity ((b * b * a' - 2 * b * (del + r) * b' + (del + r) * (del + r) * d') / (n * n));
      [field; exact Hn0 |].
    transitivity ((r * (a' + d') - del * (a' - d') - 2 * b * b') / (2 * r)); [| field; lra].
    apply frac_eq; [apply Rmult_integral_contrapositive; auto | lra |].
    rewrite Hn; lincomb Hr (r * (a' + d') - del * (a' - d') - 2 * b * b' - 2 * r * a').
  - transitivity (((del + r) * (del + r) * a' + 2 * b * (del + r) * b' + b * b * d') / (n * n));
      [field; exact Hn0 |].
    transitivity ((r * (a' + d') + del * (a' - d') + 2 * b * b') / (2 * r)); [| field; lra].
    apply frac_eq; [apply Rmult_integral_contrapositive; auto | lra |].
    rewrite Hn; lincomb Hr (r * (a' + d') + del * (a' - d') + 2 * b * b' - 2 * r * d').
Qed.

(** With a nonzero coupling, the eigenvector matrix is the reflection. *)
Lemma eigh_closed_reflection V :
  m10 V <> 0 ->
  let del := (m00 V - m11 V) / 2 in
  let r := sqrt (del ^ 2 + m10 V ^ 2) in
  let n := sqrt (m10 V ^ 2 + (del + r) ^ 2) in
  snd (eigh_closed V) = mkMat2 (- m10 V / n) ((del + r) / n) ((del + r) / n) (m10 V / n) /\
  r * r = del ^ 2 + m10 V ^ 2 /\ n * n = m10 V ^ 2 + (del + r) ^ 2 /\ 0 < r /\ n <> 0.
Proof.
  intros Hb del r n.
  destruct (eigh_closed_facts (m00 V) (m10 V) (m11 V)) as (_ & _ & _ & Hr & Hn); fold del r n in Hr, Hn.
  assert (Hn0 : n <> 0) by (intros H0; apply Hb, (eigh_closed_degenerate _ _ _ _ Hn H0)).
  assert (Hr0 : 0 < r).
  { apply sqrt_lt_R0; pose proof (pow2_ge_0 del); pose proof (Rsqr_pos_lt _ Hb).
    unfold Rsqr in *; lra. }
  repeat split; try assumption.
  unfold eigh_closed; fold del r n; destruct (Req_dec_T n 0); [contradiction | reflexivity].
Qed.

(** The forces of the closed form when the coupling does not vanish. *)
Lemma eigh_closed_force V V_der :
  m2_symmetric V_der -> m10 V <> 0 ->
  let del := (m00 V - m11 V) / 2 in
  let r := sqrt (del ^ 2 + m10 V ^ 2) in
  let X := del * ((m00 V_der - m11 V_der) / 2) + m10 V * m10 V_der in
  @cdf_force EighClosed V V_der =
  (-1 * ((m00 V_der + m11 V_der) / 2 - X / r), -1 * ((m00 V_der + m11 V_der) / 2 + X / r)).
Proof.
  intros HD Hb0 del r X.
  destruct (eigh_closed_reflection _ Hb0) as (HU & Hr & Hn & Hr0 & Hn0).
  destruct (reflection_diagonal (m00 V_der) (m10 V_der) (m11 V_der) _ _ _ _ Hr Hn Hr0 Hn0) as [M0 M1].
  assert (HF : @cdf_force EighClosed V V_der =
               (-1 * m00 (snd (eigh_closed V) ⋅ V_der ⋅ snd (eigh_closed V)),
                -1 * m11 (snd (eigh_closed V) ⋅ V_der ⋅ snd (eigh_closed V)))).
  { unfold cdf_force, Calc_dij_force; cbn [eigh EighClosed]; destruct (eigh_closed V); reflexivity. }
  assert (HD' : V_der = mkMat2 (m00 V_der) (m10 V_der) (m10 V_der) (m11 V_der))
    by (destruct V_der; unfold m2_symmetric in HD; cbn in *; rewrite HD; reflexivity).
  rewrite HF, HU, HD'; cbv zeta in M0, M1; rewrite M0, M1; reflexivity.
Qed.

(** For a path [f q = (V(q), V_der(q))] of symmetric matrices where
    [V_der(p)] is the derivative of [V] at [p] and the coupling [V(p)[1,0]]
    is nonzero, the forces [Calc_dij_force] computes at [p] are minus the
    derivatives at [p] of the energies it computes along the path. *)
Lemma eigh_closed_conservative (f : R -> Mat2 * Mat2) p :
  m2_symmetric (snd (f p)) ->
  m2_derivable_pt_lim (fun q => fst (f q)) p (snd (f p)) -> m10 (fst (f p)) <> 0 ->
  derivable_pt_lim (fun q => fst (@cdf_eig EighClosed (fst (f q)) (snd (f q)))) p
                   (- fst (@cdf_force EighClosed (fst (f p)) (snd (f p)))) /\
  derivable_pt_lim (fun q => snd (@cdf_eig EighClosed (fst (f q)) (snd (f q)))) p
                   (- snd (@cdf_force EighClosed (fst (f p)) (snd (f p)))).
Proof.
  intros HD (Ha & _ & Hb & Hd) Hb0.
  destruct (eigh_closed_reflection _ Hb0) as (_ & _ & _ & Hr0 & _).
  rewrite (eigh_closed_force _ _ HD Hb0); cbv zeta.
  assert (Hpos : 0 < ((m00 (fst (f p)) - m11 (fst (f p))) / 2) ^ 2 + m10 (fst (f p)) ^ 2)
    by (apply Rplus_le_lt_0_compat; [apply pow2_ge_0 | rewrite <- Rsqr_pow2; apply Rsqr_pos_lt, Hb0]).
  split; [apply (dlim_ext _ (fun q => (m00 (fst (f q)) + m11 (fst (f q))) / 2 -
          sqrt (((m00 (fst (f q)) - m11 (fst (f q))) / 2) ^ 2 + m10 (fst (f q)) ^ 2)))
          | apply (dlim_ext _ (fun q => (m00 (fst (f q)) + m11 (fst (f q))) / 2 +
          sqrt (((m00 (fst (f q)) - m11 (fst (f q))) / 2) ^ 2 + m10 (fst (f q)) ^ 2)))];
    try (intros q; rewrite cdf_eig_eigh; cbn [eigh EighClosed]; rewrite eigh_closed_eigs; reflexivity).
  all: eapply dlim_value; [repeat dlim_step | ].
  all: first [exact Hpos | cbn [fst snd INR Nat.pred]; field; lra].
Qed.

(** Along every family of [PotEig], the forces are minus the slopes of the
    energies. *)
Lemma potential_conservative f p :
  derivable_pt_lim (fun q => fst (@cdf_eig EighClosed (fst (potential f q)) (snd (potential f q)))) p
                   (- fst (@cdf_force EighClosed (fst (potential f p)) (snd (potential f p)))) /\
  derivable_pt_lim (fun q => snd (@cdf_eig EighClosed (fst (potential f q)) (snd (potential f q)))) p
                   (- snd (@cdf_force EighClosed (fst (potential f p)) (snd (potential f p)))).
Proof.
  destruct (potential_wf f p) as (HS & HD & Hd & Hc); unfold m2_symmetric in HS.
  apply eigh_closed_conservative; [exact HD | exact Hd | lra].
Qed.

(** C6.  Along each of the three model potentials of [PotEig], at every
    position [p], the forces [Calc_dij_force] computes (with [eigh_closed])
    are minus the derivatives at [p] of the adiabatic energies it computes:
    [force[k] = - d eig[k] / dp].  Together with the energy conservation of
    the hop, this is what makes the total energy of a trajectory a conserved
    quantity of the dynamics the program integrates. *)
Theorem Calc_dij_force_conservative (p : R) :
  let conservative := fun pot : R -> Mat2 * Mat2 =>
    derivable_pt_lim (fun q => fst (@cdf_eig EighClosed (fst (pot q)) (snd (pot q)))) p
                     (- fst (@cdf_force EighClosed (fst (pot p)) (snd (pot p)))) /\
    derivable_pt_lim (fun q => snd (@cdf_eig EighClosed (fst (pot q)) (snd (pot q)))) p
                     (- snd (@cdf_force EighClosed (fst (pot p)) (snd (pot p)))) in
  conservative Potenial_SAC /\ conservative Potenial_DAC /\ conservative Potenial_ECR.
Proof.
  intros c; unfold c.
  split; [| split]; [exact (potential_conservative SAC p) | exact (potential_conservative DAC p)
                     | exact (potential_conservative ECR p)].
Qed.

(** A symmetric matrix with eigenvalues [-1, 1] and rational eigenvectors
    [(3/5, 4/5)], [(4/5, -3/5)], and a derivative matrix [diag(1, 0)]. *)
Definition V_example : Mat2 := mkMat2 (7 / 25) (-24 / 25) (-24 / 25) (-7 / 25).
Definition V_der_example : Mat2 := mkMat2 1 0 0 0.

Lemma eigh_closed_V_example :
  eigh_closed V_example = ((-1, 1), mkMat2 (3 / 5) (4 / 5) (4 / 5) (-3 / 5)).
Proof.
  unfold V_example; rewrite (eigh_closed_explicit _ _ _ 1 (8 / 5)); try lra.
  f_equal; [f_equal; field | apply Mat2_ext; cbn; field].
Qed.

(** C5.  With the rotation that numpy's contract equally allows, at every
    symmetric [V] with nonzero coupling and for [V_der = diag(1, 0)], the
    upper-state force [Calc_dij_force] returns is the opposite of the
    Hellmann-Feynman force [-(U^T V_der U)[1,1]], which is strictly
    negative: [MatrixDot = U . V_der . U] is not [U^T . V_der . U], and the
    force depends on the eigenvector signs LAPACK happens to return. *)
Theorem Calc_dij_force_rotation_force V :
  m2_symmetric V -> m10 V <> 0 ->
  snd (@cdf_force EighRotation V V_der_example) = - snd (hf_force (snd (eigh_rotation V)) V_der_example) /\
  snd (hf_force (snd (eigh_rotation V)) V_der_example) < 0.
Proof.
  intros HV Hb; pose proof (@eigh_offdiag_nz EighRotation V HV Hb) as Hq.
  pose proof (eigh_closed_U_symmetric V) as HS.
  unfold cdf_force, Calc_dij_force; cbn [eigh EighRotation] in *; rewrite eigh_rotation_closed in *.
  destruct (eigh_closed V) as [w [p q q' r]]; unfold m2_symmetric in HS; cbn in HS, Hq |- *; subst q'.
  assert (Hq2 : 0 < q * q) by (apply Rsqr_pos_lt; exact Hq).
  unfold hf_force, adiabatic_matrix, V_der_example; cbn; split; [ring | lra].
Qed.

(** [Calc_dij_force] reads [eigh V] only through its eigenvalues and
    [MatrixDot = U . V_der . U], which a common sign of both columns leaves
    unchanged. *)
Lemma Calc_dij_force_sign `{Eigh} V V_der s :
  s * s = 1 ->
  let U := snd (eigh_closed V) in
  eigh V = (fst (eigh_closed V), m2_scale s U) \/ eigh V = (fst (eigh_closed V), m2_scale s (flip_col1 U)) ->
  Calc_dij_force V V_der = @Calc_dij_force EighClosed V V_der \/
  Calc_dij_force V V_der = @Calc_dij_force EighRotation V V_der.
Proof.
  intros Hs U HU; unfold Calc_dij_force; cbn [eigh EighClosed EighRotation].
  rewrite eigh_rotation_closed; fold U; destruct (eigh_closed V) as [w Uc]; cbn [fst snd] in *.
  destruct HU as [-> | ->]; [left | right]; cbv beta iota zeta;
    rewrite (m2_scale_sandwich _ _ _ Hs); reflexivity.
Qed.

(** C14.  For every implementation of numpy's [eigh] contract and a
    symmetric [V] with nonzero coupling, [Calc_dij_force] returns one of
    exactly two results: that of [eigh_closed], whose forces are the
    Hellmann-Feynman forces, or that of [eigh_rotation], whose upper-state
    force can have the wrong sign.  Which one is decided by whether the
    two eigenvector columns LAPACK returns carry the same sign. *)
Theorem Calc_dij_force_two_outputs `{Eigh} V V_der :
  m2_symmetric V -> m10 V <> 0 ->
  Calc_dij_force V V_der = @Calc_dij_force EighClosed V V_der \/
  Calc_dij_force V V_der = @Calc_dij_force EighRotation V V_der.
Proof.
  intros HV Hb; destruct (eigh_up_to_sign V HV Hb) as (s0 & s1 & H0 & H1 & HU).
  apply (Calc_dij_force_sign V V_der s0 H0).
  rewrite (surjective_pairing (eigh V)), (eigh_eigenvalues V HV), HU.
  destruct (snd (eigh_closed V)), (sq_one_cases _ H0) as [-> | ->], (sq_one_cases _ H1) as [-> | ->];
    [left | right | right | left]; f_equal; unfold m2_scale, flip_col1; apply Mat2_ext; cbn; ring.
Qed.

(** ** Witnesses *)

Lemma Calc_dij_force_shape_witness :
  m2_symmetric V_example /\
  fst (@cdf_eig EighClosed V_example V_der_example) <= snd (@cdf_eig EighClosed V_example V_der_example) /\
  m00 (@cdf_dij EighClosed V_example V_der_example) = 0 /\
  m11 (@cdf_dij EighClosed V_example V_der_example) = 0 /\
  m10 (@cdf_dij EighClosed V_example V_der_example) = - m01 (@cdf_dij EighClosed V_example V_der_example).
Proof.
  assert (H : m2_symmetric V_example) by reflexivity.
  split; [exact H | apply (@Calc_dij_force_shape EighClosed V_example V_der_example H)].
Defined.

Lemma Calc_dij_force_norm_bounds_witness :
  m2_symmetric V_example /\
  fst (@cdf_force EighRotation V_example V_der_example) ^ 2 <= m2_frob2 V_der_example /\
  snd (@cdf_force EighRotation V_example V_der_example) ^ 2 <= m2_frob2 V_der_example /\
  (m01 (@cdf_dij EighRotation V_example V_der_example) *
   (fst (@cdf_eig EighRotation V_example V_der_example) - snd (@cdf_eig EighRotation V_example V_der_example))) ^ 2
  <= m2_frob2 V_der_example.
Proof.
  assert (H : m2_symmetric V_example) by reflexivity.
  split; [exact H | apply (@Calc_dij_force_norm_bounds EighRotation V_example V_der_example H)].
Defined.

Lemma Calc_dij_force_roundtrip_witness :
  m2_symmetric V_example /\
  snd (@eigh EighRotation V_example) ⋅
    m2_diag (fst (@cdf_eig EighRotation V_example V_der_example))
            (snd (@cdf_eig EighRotation V_example V_der_example)) ⋅ (snd (@eigh EighRotation V_example)) ᵀ
  = V_example /\
  (snd (@eigh EighRotation V_example)) ᵀ ⋅ V_example ⋅ snd (@eigh EighRotation V_example) =
    m2_diag (fst (@cdf_eig EighRotation V_example V_der_example))
            (snd (@cdf_eig EighRotation V_example V_der_example)).
Proof.
  assert (H : m2_symmetric V_example) by reflexivity.
  split; [exact H | apply (@Calc_dij_force_roundtrip EighRotation V_example V_der_example H)].
Defined.

Lemma Calc_dij_force_two_outputs_witness :
  m2_symmetric V_example /\ m10 V_example <> 0 /\
  (@Calc_dij_force EighRotation V_example V_der_example = @Calc_dij_force EighClosed V_example V_der_example \/
   @Calc_dij_force EighRotation V_example V_der_example = @Calc_dij_force EighRotation V_example V_der_example).
Proof.
  assert (HV : m2_symmetric V_example) by reflexivity.
  assert (Hb : m10 V_example <> 0) by (cbn; lra).
  split; [exact HV | split; [exact Hb | apply (@Calc_dij_force_two_outputs EighRotation V_example V_der_example HV Hb)]].
Defined.

Lemma Calc_dij_force_rotation_force_witness :
  m2_symmetric V_example /\ m10 V_example <> 0 /\
  snd (@cdf_force EighRotation V_example V_der_example) =
    - snd (hf_force (snd (eigh_rotation V_example)) V_der_example) /\
  snd (hf_force (snd (eigh_rotation V_example)) V_der_example) < 0.
Proof.
  assert (HV : m2_symmetric V_example) by reflexivity.
  assert (Hb : m10 V_example <> 0) by (cbn; lra).
  split; [exact HV | split; [exact Hb | apply (Calc_dij_force_rotation_force V_example HV Hb)]].
Defined.

Lemma Calc_dij_force_hellmann_feynman_witness :
  m2_symmetric V_example /\
  ((forall V_der, @cdf_force EighRotation V_example V_der = hf_force (snd (@eigh EighRotation V_example)) V_der) <->
   m2_symmetric (snd (@eigh EighRotation V_example))).
Proof.
  assert (HV : m2_symmetric V_example) by reflexivity.
  split; [exact HV | apply (@Calc_dij_force_hellmann_feynman EighRotation V_example HV)].
Defined.
