(* ===== verification/SACAnalysis.v ===== *)
(** * The SAC model in closed form: energies, forces and their bounds

    [FSSH.py] and [VelocityVerlet] integrate the SAC model only.  This file
    puts what [Calc_dij_force] computes from [Potenial_SAC p] (with the
    closed-form [eigh]) in closed form: with [a = V[0,0]], [b = V[0,1]] and
    their derivatives [a1], [b1], the energies are [-+ r] with
    [r = sqrt(a^2 + b^2)] and the forces are [+- g] with
    [g = (a a1 + b b1) / r].  It then bounds them along the whole line:
    [r <= 0.0112], [r >= 1/625], [a1^2 + b1^2 <= 2.81e-4], and the force
    [g] is Lipschitz with constant [1/4]: Section [Branch] bounds the
    derivative of such a quotient on a convex set where [a] and [b] are
    twice differentiable, and the two sides of [p = 0], where [V_der[0,0]]
    has a kink, are glued at 0.  Half the gap [r] is differentiable
    everywhere with derivative [g] (from [potential_conservative]), which
    gives the mean value and trapezoid lemmas [Scenario] uses for the
    energy drift of a trajectory. *)

From Stdlib Require Import Reals Lra.
From S2P Require Import Prelude PotEig Eigh NACsForce.
Open Scope R_scope.
Import PotEig.

(** The entries of [V] and [V_der] of [Potenial_SAC]. *)
Definition sac_a (p : R) : R := m00 (fst (Potenial_SAC p)).
Definition sac_b (p : R) : R := m01 (fst (Potenial_SAC p)).
Definition sac_a1 (p : R) : R := m00 (snd (Potenial_SAC p)).
Definition sac_b1 (p : R) : R := m01 (snd (Potenial_SAC p)).

(** Half the gap, and the force of the lower state. *)
Definition sac_r (p : R) : R := sqrt (sac_a p ^ 2 + sac_b p ^ 2).
Definition sac_g (p : R) : R := (sac_a p * sac_a1 p + sac_b p * sac_b1 p) / sac_r p.

(** ** Closed forms *)

Lemma sac_b_pos p : 0 < sac_b p.
Proof. apply (Potenial_coupling_pos_wf p). Qed.

Lemma sac_r_pos p : 0 < sac_r p.
Proof.
  unfold sac_r; apply sqrt_lt_R0, Rplus_le_lt_0_compat; [apply pow2_ge_0 |].
  pose proof (sac_b_pos p); nra.
Qed.

Lemma sac_shape p :
  m10 (fst (Potenial_SAC p)) = sac_b p /\ m11 (fst (Potenial_SAC p)) = - sac_a p /\
  m10 (snd (Potenial_SAC p)) = sac_b1 p /\ m11 (snd (Potenial_SAC p)) = - sac_a1 p.
Proof. unfold sac_a, sac_b, sac_a1, sac_b1; pot_branches; repeat split; ring. Qed.

(** The energies are [(-r, r)]. *)
Lemma sac_eig p :
  @cdf_eig EighClosed (fst (Potenial_SAC p)) (snd (Potenial_SAC p)) = (- sac_r p, sac_r p).
Proof.
  destruct (sac_shape p) as (H10 & H11 & _); rewrite cdf_eig_eigh; cbn [eigh EighClosed].
  rewrite eigh_closed_eigs, H10, H11; fold (sac_a p); unfold sac_r.
  replace ((sac_a p + - sac_a p) / 2) with 0 by field.
  replace ((sac_a p - - sac_a p) / 2) with (sac_a p) by field.
  f_equal; ring.
Qed.

(** The forces are [(g, -g)]. *)
Lemma sac_force p :
  @cdf_force EighClosed (fst (Potenial_SAC p)) (snd (Potenial_SAC p)) = (sac_g p, - sac_g p).
Proof.
  destruct (Potenial_SAC_wf p) as (_ & HD & _); destruct (sac_shape p) as (H10 & H11 & H10' & H11').
  pose proof (sac_r_pos p) as Hr; pose proof (sac_b_pos p) as Hb.
  rewrite (eigh_closed_force _ _ HD) by lra; cbv zeta.
  rewrite H10, H11, H10', H11'; fold (sac_a p) (sac_a1 p).
  replace ((sac_a p - - sac_a p) / 2) with (sac_a p) by field.
  replace ((sac_a1 p - - sac_a1 p) / 2) with (sac_a1 p) by field.
  fold (sac_r p); unfold sac_g; f_equal; field; lra.
Qed.
(** ** The entries on each side of [p = 0] *)

(** The formulas of the [p > 0] and [p < 0] branches of [V00] and [Vder00],
    each extended to the whole line. *)
Definition sac_aP (q : R) : R := SAC_A * (1 - exp (- SAC_B * q)).
Definition sac_a1P (q : R) : R := SAC_A * SAC_B * exp (- SAC_B * q).
Definition sac_aM (q : R) : R := - SAC_A * (1 - exp (SAC_B * q)).
Definition sac_a1M (q : R) : R := SAC_A * SAC_B * exp (SAC_B * q).

Lemma sac_a_pos p : 0 <= p -> sac_a p = sac_aP p /\ sac_a1 p = sac_a1P p.
Proof.
  unfold sac_a, sac_a1, sac_aP, sac_a1P; intros Hp; pot_branches; try (split; reflexivity).
  subst p; rewrite Rmult_0_r, exp_0; split; ring.
Qed.

Lemma sac_a_neg p : p <= 0 -> sac_a p = sac_aM p /\ sac_a1 p = sac_a1M p.
Proof.
  unfold sac_a, sac_a1, sac_aM, sac_a1M; intros Hp; pot_branches; try (split; reflexivity).
  subst p; rewrite Rmult_0_r, exp_0; split; ring.
Qed.

Lemma sac_b_eq p : sac_b p = SAC_C * exp (- SAC_D * p ^ 2).
Proof. unfold sac_b; pot_branches; reflexivity. Qed.

Lemma sac_b1_eq p : sac_b1 p = -2 * p * SAC_C * SAC_D * exp (- SAC_D * p ^ 2).
Proof. unfold sac_b1; pot_branches; reflexivity. Qed.

(** ** Bounds along the whole line *)

Lemma sac_r_sq p : sac_r p ^ 2 = sac_a p ^ 2 + sac_b p ^ 2.
Proof. unfold sac_r; apply pow2_sqrt; pose proof (pow2_ge_0 (sac_a p)); pose proof (pow2_ge_0 (sac_b p)); lra. Qed.

Lemma sac_a_sq p : sac_a p ^ 2 <= SAC_A ^ 2.
Proof.
  destruct (Rle_or_lt 0 p) as [Hp | Hp].
  - rewrite (proj1 (sac_a_pos p Hp)); unfold sac_aP.
    pose proof (exp_pos (- SAC_B * p)); pose proof (exp_le_1 (- SAC_B * p) ltac:(unfold SAC_B; lra)).
    unfold SAC_A; nra.
  - rewrite (proj1 (sac_a_neg p ltac:(lra))); unfold sac_aM.
    pose proof (exp_pos (SAC_B * p)); pose proof (exp_le_1 (SAC_B * p) ltac:(unfold SAC_B; lra)).
    unfold SAC_A; nra.
Qed.

Lemma sac_b_le p : sac_b p <= SAC_C.
Proof.
  rewrite sac_b_eq; pose proof (exp_le_1 (- SAC_D * p ^ 2)) as H.
  unfold SAC_C, SAC_D in *; pose proof (pow2_ge_0 p); nra.
Qed.

Lemma sac_r_le p : sac_r p <= 0.0112.
Proof.
  pose proof (sac_r_sq p); pose proof (sac_a_sq p); pose proof (sac_b_le p); pose proof (sac_b_pos p).
  pose proof (sac_r_pos p); unfold SAC_A, SAC_C in *.
  assert (sac_r p ^ 2 <= 0.0112 ^ 2) by nra; nra.
Qed.

(** [e^{-x} <= 1/(1 + x)] for [x >= 0], in the form the bounds use. *)
Lemma exp_opp_le x : 0 <= x -> (1 + x) * exp (- x) <= 1.
Proof.
  intros Hx; pose proof (exp_ineq1_le x); pose proof (exp_opp_mul x); pose proof (exp_pos (- x)); nra.
Qed.

(** Half the gap never falls below [1/625]: near the crossing the coupling
    is at least [C/e >= C/3], away from it [|V00| >= 1.6 A / 2.6]. *)
Lemma sac_r_ge p : 1 / 625 <= sac_r p.
Proof.
  assert (H2 : (1 / 625) ^ 2 <= sac_a p ^ 2 + sac_b p ^ 2).
  { destruct (Rlt_or_le (p ^ 2) 1) as [Hp | Hp].
    - rewrite sac_b_eq; assert (He : exp (- (1)) <= exp (- SAC_D * p ^ 2))
        by (apply exp_mono; unfold SAC_D; lra).
      assert (H3 : 1 / 3 <= exp (- (1)))
        by (pose proof exp_le_3; pose proof (exp_opp_mul 1); pose proof (exp_pos (- (1))); nra).
      assert (Hb : SAC_C / 3 <= SAC_C * exp (- SAC_D * p ^ 2)) by (unfold SAC_C; lra).
      pose proof (pow2_ge_0 (sac_a p)); unfold SAC_C in *; nra.
    - pose proof (pow2_ge_0 (sac_b p)).
      destruct (Rle_or_lt 0 p) as [H0 | H0].
      + assert (H1 : 1 <= p) by nra.
        rewrite (proj1 (sac_a_pos p H0)); unfold sac_aP.
        replace (- SAC_B * p) with (- (SAC_B * p)) by ring.
        pose proof (exp_opp_le (SAC_B * p) ltac:(unfold SAC_B; lra)); pose proof (exp_pos (- (SAC_B * p))).
        unfold SAC_A, SAC_B in *; nra.
      + assert (H1 : p <= -1) by nra.
        rewrite (proj1 (sac_a_neg p ltac:(lra))); unfold sac_aM.
        pose proof (exp_opp_le (- (SAC_B * p)) ltac:(unfold SAC_B; lra)); pose proof (exp_pos (SAC_B * p)).
        rewrite Ropp_involutive in *; unfold SAC_A, SAC_B in *; nra. }
  rewrite <- sac_r_sq in H2; pose proof (sac_r_pos p); nra.
Qed.

Lemma sac_a1_bounds p : 0 < sac_a1 p <= SAC_A * SAC_B.
Proof.
  destruct (Rle_or_lt 0 p) as [Hp | Hp].
  - rewrite (proj2 (sac_a_pos p Hp)); unfold sac_a1P.
    pose proof (exp_pos (- SAC_B * p)); pose proof (exp_le_1 (- SAC_B * p) ltac:(unfold SAC_B; lra)).
    unfold SAC_A, SAC_B in *; nra.
  - rewrite (proj2 (sac_a_neg p ltac:(lra))); unfold sac_a1M.
    pose proof (exp_pos (SAC_B * p)); pose proof (exp_le_1 (SAC_B * p) ltac:(unfold SAC_B; lra)).
    unfold SAC_A, SAC_B in *; nra.
Qed.

Lemma sac_b1_sq p : sac_b1 p ^ 2 <= SAC_C ^ 2.
Proof.
  rewrite sac_b1_eq; pose proof (gauss_slope p) as H.
  replace (- SAC_D * p ^ 2) with (- p ^ 2) by (unfold SAC_D; ring).
  replace ((-2 * p * SAC_C * SAC_D * exp (- p ^ 2)) ^ 2) with (SAC_C ^ 2 * (2 * p * exp (- p ^ 2)) ^ 2)
    by (unfold SAC_D; ring).
  pose proof (pow2_ge_0 SAC_C); nra.
Qed.

(** The squared derivative of [V] is at most [2.81e-4]. *)
Lemma sac_der_sq p : sac_a1 p ^ 2 + sac_b1 p ^ 2 <= 281 / 1000000.
Proof.
  pose proof (sac_a1_bounds p); pose proof (sac_b1_sq p); unfold SAC_A, SAC_B, SAC_C in *; nra.
Qed.

(** [((a a1 + b b1) / r)^2 <= a1^2 + b1^2] for [r = sqrt(a^2 + b^2)]. *)
Lemma cs_quot a b a1 b1 r :
  0 < r -> r ^ 2 = a ^ 2 + b ^ 2 -> ((a * a1 + b * b1) / r) ^ 2 <= a1 ^ 2 + b1 ^ 2.
Proof.
  intros Hr Hsq; pose proof (cauchy_schwarz2 a b a1 b1) as H; rewrite <- Hsq in H.
  replace (((a * a1 + b * b1) / r) ^ 2) with ((a * a1 + b * b1) ^ 2 / r ^ 2) by (field; lra).
  apply (Rmult_le_reg_r (r ^ 2)); [nra |]; unfold Rdiv; rewrite Rmult_assoc, Rinv_l by nra; nra.
Qed.

(** Both forces are at most [sqrt 2.81e-4 < 0.0168] in size. *)
Lemma sac_g_sq p : sac_g p ^ 2 <= 281 / 1000000.
Proof.
  eapply Rle_trans; [apply cs_quot; [apply sac_r_pos | apply sac_r_sq] | apply sac_der_sq].
Qed.

(** ** The force of a smooth branch is Lipschitz

    On a convex set [dom] where [a], [b] are twice differentiable, with
    [a^2 + b^2 >= r0^2], [a1^2 + b1^2 <= S] and [a2^2 + b2^2 <= t0^2], the
    quotient [g = (a a1 + b b1) / sqrt(a^2 + b^2)] has derivative
    [((a1^2 + b1^2 - g^2) + (a a2 + b b2)) / r], at most [S / r0 + t0]. *)
Section Branch.

Variables a a1 a2 b b1 b2 : R -> R.
Variable dom : R -> Prop.
Variables r0 S t0 L : R.

Hypothesis dom_convex : forall x y q, dom x -> dom y -> x <= q <= y -> dom q.
Hypothesis Da : forall q, derivable_pt_lim a q (a1 q).
Hypothesis Da1 : forall q, derivable_pt_lim a1 q (a2 q).
Hypothesis Db : forall q, derivable_pt_lim b q (b1 q).
Hypothesis Db1 : forall q, derivable_pt_lim b1 q (b2 q).
Hypothesis Hr0 : 0 < r0.
Hypothesis Hrq : forall q, dom q -> r0 ^ 2 <= a q ^ 2 + b q ^ 2.
Hypothesis HS : forall q, dom q -> a1 q ^ 2 + b1 q ^ 2 <= S.
Hypothesis Ht0 : 0 <= t0.
Hypothesis HT : forall q, dom q -> a2 q ^ 2 + b2 q ^ 2 <= t0 ^ 2.
Hypothesis HL : S / r0 + t0 <= L.

Definition br_r (q : R) : R := sqrt (a q ^ 2 + b q ^ 2).
Definition br_g (q : R) : R := (a q * a1 q + b q * b1 q) / br_r q.
Definition br_g' (q : R) : R :=
  (a1 q ^ 2 + b1 q ^ 2 - br_g q ^ 2 + (a q * a2 q + b q * b2 q)) / br_r q.

Lemma br_r_sq q : dom q -> br_r q ^ 2 = a q ^ 2 + b q ^ 2.
Proof. intros Hq; unfold br_r; apply pow2_sqrt; pose proof (Hrq q Hq); pose proof (pow2_ge_0 r0); lra. Qed.

Lemma br_r_ge q : dom q -> r0 <= br_r q.
Proof.
  intros Hq; pose proof (br_r_sq q Hq); pose proof (Hrq q Hq); pose proof (sqrt_pos (a q ^ 2 + b q ^ 2)).
  fold (br_r q) in *; nra.
Qed.

Lemma br_r_deriv q : dom q -> derivable_pt_lim br_r q (br_g q).
Proof.
  intros Hq; pose proof (br_r_ge q Hq); pose proof (Hrq q Hq); pose proof (pow2_ge_0 r0).
  unfold br_r, br_g; eapply dlim_value; [apply dlim_sqrt; [dlim_step; dlim_step; eauto | nra] |].
  cbv beta; fold (br_r q); cbn [INR Nat.pred]; field; lra.
Qed.

Lemma br_g_deriv q : dom q -> derivable_pt_lim br_g q (br_g' q).
Proof.
  intros Hq; pose proof (br_r_ge q Hq); pose proof (br_r_deriv q Hq).
  unfold br_g at 1; eapply dlim_value.
  - apply (dlim_div (fun q => a q * a1 q + b q * b1 q) br_r); [| eassumption | lra].
    dlim_step; dlim_step; eauto.
  - unfold br_g', br_g; field; lra.
Qed.

Lemma br_g'_bound q : dom q -> Rabs (br_g' q) <= L.
Proof.
  intros Hq; pose proof (br_r_ge q Hq) as Hr; pose proof (br_r_sq q Hq) as Hsq.
  pose proof (cs_quot (a q) (b q) (a1 q) (b1 q) (br_r q) ltac:(lra) Hsq) as Hg; fold (br_g q) in Hg.
  pose proof (cauchy_schwarz2 (a q) (b q) (a2 q) (b2 q)) as HY; rewrite <- Hsq in HY.
  assert (HY' : Rabs (a q * a2 q + b q * b2 q) <= br_r q * t0).
  { pose proof (HT q Hq); pose proof (pow2_ge_0 (br_r q)).
    assert ((a q * a2 q + b q * b2 q) ^ 2 <= (br_r q * t0) ^ 2)
      by (rewrite Rpow_mult_distr; eapply Rle_trans; [exact HY | apply Rmult_le_compat_l; assumption]).
    assert (0 <= br_r q * t0) by (apply Rmult_le_pos; lra).
    apply Rabs_le; split; nra. }
  pose proof (HS q Hq); pose proof (pow2_ge_0 (br_g q)).
  unfold br_g'; apply Rabs_div_le; [lra |].
  assert (HSr : S <= br_r q * (S / r0))
    by (unfold Rdiv; apply (Rmult_le_reg_r r0); [lra |];
        rewrite Rmult_assoc, (Rmult_assoc S), Rinv_l, Rmult_1_r by lra; nra).
  eapply Rle_trans; [apply Rabs_triang |]; rewrite (Rabs_right (_ - _)) by lra; nra.
Qed.

(** [|g y - g x| <= L (y - x)] on [dom]. *)
Lemma br_g_lipschitz x y : dom x -> dom y -> x <= y -> Rabs (br_g y - br_g x) <= L * (y - x).
Proof.
  intros Hx Hy [Hlt | <-]; [| rewrite Rminus_diag, Rabs_R0; lra].
  destruct (MVT_cor2 br_g br_g' x y Hlt) as (c & Hc & Hxc).
  { intros c Hc; apply br_g_deriv, (dom_convex x y); auto. }
  rewrite Hc, Rabs_mult, (Rabs_right (y - x)) by lra.
  apply Rmult_le_compat_r; [lra | apply br_g'_bound, (dom_convex x y); auto; lra].
Qed.

End Branch.

(** ** The SAC force is Lipschitz with constant [1/4] *)

Definition sac_a2P (q : R) : R := - SAC_A * SAC_B ^ 2 * exp (- SAC_B * q).
Definition sac_a2M (q : R) : R := SAC_A * SAC_B ^ 2 * exp (SAC_B * q).
Definition sac_b2 (q : R) : R := SAC_C * SAC_D * (4 * SAC_D * q ^ 2 - 2) * exp (- SAC_D * q ^ 2).
Definition sac_L : R := 1 / 4.

Lemma sac_b_deriv q : derivable_pt_lim sac_b q (sac_b1 q).
Proof.
  apply (dlim_entry _ _ (fun q => SAC_C * exp (- SAC_D * q ^ 2))
                        (fun q => -2 * q * SAC_C * SAC_D * exp (- SAC_D * q ^ 2)));
    [exact sac_b_eq | exact sac_b1_eq | intro; dlim].
Qed.

Lemma sac_b1_deriv q : derivable_pt_lim sac_b1 q (sac_b2 q).
Proof.
  apply (dlim_entry _ _ (fun q => -2 * q * SAC_C * SAC_D * exp (- SAC_D * q ^ 2)) sac_b2);
    [exact sac_b1_eq | reflexivity | intro; unfold sac_b2; dlim].
Qed.

Lemma sac_b2_sq q : sac_b2 q ^ 2 <= (2 * SAC_C) ^ 2.
Proof.
  pose proof (gauss_curv q) as H; unfold sac_b2.
  replace (- SAC_D * q ^ 2) with (- q ^ 2) by (unfold SAC_D; ring).
  replace ((SAC_C * SAC_D * (4 * SAC_D * q ^ 2 - 2) * exp (- q ^ 2)) ^ 2)
    with ((2 * SAC_C) ^ 2 * ((4 * q ^ 2 - 2) / 2 * exp (- q ^ 2)) ^ 2) by (unfold SAC_D; field).
  pose proof (pow2_ge_0 (2 * SAC_C)); nra.
Qed.

(** The numbers of the branch lemma: [S / r0 + t0 <= 1/4]. *)
Lemma sac_branch_consts : 281 / 1000000 / (1 / 625) + 28 / 1000 <= sac_L.
Proof. unfold sac_L; lra. Qed.

Lemma sac_a2_sq e : 0 < e <= 1 -> (SAC_A * SAC_B ^ 2 * e) ^ 2 + (2 * SAC_C) ^ 2 <= (28 / 1000) ^ 2.
Proof. intros He; unfold SAC_A, SAC_B, SAC_C; nra. Qed.

(** The bounds of the branch lemma hold on each side of the crossing. *)
Ltac sac_branch_hyps :=
  match goal with
  | |- forall x y q, _ -> _ -> _ -> _ => intros; lra
  | |- forall q, derivable_pt_lim sac_b _ _ => exact sac_b_deriv
  | |- forall q, derivable_pt_lim sac_b1 _ _ => exact sac_b1_deriv
  | |- forall q, derivable_pt_lim _ _ _ =>
      intro; unfold sac_aP, sac_a1P, sac_a2P, sac_aM, sac_a1M, sac_a2M; dlim
  | |- _ / _ + _ <= sac_L => exact sac_branch_consts
  | |- _ => lra
  end.

Lemma sac_g_branchP q :
  0 <= q -> sac_g q = br_g sac_aP sac_a1P sac_b sac_b1 q /\ sac_r q = br_r sac_aP sac_b q.
Proof. intros Hq; unfold sac_g, br_g, sac_r, br_r; destruct (sac_a_pos q Hq) as [-> ->]; split; reflexivity. Qed.

Lemma sac_g_branchM q :
  q <= 0 -> sac_g q = br_g sac_aM sac_a1M sac_b sac_b1 q /\ sac_r q = br_r sac_aM sac_b q.
Proof. intros Hq; unfold sac_g, br_g, sac_r, br_r; destruct (sac_a_neg q Hq) as [-> ->]; split; reflexivity. Qed.

Lemma sac_g_lip_pos x y : 0 <= x -> x <= y -> Rabs (sac_g y - sac_g x) <= sac_L * (y - x).
Proof.
  intros Hx Hxy; rewrite (proj1 (sac_g_branchP x Hx)), (proj1 (sac_g_branchP y ltac:(lra))).
  apply (br_g_lipschitz sac_aP sac_a1P sac_a2P sac_b sac_b1 sac_b2 (fun q => 0 <= q)
                        (1 / 625) (281 / 1000000) (28 / 1000)); try sac_branch_hyps.
  - intros q Hq; destruct (sac_a_pos q Hq) as [<- _]; rewrite <- sac_r_sq.
    pose proof (sac_r_ge q); nra.
  - intros q Hq; destruct (sac_a_pos q Hq) as [_ <-]; apply sac_der_sq.
  - intros q Hq; pose proof (sac_b2_sq q); unfold sac_a2P.
    pose proof (exp_pos (- SAC_B * q)); pose proof (exp_le_1 (- SAC_B * q) ltac:(unfold SAC_B; nra)).
    pose proof (sac_a2_sq (exp (- SAC_B * q)) ltac:(lra)); nra.
Qed.

Lemma sac_g_lip_neg x y : y <= 0 -> x <= y -> Rabs (sac_g y - sac_g x) <= sac_L * (y - x).
Proof.
  intros Hy Hxy; rewrite (proj1 (sac_g_branchM x ltac:(lra))), (proj1 (sac_g_branchM y Hy)).
  apply (br_g_lipschitz sac_aM sac_a1M sac_a2M sac_b sac_b1 sac_b2 (fun q => q <= 0)
                        (1 / 625) (281 / 1000000) (28 / 1000)); try sac_branch_hyps.
  - intros q Hq; destruct (sac_a_neg q Hq) as [<- _]; rewrite <- sac_r_sq.
    pose proof (sac_r_ge q); nra.
  - intros q Hq; destruct (sac_a_neg q Hq) as [_ <-]; apply sac_der_sq.
  - intros q Hq; pose proof (sac_b2_sq q); unfold sac_a2M.
    pose proof (exp_pos (SAC_B * q)); pose proof (exp_le_1 (SAC_B * q) ltac:(unfold SAC_B; nra)).
    pose proof (sac_a2_sq (exp (SAC_B * q)) ltac:(lra)); nra.
Qed.

(** The force [g] is Lipschitz on the whole line, across the kink of
    [Vder00] at [p = 0]. *)
Lemma sac_g_lipschitz x y : x <= y -> Rabs (sac_g y - sac_g x) <= sac_L * (y - x).
Proof.
  intros Hxy; destruct (Rle_or_lt 0 x) as [Hx | Hx]; [apply sac_g_lip_pos; lra |].
  destruct (Rle_or_lt y 0) as [Hy | Hy]; [apply sac_g_lip_neg; lra |].
  pose proof (sac_g_lip_neg x 0 ltac:(lra) ltac:(lra)); pose proof (sac_g_lip_pos 0 y ltac:(lra) ltac:(lra)).
  replace (sac_g y - sac_g x) with ((sac_g y - sac_g 0) + (sac_g 0 - sac_g x)) by ring.
  eapply Rle_trans; [apply Rabs_triang | lra].
Qed.

(** ** The energy change over a step *)

(** Half the gap has the force [g] as derivative everywhere (the kink of
    [Vder00] at 0 does not reach the energies). *)
Lemma sac_r_deriv p : derivable_pt_lim sac_r p (sac_g p).
Proof.
  pose proof (proj1 (potential_conservative SAC p)) as H; cbn [potential] in H.
  rewrite sac_force in H; cbn [fst] in H.
  apply (dlim_ext _ (fun q => - fst (@cdf_eig EighClosed (fst (Potenial_SAC q)) (snd (Potenial_SAC q))))).
  - intros z; rewrite sac_eig; cbn [fst]; ring.
  - eapply dlim_value; [apply (dlim_opp (fun q => fst (@cdf_eig EighClosed _ _))), H | ring].
Qed.

Lemma sac_r_mvt x y : x <= y -> exists c, x <= c <= y /\ sac_r y - sac_r x = sac_g c * (y - x).
Proof.
  intros [Hlt | <-]; [| exists x; split; [lra | ring]].
  destruct (MVT_cor2 sac_r sac_g x y Hlt) as (c & Hc & Hxc); [intros; apply sac_r_deriv |].
  exists c; split; [lra | exact Hc].
Qed.

(** Trapezoid rule: the change of [r] over [[x, y]] is [(y - x) c] with [c]
    within [L (y - x) / 2] of the mean of the end-point forces. *)
Lemma sac_r_trapezoid x y :
  x <= y -> exists c, sac_r y - sac_r x = c * (y - x) /\
                      Rabs ((sac_g x + sac_g y) / 2 - c) <= sac_L * (y - x) / 2.
Proof.
  intros Hxy; destruct (sac_r_mvt x y Hxy) as (c & Hc & E); exists (sac_g c); split; [exact E |].
  pose proof (sac_g_lipschitz x c ltac:(lra)); pose proof (sac_g_lipschitz c y ltac:(lra)).
  replace ((sac_g x + sac_g y) / 2 - sac_g c) with (- (sac_g c - sac_g x) / 2 + (sac_g y - sac_g c) / 2)
    by field.
  eapply Rle_trans; [apply Rabs_triang |]; unfold Rdiv; rewrite !Rabs_mult, Rabs_Ropp.
  rewrite (Rabs_right (/ 2)) by lra; lra.
Qed.

(** ** The bounds as properties of [Calc_dij_force] on [Potenial_SAC] *)

Lemma sac_g_abs p : Rabs (sac_g p) <= 0.0168.
Proof. pose proof (sac_g_sq p); apply Rabs_le; split; nra. Qed.

(** C12.  Along the whole line, with the closed-form [eigh], the SAC
    energies [Calc_dij_force] returns lie in [[-0.0112, 0.0112]] with a gap
    of at least [2/625], both forces are at most [0.0168] in size, and the
    lower-state force is Lipschitz with constant [1/4], across the kink of
    [V_der[0,0]] at [p = 0]: [|V[0,0]|] never exceeds [A] (the code's
    [p < 0] branch [-A (1 - exp(B p))] is bounded). *)
Theorem sac_adiabatic_bounds p q :
  let E := fun x => @cdf_eig EighClosed (fst (Potenial_SAC x)) (snd (Potenial_SAC x)) in
  let F := fun x => @cdf_force EighClosed (fst (Potenial_SAC x)) (snd (Potenial_SAC x)) in
  - 0.0112 <= fst (E p) /\ snd (E p) <= 0.0112 /\ 2 / 625 <= snd (E p) - fst (E p) /\
  Rabs (fst (F p)) <= 0.0168 /\ Rabs (snd (F p)) <= 0.0168 /\
  Rabs (fst (F q) - fst (F p)) <= sac_L * Rabs (q - p).
Proof.
  intros E F; unfold E, F; rewrite !sac_eig, !sac_force; cbn [fst snd].
  pose proof (sac_r_le p); pose proof (sac_r_ge p); pose proof (sac_g_abs p).
  do 4 (split; [lra |]); split; [rewrite Rabs_Ropp; lra |].
  destruct (Rle_or_lt p q) as [Hpq | Hpq].
  - rewrite (Rabs_right (q - p)) by lra; apply sac_g_lipschitz, Hpq.
  - rewrite Rabs_minus_sym, (Rabs_minus_sym q p), (Rabs_right (p - q)) by lra.
    apply sac_g_lipschitz; lra.
Qed.

(** The trapezoid rule in either direction. *)
Lemma sac_r_trapezoid_abs x y :
  exists c, sac_r y - sac_r x = c * (y - x) /\
            Rabs ((sac_g x + sac_g y) / 2 - c) <= sac_L * Rabs (y - x) / 2.
Proof.
  destruct (Rle_or_lt x y) as [Hxy | Hxy].
  - rewrite (Rabs_right (y - x)) by lra; apply sac_r_trapezoid, Hxy.
  - destruct (sac_r_trapezoid y x ltac:(lra)) as (c & Hc & Hb); exists c.
    rewrite (Rabs_minus_sym y x), (Rabs_right (x - y)), (Rplus_comm (sac_g x)) by lra.
    split; [lra | exact Hb].
Qed.
