(* ===== verification/RungeKutta.v ===== *)
(** * The electronic propagator of [src/FSSH.py/run/Fourth_RungeKutta.py]

    [Coefficient_DiffEqu] is the right-hand side of the amplitude equation
    [c_dot = -1j * np.dot(c, combine)] with
    [combine = [[E1, -1j*R_dot*d21], [-1j*R_dot*d12, E2]]]; it is linear in
    [c].  [Fourth_RungeKutta] makes one classical RK4 step of it with the
    Hamiltonian frozen over the step.

    The theorems: one RK4 step of any real-linear right-hand side [f] is the
    degree-4 Taylor polynomial [sum_{k<=4} h^k/k! f^k c] of the exact
    propagator (Section [RK4Linear]); hence [Fourth_RungeKutta] agrees with the
    matrix exponential to fourth order.  With an antisymmetric coupling
    ([dij[1,0] = -dij[0,1]], as [Calc_dij_force] returns it) the norm of the
    amplitude changes by exactly [- h^6/72 |L^3 c|^2 + h^8/576 |L^4 c|^2]. *)

From Stdlib Require Import Reals Lra Factorial.
From S2P Require Import Prelude Cplx.
Open Scope R_scope.

(** ** The right-hand side (lines 25-55) *)

Definition Coefficient_DiffEqu (R_dot : R) (cstate : CVec2) (Eig : R * R) (dij : Mat2) : CVec2 :=
  let mi := Copp Ci in
  let combine :=
    mkCM (RtoC (fst Eig)) (Cmul (Cmul mi (RtoC R_dot)) (RtoC (m10 dij)))
         (Cmul (Cmul mi (RtoC R_dot)) (RtoC (m01 dij))) (RtoC (snd Eig)) in
  cv_scale mi (cv_dot_cm cstate combine).

(** ** One RK4 step (lines 58-98) *)

Definition Fourth_RungeKutta (R_dot : R) (cstate : CVec2) (Eig : R * R) (dij : Mat2)
    (t_step : R) : CVec2 :=
  let cstate_1 := cstate in
  let c_dot_1 := Coefficient_DiffEqu R_dot cstate_1 Eig dij in
  let K_1 := cv_scaleR t_step c_dot_1 in
  let cstate_2 := cv_add cstate_1 (cv_divR K_1 2) in
  let c_dot_2 := Coefficient_DiffEqu R_dot cstate_2 Eig dij in
  let K_2 := cv_scaleR t_step c_dot_2 in
  let cstate_3 := cv_add cstate_1 (cv_divR K_2 2) in
  let c_dot_3 := Coefficient_DiffEqu R_dot cstate_3 Eig dij in
  let K_3 := cv_scaleR t_step c_dot_3 in
  let cstate_4 := cv_add cstate_1 K_3 in
  let c_dot_4 := Coefficient_DiffEqu R_dot cstate_4 Eig dij in
  let K_4 := cv_scaleR t_step c_dot_4 in
  cv_add cstate_1 (cv_divR (cv_add (cv_add (cv_add K_1 (cv_scaleR 2 K_2)) (cv_scaleR 2 K_3)) K_4) 6).

(** ** The reference: the truncated exponential series *)

Fixpoint iter (n : nat) (f : CVec2 -> CVec2) (c : CVec2) : CVec2 :=
  match n with O => c | S k => f (iter k f c) end.

(** [exp_taylor n f h c = sum_{k=0}^{n} h^k / k! * f^k c]. *)
Fixpoint exp_taylor (n : nat) (f : CVec2 -> CVec2) (h : R) (c : CVec2) : CVec2 :=
  match n with
  | O => c
  | S k => cv_add (exp_taylor k f h c) (cv_scaleR (h ^ n / INR (fact n)) (iter n f c))
  end.

Lemma cv_divR_scaleR v r : cv_divR v r = cv_scaleR (/ r) v.
Proof. cplx_ext; unfold Rdiv; ring. Qed.

Section RK4Linear.

  (** Any right-hand side that is linear over the reals. *)
Variable f : CVec2 -> CVec2.
Hypothesis f_add : forall u v, f (cv_add u v) = cv_add (f u) (f v).
Hypothesis f_scaleR : forall r u, f (cv_scaleR r u) = cv_scaleR r (f u).

  (** The RK4 step of [Fourth_RungeKutta] with [f] for [Coefficient_DiffEqu]. *)
Definition rk4 (h : R) (c : CVec2) : CVec2 :=
    let K_1 := cv_scaleR h (f c) in
    let K_2 := cv_scaleR h (f (cv_add c (cv_divR K_1 2))) in
    let K_3 := cv_scaleR h (f (cv_add c (cv_divR K_2 2))) in
    let K_4 := cv_scaleR h (f (cv_add c K_3)) in
    cv_add c (cv_divR (cv_add (cv_add (cv_add K_1 (cv_scaleR 2 K_2)) (cv_scaleR 2 K_3)) K_4) 6).

Lemma rk4_taylor h c : rk4 h c = exp_taylor 4 f h c.
  Proof.
    unfold rk4; cbn [exp_taylor iter fact INR Nat.mul Nat.add].
    rewrite !cv_divR_scaleR.
    repeat (rewrite ?f_add, ?f_scaleR).
    generalize (f c) (f (f c)) (f (f (f c))) (f (f (f (f c)))).
    intros x1 x2 x3 x4.
    cplx_ext; field.
  Qed.

End RK4Linear.

(** ** Linearity of the right-hand side *)

Lemma Coefficient_DiffEqu_add R_dot Eig dij u v :
  Coefficient_DiffEqu R_dot (cv_add u v) Eig dij =
  cv_add (Coefficient_DiffEqu R_dot u Eig dij) (Coefficient_DiffEqu R_dot v Eig dij).
Proof. unfold Coefficient_DiffEqu; cplx_ext; ring. Qed.

Lemma Coefficient_DiffEqu_scaleR R_dot Eig dij r u :
  Coefficient_DiffEqu R_dot (cv_scaleR r u) Eig dij =
  cv_scaleR r (Coefficient_DiffEqu R_dot u Eig dij).
Proof. unfold Coefficient_DiffEqu; cplx_ext; ring. Qed.

(** [Fourth_RungeKutta] is the generic step at [Coefficient_DiffEqu]. *)
Lemma Fourth_RungeKutta_rk4 R_dot c Eig dij h :
  Fourth_RungeKutta R_dot c Eig dij h = rk4 (fun v => Coefficient_DiffEqu R_dot v Eig dij) h c.
Proof. reflexivity. Qed.

Lemma Fourth_RungeKutta_exp_taylor R_dot c Eig dij h :
  Fourth_RungeKutta R_dot c Eig dij h =
  exp_taylor 4 (fun v => Coefficient_DiffEqu R_dot v Eig dij) h c.
Proof.
  rewrite Fourth_RungeKutta_rk4; apply rk4_taylor;
    [apply Coefficient_DiffEqu_add | apply Coefficient_DiffEqu_scaleR].
Qed.

(** C3.  One step of [Fourth_RungeKutta] with step [h] maps [c] to
    [c + h L c + h^2/2 L^2 c + h^3/6 L^3 c + h^4/24 L^4 c], where [L] is the
    frozen right-hand side [Coefficient_DiffEqu]: the fourth-order truncation
    of the exact solution [exp(h L) c] of the linear amplitude equation. *)
Theorem Fourth_RungeKutta_taylor R_dot c Eig dij h :
  Fourth_RungeKutta R_dot c Eig dij h =
  exp_taylor 4 (fun v => Coefficient_DiffEqu R_dot v Eig dij) h c.
Proof. apply Fourth_RungeKutta_exp_taylor. Qed.

(** ** Norm drift *)

(** The real inner product [Re <u, v>] of two amplitudes. *)
Definition cv_ip (u v : CVec2) : R :=
  re (cv0 u) * re (cv0 v) + im (cv0 u) * im (cv0 v) +
  re (cv1 u) * re (cv1 v) + im (cv1 u) * im (cv1 v).

Lemma cv_norm2_ip v : cv_norm2 v = cv_ip v v.
Proof. unfold cv_norm2, Cnorm2, cv_ip; ring. Qed.

Lemma cv_ip_add_l u v w : cv_ip (cv_add u v) w = cv_ip u w + cv_ip v w.
Proof. unfold cv_ip; cbn; ring. Qed.

Lemma cv_ip_add_r u v w : cv_ip u (cv_add v w) = cv_ip u v + cv_ip u w.
Proof. unfold cv_ip; cbn; ring. Qed.

Lemma cv_ip_scale_l r u v : cv_ip (cv_scaleR r u) v = r * cv_ip u v.
Proof. unfold cv_ip; cbn; ring. Qed.

Lemma cv_ip_scale_r r u v : cv_ip u (cv_scaleR r v) = r * cv_ip u v.
Proof. unfold cv_ip; cbn; ring. Qed.

#[export] Hint Rewrite cv_ip_add_l cv_ip_add_r cv_ip_scale_l cv_ip_scale_r : fssh_rw.

Section NormDrift.

  (** A right-hand side that is skew-adjoint for [Re <.,.>], as [-i H] is
      for a Hermitian [H]. *)
Variable f : CVec2 -> CVec2.
Hypothesis f_skew : forall u v, cv_ip (f u) v = - cv_ip u (f v).

  (** The truncated exponential of a skew-adjoint generator changes the norm
      by [- h^6/72 |f^3 c|^2 + h^8/576 |f^4 c|^2] exactly. *)
Lemma exp_taylor4_norm h c :
    cv_norm2 (exp_taylor 4 f h c) =
    cv_norm2 c - h ^ 6 / 72 * cv_norm2 (iter 3 f c) + h ^ 8 / 576 * cv_norm2 (iter 4 f c).
  Proof.
    rewrite !cv_norm2_ip; cbn [exp_taylor iter fact INR Nat.mul Nat.add].
    autorewrite with fssh_rw.
    repeat rewrite f_skew.
    field.
  Qed.

End NormDrift.

(** With an antisymmetric coupling the generator of [Coefficient_DiffEqu] is
    [-i] times a Hermitian matrix, hence skew-adjoint. *)
Lemma Coefficient_DiffEqu_skew R_dot Eig dij :
  m10 dij = - m01 dij ->
  forall u v, cv_ip (Coefficient_DiffEqu R_dot u Eig dij) v =
              - cv_ip u (Coefficient_DiffEqu R_dot v Eig dij).
Proof. intros Hd u v; unfold cv_ip, Coefficient_DiffEqu; cbn; rewrite Hd; ring. Qed.

(** C15.  With an antisymmetric coupling, one [Fourth_RungeKutta] step of
    size [h] changes the squared norm [|c_1|^2 + |c_2|^2] of the amplitude by
    exactly [- h^6/72 |L^3 c|^2 + h^8/576 |L^4 c|^2]: the drift is of sixth
    order in the step and is not renormalised. *)
Theorem Fourth_RungeKutta_norm R_dot c Eig dij h :
  m10 dij = - m01 dij ->
  cv_norm2 (Fourth_RungeKutta R_dot c Eig dij h) =
  cv_norm2 c
  - h ^ 6 / 72 * cv_norm2 (iter 3 (fun v => Coefficient_DiffEqu R_dot v Eig dij) c)
  + h ^ 8 / 576 * cv_norm2 (iter 4 (fun v => Coefficient_DiffEqu R_dot v Eig dij) c).
Proof.
  intros Hd; rewrite Fourth_RungeKutta_exp_taylor.
  apply exp_taylor4_norm, Coefficient_DiffEqu_skew, Hd.
Qed.

(** ** Norm drift over many steps *)

(** The squared Frobenius norm of the frozen matrix [combine]. *)
Definition combine_norm2 (R_dot : R) (Eig : R * R) (dij : Mat2) : R :=
  fst Eig ^ 2 + snd Eig ^ 2 + R_dot ^ 2 * (m01 dij ^ 2 + m10 dij ^ 2).

(** The generator is bounded by the Frobenius norm of [combine]. *)
Lemma Coefficient_DiffEqu_bound R_dot Eig dij c :
  cv_norm2 (Coefficient_DiffEqu R_dot c Eig dij) <= combine_norm2 R_dot Eig dij * cv_norm2 c.
Proof.
  unfold Coefficient_DiffEqu; rewrite cv_norm2_scale_unit by (unfold Cnorm2; cbn; ring).
  unfold cv_dot_cm, cv_norm2 at 1; cbn [cv0 cv1 cm00 cm01 cm10 cm11].
  eapply Rle_trans; [apply Rplus_le_compat; apply Cnorm2_cauchy_schwarz |].
  right; unfold combine_norm2, cv_norm2, Cnorm2; cbn; ring.
Qed.

Section NormBound.

  (** A skew-adjoint generator [f] with [|f x|^2 <= w2 |x|^2]. *)
Variable f : CVec2 -> CVec2.
Hypothesis f_skew : forall u v, cv_ip (f u) v = - cv_ip u (f v).
Variable w2 : R.
Hypothesis f_bound : forall x, cv_norm2 (f x) <= w2 * cv_norm2 x.

Lemma bound_nonneg : 0 <= w2.
Proof.
  set (e := mkCV (mkC 1 0) (mkC 0 0)).
  assert (He : cv_norm2 e = 1) by (unfold cv_norm2, Cnorm2; cbn; ring).
  pose proof (f_bound e) as Hb; pose proof (cv_norm2_nonneg (f e)); rewrite He in Hb; lra.
Qed.

Lemma iter_norm_bound n c : cv_norm2 (iter n f c) <= w2 ^ n * cv_norm2 c.
Proof.
  induction n as [| n IH]; cbn [iter pow]; [lra |].
  eapply Rle_trans; [apply f_bound |]; rewrite Rmult_assoc.
  apply Rmult_le_compat_l; [apply bound_nonneg | exact IH].
Qed.

  (** For [h^2 w2 <= 8] one step of the truncated exponential does not
      increase the norm, and decreases it by at most [h^6/72 w2^3 |c|^2]. *)
Lemma exp_taylor4_step_bounds h c :
    h ^ 2 * w2 <= 8 ->
    cv_norm2 (exp_taylor 4 f h c) <= cv_norm2 c /\
    cv_norm2 c - cv_norm2 (exp_taylor 4 f h c) <= h ^ 6 / 72 * w2 ^ 3 * cv_norm2 c.
  Proof.
    intros Hh; rewrite (exp_taylor4_norm f f_skew); change (iter 4 f c) with (f (iter 3 f c)).
    pose proof (f_bound (iter 3 f c)); pose proof (iter_norm_bound 3 c).
    pose proof (cv_norm2_nonneg (iter 3 f c)); pose proof (cv_norm2_nonneg (f (iter 3 f c))).
    pose proof (pow2_ge_0 h); pose proof (pow2_ge_0 (h ^ 3)); pose proof (pow2_ge_0 (h ^ 4)).
    replace ((h ^ 3) ^ 2) with (h ^ 6) in * by ring; replace ((h ^ 4) ^ 2) with (h ^ 8) in * by ring.
    assert (h ^ 2 * cv_norm2 (f (iter 3 f c)) <= 8 * cv_norm2 (iter 3 f c)) by nra.
    replace (h ^ 8) with (h ^ 6 * h ^ 2) by ring.
    split; nra.
  Qed.

End NormBound.

(** Norm bounds of a step accumulate linearly over [n] steps. *)
Lemma iter_drift (g : CVec2 -> CVec2) k n c :
  0 <= k -> (forall x, cv_norm2 (g x) <= cv_norm2 x) ->
  (forall x, cv_norm2 x - cv_norm2 (g x) <= k * cv_norm2 x) ->
  cv_norm2 (iter n g c) <= cv_norm2 c /\
  cv_norm2 c - cv_norm2 (iter n g c) <= INR n * k * cv_norm2 c.
Proof.
  intros Hk Hle Hd; induction n as [| n [IH1 IH2]]; cbn [iter]; [cbn; lra |].
  rewrite S_INR; pose proof (Hle (iter n g c)); pose proof (Hd (iter n g c)).
  pose proof (cv_norm2_nonneg (iter n g c)); split; nra.
Qed.

(** C16.  With an antisymmetric coupling and a time step with
    [h^2 ||combine||_F^2 <= 8], [n] steps of [Fourth_RungeKutta] never
    increase [|c_1|^2 + |c_2|^2], and the total loss after the elapsed time
    [n h] is at most [n h * h^5/72 * ||combine||_F^6 * |c|^2]: the drift
    is bounded and, for a fixed elapsed time, vanishes like [h^5]. *)
Theorem Fourth_RungeKutta_drift R_dot Eig dij h n c :
  m10 dij = - m01 dij -> h ^ 2 * combine_norm2 R_dot Eig dij <= 8 ->
  let c_n := iter n (fun v => Fourth_RungeKutta R_dot v Eig dij h) c in
  cv_norm2 c_n <= cv_norm2 c /\
  cv_norm2 c - cv_norm2 c_n <= INR n * h * (h ^ 5 / 72 * combine_norm2 R_dot Eig dij ^ 3) * cv_norm2 c.
Proof.
  intros Hd Hh c_n; unfold c_n.
  replace (INR n * h * (h ^ 5 / 72 * combine_norm2 R_dot Eig dij ^ 3))
    with (INR n * (h ^ 6 / 72 * combine_norm2 R_dot Eig dij ^ 3)) by field.
  pose proof (Coefficient_DiffEqu_skew R_dot Eig dij Hd) as Hs.
  pose proof (Coefficient_DiffEqu_bound R_dot Eig dij) as Hb.
  apply iter_drift; [| intros x; rewrite Fourth_RungeKutta_exp_taylor ..];
    [| apply (exp_taylor4_step_bounds _ Hs _ Hb _ _ Hh) ..].
  pose proof (bound_nonneg _ _ Hb).
  replace (h ^ 6 / 72) with ((h ^ 3) ^ 2 * / 72) by field.
  apply Rmult_le_pos; [apply Rmult_le_pos; auto with fssh; lra | apply pow_le; lra].
Qed.

(** ** The sign convention of the coupling *)

(** Flipping the phase of the second adiabatic state: [c_2 -> -c_2]. *)
Definition gauge_flip (c : CVec2) : CVec2 := mkCV (cv0 c) (Copp (cv1 c)).

Lemma gauge_flip_norm2 c : cv_norm2 (gauge_flip c) = cv_norm2 c.
Proof. unfold cv_norm2, Cnorm2; cbn; ring. Qed.

Lemma Coefficient_DiffEqu_gauge R_dot c Eig dij :
  Coefficient_DiffEqu R_dot (gauge_flip c) Eig (m2_opp dij) =
  gauge_flip (Coefficient_DiffEqu R_dot c Eig dij).
Proof. unfold Coefficient_DiffEqu, gauge_flip, m2_opp, m2_scale; cplx_ext; cbn [m00 m01 m10 m11]; ring. Qed.

Lemma gauge_flip_add u v : gauge_flip (cv_add u v) = cv_add (gauge_flip u) (gauge_flip v).
Proof. unfold gauge_flip; cplx_ext; ring. Qed.

Lemma gauge_flip_scaleR r u : gauge_flip (cv_scaleR r u) = cv_scaleR r (gauge_flip u).
Proof. unfold gauge_flip; cplx_ext; ring. Qed.

Lemma gauge_flip_divR u r : gauge_flip (cv_divR u r) = cv_divR (gauge_flip u) r.
Proof. unfold gauge_flip; cplx_ext; unfold Rdiv; ring. Qed.

(** With the opposite sign of the coupling (the gap written
    [eig[1] - eig[0]] instead of [eig[0] - eig[1]]), [Fourth_RungeKutta]
    computes the same amplitudes up to the sign of [c_2]. *)
Lemma Fourth_RungeKutta_gauge R_dot c Eig dij h :
  Fourth_RungeKutta R_dot (gauge_flip c) Eig (m2_opp dij) h =
  gauge_flip (Fourth_RungeKutta R_dot c Eig dij h).
Proof.
  unfold Fourth_RungeKutta.
  repeat (rewrite <- ?gauge_flip_divR, <- ?gauge_flip_scaleR, <- ?gauge_flip_add,
                  ?Coefficient_DiffEqu_gauge).
  reflexivity.
Qed.

(** ** Witnesses *)

Lemma Fourth_RungeKutta_norm_witness :
  let L := fun v => Coefficient_DiffEqu 1 v (0, 1) (mkMat2 0 1 (-1) 0) in
  m10 (mkMat2 0 1 (-1) 0) = - m01 (mkMat2 0 1 (-1) 0) /\
  cv_norm2 (Fourth_RungeKutta 1 (mkCV (mkC 1 0) (mkC 0 0)) (0, 1) (mkMat2 0 1 (-1) 0) 1) =
  cv_norm2 (mkCV (mkC 1 0) (mkC 0 0)) - 1 ^ 6 / 72 * cv_norm2 (iter 3 L (mkCV (mkC 1 0) (mkC 0 0)))
  + 1 ^ 8 / 576 * cv_norm2 (iter 4 L (mkCV (mkC 1 0) (mkC 0 0))).
Proof.
  assert (H : m10 (mkMat2 0 1 (-1) 0) = - m01 (mkMat2 0 1 (-1) 0)) by (cbn; ring).
  split; [exact H | apply (Fourth_RungeKutta_norm 1 _ (0, 1) _ 1 H)].
Defined.

Lemma Fourth_RungeKutta_drift_witness :
  m10 (mkMat2 0 1 (-1) 0) = - m01 (mkMat2 0 1 (-1) 0) /\
  1 ^ 2 * combine_norm2 1 (0, 1) (mkMat2 0 1 (-1) 0) <= 8 /\
  let c_n := iter 2 (fun v => Fourth_RungeKutta 1 v (0, 1) (mkMat2 0 1 (-1) 0) 1) (mkCV (mkC 1 0) (mkC 0 0)) in
  cv_norm2 c_n <= cv_norm2 (mkCV (mkC 1 0) (mkC 0 0)) /\
  cv_norm2 (mkCV (mkC 1 0) (mkC 0 0)) - cv_norm2 c_n <=
  INR 2 * 1 * (1 ^ 5 / 72 * combine_norm2 1 (0, 1) (mkMat2 0 1 (-1) 0) ^ 3) * cv_norm2 (mkCV (mkC 1 0) (mkC 0 0)).
Proof.
  assert (H1 : m10 (mkMat2 0 1 (-1) 0) = - m01 (mkMat2 0 1 (-1) 0)) by (cbn; ring).
  assert (H2 : 1 ^ 2 * combine_norm2 1 (0, 1) (mkMat2 0 1 (-1) 0) <= 8)
    by (unfold combine_norm2; cbn; lra).
  split; [exact H1 | split; [exact H2 | apply (Fourth_RungeKutta_drift 1 (0, 1) _ 1 2 _ H1 H2)]].
Defined.
