(* ===== verification/Hopping.v ===== *)
(** * The hop decision: [HoppingProbability] of [src/FSSH.py/hopping_probability.py]

    [HoppingProbability] (lines 26-73) builds the density matrix
    [a[k,j] = c_k * conj(c_j)] and
    [b = 2 * (Im(conj(a) * Eig_) - R_dot * Re(conj(a) * dij))] (entrywise
    products, [Eig_ = diag(Eig)]), draws [rnd = random.random()], and
    - in state 1, if [0.5 * mass * R_dot**2 > gap] (the frustrated-hop gate),
      hops to state 2 when [t_step * b[1,0] / a[0,0].real > rnd];
    - in state 2, hops to state 1 when [t_step * b[0,1] / a[1,1].real > rnd];
    - on a hop, rescales [R_dot] to
      [sign(R_dot) * sqrt(2/mass * (Eig[nstate-1] - Eig[newstate-1] + 0.5*mass*R_dot**2))].
    The draw is the argument [rnd]; [Eig[i]] is [py_get2], so the model
    returns [None] where Python would raise [IndexError].

    The theorems: for an active state in [{1, 2}] the decision never raises
    and keeps the state in [{1, 2}]; the decision in each state is Tully's
    fewest-switches rule with [g = -2 dt R_dot Re(a_jk) d_jk / a_kk]; the
    frustrated-hop gate forbids every upward hop without enough kinetic
    energy whatever the draw; a hop conserves [0.5 m R_dot^2 + E_active]
    exactly and keeps the direction of motion (downward hops are never
    frustrated, since the gap of ascending energies is nonnegative); no hop
    happens at rest; and the decision is invariant under the opposite sign
    convention of the coupling together with the sign of [c_2]. *)

From Stdlib Require Import Reals Lra ZArith.
From S2P Require Import Prelude Cplx RungeKutta.
Open Scope R_scope.

(** ** The quantities of the decision *)

(** Kinetic energy along the coordinate, as the source writes it. *)
Definition kinetic (mass R_dot : R) : R := 0.5 * mass * R_dot ^ 2.

(** Tully's hopping probabilities [g_12] (from state 1) and [g_21]. *)
Definition prob_up (R_dot : R) (c : CVec2) (dij : Mat2) (t_step : R) : R :=
  t_step * (-2 * R_dot * (re (Cmul (cv1 c) (Cconj (cv0 c))) * m10 dij)) / Cnorm2 (cv0 c).

Definition prob_down (R_dot : R) (c : CVec2) (dij : Mat2) (t_step : R) : R :=
  t_step * (-2 * R_dot * (re (Cmul (cv0 c) (Cconj (cv1 c))) * m01 dij)) / Cnorm2 (cv1 c).

(** The rescaled velocity after a hop from energy [e_old] to [e_new]. *)
Definition rescaled (mass R_dot e_old e_new : R) : R :=
  np_sign R_dot * sqrt (2 / mass * (e_old - e_new + 0.5 * mass * R_dot ^ 2)).

Definition HoppingProbability (R_dot : R) (nstate : Z) (cstate : CVec2) (mass : R)
    (Eig : R * R) (dij : Mat2) (t_step : R) (rnd : R) : option (Z * R) :=
  let a := cv_outer_conj cstate in
  let Eig_ := m2_diag (fst Eig) (snd Eig) in
  let b := m2_scale 2 (m2_sub (cm_im (cm_mul_elem (cm_conj a) Eig_))
                              (m2_scale R_dot (cm_re (cm_mul_elem (cm_conj a) dij)))) in
  let gap := snd Eig - fst Eig in
  let newstate :=
    if (Z.eqb nstate 1 && Rltb gap (kinetic mass R_dot))%bool then
      let prob_hop := t_step * m10 b / re (cm00 a) in
      if Rltb rnd prob_hop then Some 2%Z else None
    else if Z.eqb nstate 2 then
      let prob_hop := t_step * m01 b / re (cm11 a) in
      if Rltb rnd prob_hop then Some 1%Z else None
    else None in
  match newstate with
  | Some ns =>
      match py_get2 Eig (nstate - 1), py_get2 Eig (ns - 1) with
      | Some e_old, Some e_new =>
          if Req_dec_T mass 0 then None else Some (ns, rescaled mass R_dot e_old e_new)
      | _, _ => None
      end
  | None => Some (nstate, R_dot)
  end.

(** The entries of [a] and [b] that the decision reads. *)
Lemma hop_b10 R_dot c E0 E1 dij :
  m10 (m2_scale 2 (m2_sub (cm_im (cm_mul_elem (cm_conj (cv_outer_conj c)) (m2_diag E0 E1)))
                          (m2_scale R_dot (cm_re (cm_mul_elem (cm_conj (cv_outer_conj c)) dij))))) =
  -2 * R_dot * (re (Cmul (cv1 c) (Cconj (cv0 c))) * m10 dij).
Proof. cbn; ring. Qed.

Lemma hop_b01 R_dot c E0 E1 dij :
  m01 (m2_scale 2 (m2_sub (cm_im (cm_mul_elem (cm_conj (cv_outer_conj c)) (m2_diag E0 E1)))
                          (m2_scale R_dot (cm_re (cm_mul_elem (cm_conj (cv_outer_conj c)) dij))))) =
  -2 * R_dot * (re (Cmul (cv0 c) (Cconj (cv1 c))) * m01 dij).
Proof. cbn; ring. Qed.

Lemma hop_a_diag c :
  re (cm00 (cv_outer_conj c)) = Cnorm2 (cv0 c) /\ re (cm11 (cv_outer_conj c)) = Cnorm2 (cv1 c).
Proof. unfold Cnorm2; cbn; split; ring. Qed.

(** Unfold the decision and put its probabilities in closed form. *)
Ltac hop_unfold :=
  unfold HoppingProbability; cbv zeta;
  rewrite hop_b10, hop_b01, (proj1 (hop_a_diag _)), (proj2 (hop_a_diag _));
  unfold prob_up, prob_down.

(** The decision in state 1, in closed form. *)
Lemma hop_state1 R_dot c mass Eig dij t_step rnd :
  HoppingProbability R_dot 1 c mass Eig dij t_step rnd =
  if (Rltb (snd Eig - fst Eig) (kinetic mass R_dot) && Rltb rnd (prob_up R_dot c dij t_step))%bool
  then (if Req_dec_T mass 0 then None else Some (2%Z, rescaled mass R_dot (fst Eig) (snd Eig)))
  else Some (1%Z, R_dot).
Proof.
  hop_unfold; cbn [Z.eqb Pos.eqb andb].
  destruct (Rltb (snd Eig - fst Eig) (kinetic mass R_dot)); cbn [andb]; [|reflexivity].
  destruct (Rltb rnd _); reflexivity.
Qed.

(** The decision in state 2, in closed form. *)
Lemma hop_state2 R_dot c mass Eig dij t_step rnd :
  HoppingProbability R_dot 2 c mass Eig dij t_step rnd =
  if Rltb rnd (prob_down R_dot c dij t_step)
  then (if Req_dec_T mass 0 then None else Some (1%Z, rescaled mass R_dot (snd Eig) (fst Eig)))
  else Some (2%Z, R_dot).
Proof. hop_unfold; cbn [Z.eqb Pos.eqb andb]; destruct (Rltb rnd _); reflexivity. Qed.

(** C20.  In state 1, [HoppingProbability] hops to state 2 exactly when the
    kinetic energy exceeds the gap [Eig[1] - Eig[0]] and the draw is below
    Tully's probability [g_12 = dt * (-2 R_dot Re(a_21) d_21) / |c_1|^2]
    (the [b[1,0] / a[0,0]] of the code); it then returns the rescaled
    velocity, and otherwise state 1 with [R_dot] unchanged. *)
Theorem HoppingProbability_state1 R_dot c mass Eig dij t_step rnd :
  HoppingProbability R_dot 1 c mass Eig dij t_step rnd =
  if (Rltb (snd Eig - fst Eig) (kinetic mass R_dot) && Rltb rnd (prob_up R_dot c dij t_step))%bool
  then (if Req_dec_T mass 0 then None else Some (2%Z, rescaled mass R_dot (fst Eig) (snd Eig)))
  else Some (1%Z, R_dot).
Proof. apply hop_state1. Qed.

(** C29.  In state 2, [HoppingProbability] hops to state 1 exactly when the
    draw is below [g_21 = dt * (-2 R_dot Re(a_12) d_12) / |c_2|^2], with no
    kinetic-energy gate, and returns the rescaled velocity; otherwise state
    2 with [R_dot] unchanged. *)
Theorem HoppingProbability_state2 R_dot c mass Eig dij t_step rnd :
  HoppingProbability R_dot 2 c mass Eig dij t_step rnd =
  if Rltb rnd (prob_down R_dot c dij t_step)
  then (if Req_dec_T mass 0 then None else Some (1%Z, rescaled mass R_dot (snd Eig) (fst Eig)))
  else Some (2%Z, R_dot).
Proof. apply hop_state2. Qed.

(** Any other integer keeps its state and velocity. *)
Lemma HoppingProbability_other R_dot n c mass Eig dij t_step rnd :
  n <> 1%Z -> n <> 2%Z -> HoppingProbability R_dot n c mass Eig dij t_step rnd = Some (n, R_dot).
Proof.
  intros H1 H2; unfold HoppingProbability; cbv zeta.
  rewrite (proj2 (Z.eqb_neq n 1) H1), (proj2 (Z.eqb_neq n 2) H2); reflexivity.
Qed.

(** ** Lemmas on the probabilities and the rescaling *)

Lemma prob_up_rest c dij t_step : prob_up 0 c dij t_step = 0.
Proof. unfold prob_up, Rdiv; ring. Qed.

Lemma prob_down_rest c dij t_step : prob_down 0 c dij t_step = 0.
Proof. unfold prob_down, Rdiv; ring. Qed.

(** A draw in [[0, 1)] is below a probability only if the probability is
    positive, hence only if the particle moves. *)
Lemma hop_needs_motion rnd p R_dot :
  0 <= rnd -> Rltb rnd p = true -> (R_dot = 0 -> p = 0) -> R_dot <> 0.
Proof. intros H0 Hlt Hp HR; apply Rltb_true in Hlt; rewrite (Hp HR) in Hlt; lra. Qed.

(** The rescaled velocity conserves [kinetic + potential] and keeps the
    direction of motion, as long as the energy left for motion is positive. *)
Lemma rescaled_energy mass R_dot e_old e_new :
  0 < mass -> R_dot <> 0 -> 0 < e_old - e_new + kinetic mass R_dot ->
  kinetic mass (rescaled mass R_dot e_old e_new) + e_new = kinetic mass R_dot + e_old /\
  0 < rescaled mass R_dot e_old e_new * R_dot.
Proof.
  unfold kinetic, rescaled; intros Hm HR Hpos.
  assert (Harg : 0 < 2 / mass * (e_old - e_new + 0.5 * mass * R_dot ^ 2))
    by (apply Rmult_lt_0_compat; [apply Rdiv_lt_0_compat|]; lra).
  set (arg := 2 / mass * _) in *.
  split.
  - replace ((np_sign R_dot * sqrt arg) ^ 2) with (np_sign R_dot * np_sign R_dot * (sqrt arg * sqrt arg))
      by ring.
    rewrite np_sign_sqr, sqrt_sqrt by lra; unfold arg; rewrite R_half; field; lra.
  - replace (np_sign R_dot * sqrt arg * R_dot) with (np_sign R_dot * R_dot * sqrt arg) by ring.
    rewrite np_sign_mul_self; apply Rmult_lt_0_compat; [apply Rabs_pos_lt, HR | apply sqrt_lt_R0, Harg].
Qed.

Lemma kinetic_pos mass R_dot : 0 < mass -> R_dot <> 0 -> 0 < kinetic mass R_dot.
Proof. unfold kinetic; intros Hm HR; pose proof (Rsqr_pos_lt R_dot HR); unfold Rsqr in *; nra. Qed.

(** ** Properties of the decision *)

(** The decision of an active state 1 or 2 succeeds with an active state. *)
Lemma hop_active R_dot n c mass Eig dij t_step rnd :
  mass <> 0 -> (n = 1 \/ n = 2)%Z ->
  exists n' v, HoppingProbability R_dot n c mass Eig dij t_step rnd = Some (n', v) /\
               (n' = 1 \/ n' = 2)%Z.
Proof.
  intros Hm [-> | ->]; [rewrite hop_state1 | rewrite hop_state2];
    match goal with |- context [if ?b then _ else Some _] => destruct b end;
    try destruct (Req_dec_T mass 0); try contradiction; eauto.
Qed.

(** C10.  When the active state is 1 or 2 and the mass is nonzero,
    [HoppingProbability] never raises ([IndexError] at [Eig[newstate-1]],
    [ZeroDivisionError] at [2.0 / mass]) and returns an active state that is again 1 or 2,
    whatever the amplitudes, energies, coupling and draw. *)
Theorem HoppingProbability_total R_dot n c mass Eig dij t_step rnd :
  mass <> 0 -> (n = 1 \/ n = 2)%Z ->
  exists n' v, HoppingProbability R_dot n c mass Eig dij t_step rnd = Some (n', v) /\
               (n' = 1 \/ n' = 2)%Z.
Proof. apply hop_active. Qed.

(** C2.  Frustrated hop: in state 1, when the kinetic energy
    [0.5 * mass * R_dot**2] does not exceed the gap [Eig[1] - Eig[0]], no hop
    happens and the velocity is unchanged, whatever the draw. *)
Theorem HoppingProbability_frustrated R_dot c mass Eig dij t_step rnd :
  kinetic mass R_dot <= snd Eig - fst Eig ->
  HoppingProbability R_dot 1 c mass Eig dij t_step rnd = Some (1%Z, R_dot).
Proof.
  intros Hk; rewrite hop_state1.
  replace (Rltb (snd Eig - fst Eig) (kinetic mass R_dot)) with false
    by (symmetry; apply Rltb_false; lra); reflexivity.
Qed.

(** Case analysis on the branches of a closed form of the decision in [H]. *)
Ltac hop_cases H :=
  repeat match type of H with context [if ?b then _ else _] => destruct b end; try discriminate H.

(** A hop conserves [kinetic + potential] and keeps the direction of motion. *)
Lemma hop_energy R_dot n c mass Eig dij t_step rnd n' v :
  0 < mass -> fst Eig <= snd Eig -> 0 <= rnd ->
  HoppingProbability R_dot n c mass Eig dij t_step rnd = Some (n', v) -> n' <> n ->
  exists e e', py_get2 Eig (n - 1) = Some e /\ py_get2 Eig (n' - 1) = Some e' /\
               kinetic mass v + e' = kinetic mass R_dot + e /\ 0 < v * R_dot.
Proof.
  intros Hm HE Hr Hhop Hne.
  destruct (Z.eq_dec n 1) as [-> | H1]; [| destruct (Z.eq_dec n 2) as [-> | H2]].
  - rewrite hop_state1, (if_Req_neq mass 0) in Hhop by lra.
    destruct (Rltb (snd Eig - fst Eig) (kinetic mass R_dot)) eqn:Hg; cbn [andb] in Hhop;
      [destruct (Rltb rnd _) eqn:Hp |]; injection Hhop as <- <-; try congruence.
    apply Rltb_true in Hg; pose proof (hop_needs_motion _ _ R_dot Hr Hp) as HR.
    exists (fst Eig), (snd Eig); cbn; do 2 (split; [reflexivity |]).
    apply rescaled_energy; [exact Hm | apply HR; intros ->; apply prob_up_rest | lra].
  - rewrite hop_state2, (if_Req_neq mass 0) in Hhop by lra.
    destruct (Rltb rnd _) eqn:Hp; injection Hhop as <- <-; try congruence.
    pose proof (hop_needs_motion _ _ R_dot Hr Hp) as HR.
    exists (snd Eig), (fst Eig); cbn; do 2 (split; [reflexivity |]).
    assert (HR' : R_dot <> 0) by (apply HR; intros ->; apply prob_down_rest).
    apply rescaled_energy; [exact Hm | exact HR' | pose proof (kinetic_pos mass R_dot Hm HR'); lra].
  - rewrite HoppingProbability_other in Hhop by assumption; injection Hhop as <- <-; congruence.
Qed.

(** Without a hop the velocity is unchanged. *)
Lemma hop_stay R_dot n c mass Eig dij t_step rnd v :
  HoppingProbability R_dot n c mass Eig dij t_step rnd = Some (n, v) -> v = R_dot.
Proof.
  destruct (Z.eq_dec n 1) as [-> | H1]; [| destruct (Z.eq_dec n 2) as [-> | H2]].
  - rewrite hop_state1; intros H; hop_cases H; inversion H; auto.
  - rewrite hop_state2; intros H; hop_cases H; inversion H; auto.
  - rewrite HoppingProbability_other by assumption; intros H; injection H; auto.
Qed.

(** C1.  Energy conservation: for a positive mass, ascending energies and a
    draw in [[0,1)], every hop from state [n] to [n'] returns a velocity [v]
    with [0.5 m v^2 + Eig[n'-1] = 0.5 m R_dot^2 + Eig[n-1]] exactly (the
    square root never receives a negative argument, downward hops
    included), and [v] has the direction of [R_dot]. *)
Theorem HoppingProbability_energy R_dot n c mass Eig dij t_step rnd n' v :
  0 < mass -> fst Eig <= snd Eig -> 0 <= rnd ->
  HoppingProbability R_dot n c mass Eig dij t_step rnd = Some (n', v) -> n' <> n ->
  exists e e', py_get2 Eig (n - 1) = Some e /\ py_get2 Eig (n' - 1) = Some e' /\
               kinetic mass v + e' = kinetic mass R_dot + e /\ 0 < v * R_dot.
Proof. apply hop_energy. Qed.

(** C22.  At rest ([R_dot = 0]) no hop happens in any state for any draw in
    [[0,1)]: [b] is proportional to [R_dot], so [np.sign(0) = 0] can never
    zero a rescaled velocity. *)
Theorem HoppingProbability_rest n c mass Eig dij t_step rnd :
  0 <= rnd -> HoppingProbability 0 n c mass Eig dij t_step rnd = Some (n, 0).
Proof.
  intros Hr.
  assert (Hno : forall p, p = 0 -> Rltb rnd p = false) by (intros p ->; apply Rltb_false; lra).
  destruct (Z.eq_dec n 1) as [-> | H1]; [| destruct (Z.eq_dec n 2) as [-> | H2]].
  - rewrite hop_state1, (Hno _ (prob_up_rest _ _ _)), Bool.andb_false_r; reflexivity.
  - rewrite hop_state2, (Hno _ (prob_down_rest _ _ _)); reflexivity.
  - apply HoppingProbability_other; assumption.
Qed.

Lemma prob_up_gauge R_dot c dij t_step :
  prob_up R_dot (gauge_flip c) (m2_opp dij) t_step = prob_up R_dot c dij t_step.
Proof. unfold prob_up, gauge_flip, m2_opp, m2_scale, Cnorm2; cbn; f_equal; ring. Qed.

Lemma prob_down_gauge R_dot c dij t_step :
  prob_down R_dot (gauge_flip c) (m2_opp dij) t_step = prob_down R_dot c dij t_step.
Proof. unfold prob_down, gauge_flip, m2_opp, m2_scale, Cnorm2; cbn; f_equal; ring. Qed.

(** The sign convention of the coupling does not matter: with [dij]
    replaced by [-dij] (the gap written [eig[1] - eig[0]]), one electronic
    RK4 step from [(c_1, -c_2)] gives the same amplitudes up to the sign of
    [c_2], and the hop decision on them is the same for every state, draw
    and step; populations [|c_k|^2] are unchanged. *)
Theorem electronic_step_gauge R_dot c Eig dij h n mass rnd :
  let c' := Fourth_RungeKutta R_dot (gauge_flip c) Eig (m2_opp dij) h in
  c' = gauge_flip (Fourth_RungeKutta R_dot c Eig dij h) /\
  HoppingProbability R_dot n c' mass Eig (m2_opp dij) h rnd =
  HoppingProbability R_dot n (Fourth_RungeKutta R_dot c Eig dij h) mass Eig dij h rnd.
Proof.
  intros c'; unfold c'; rewrite Fourth_RungeKutta_gauge; split; [reflexivity |].
  destruct (Z.eq_dec n 1) as [-> | H1]; [| destruct (Z.eq_dec n 2) as [-> | H2]].
  - rewrite !hop_state1, prob_up_gauge; reflexivity.
  - rewrite !hop_state2, prob_down_gauge; reflexivity.
  - rewrite !HoppingProbability_other by assumption; reflexivity.
Qed.

(** ** Witnesses *)

Definition c_example : CVec2 := mkCV (mkC 1 0) (mkC 1 0).
Definition dij_example : Mat2 := mkMat2 0 (-1) 1 0.

Lemma hop_example :
  HoppingProbability 1 2 c_example 2 (0, 1) dij_example 1 0.5 = Some (1%Z, sqrt 2).
Proof.
  rewrite hop_state2.
  replace (Rltb 0.5 _) with true
    by (symmetry; apply Rltb_true; unfold prob_down, Cnorm2; cbn; lra).
  rewrite (if_Req_neq 2 0) by lra; unfold rescaled; rewrite np_sign_pos by lra; cbn [fst snd].
  do 2 f_equal; replace (2 / 2 * (1 - 0 + 0.5 * 2 * 1 ^ 2)) with 2 by (simpl; lra); ring.
Qed.

Lemma HoppingProbability_energy_witness :
  exists e e', py_get2 (0, 1) (2 - 1) = Some e /\ py_get2 (0, 1) (1 - 1) = Some e' /\
               kinetic 2 (sqrt 2) + e' = kinetic 2 1 + e /\ 0 < sqrt 2 * 1.
Proof.
  apply (HoppingProbability_energy 1 2 c_example 2 (0, 1) dij_example 1 0.5 1 (sqrt 2));
    [lra | simpl; lra | lra | exact hop_example | discriminate].
Defined.

Lemma HoppingProbability_frustrated_witness :
  kinetic 2 (1 / 2) <= snd (0, 1) - fst (0, 1) /\
  HoppingProbability (1 / 2) 1 c_example 2 (0, 1) dij_example 1 0 = Some (1%Z, 1 / 2).
Proof.
  assert (H : kinetic 2 (1 / 2) <= snd (0, 1) - fst (0, 1)) by (unfold kinetic; simpl; lra).
  split; [exact H | apply (HoppingProbability_frustrated (1 / 2) c_example 2 (0, 1) dij_example 1 0 H)].
Defined.

Lemma HoppingProbability_total_witness :
  2 <> 0 /\
  exists n' v, HoppingProbability 1 2 c_example 2 (0, 1) dij_example 1 0.5 = Some (n', v) /\
               (n' = 1 \/ n' = 2)%Z.
Proof.
  assert (H : (2 : R) <> 0) by lra.
  split; [exact H | apply (HoppingProbability_total 1 2 c_example 2 (0, 1) dij_example 1 0.5 H); right; reflexivity].
Defined.

Lemma HoppingProbability_rest_witness :
  HoppingProbability 0 2 c_example 2 (0, 1) dij_example 1 0.5 = Some (2%Z, 0).
Proof. apply HoppingProbability_rest; lra. Defined.
