(* ===== verification/Verlet.v ===== *)
(** * The nuclear step: [VelocityVerlet] of [src/FSSH.py/hopping_probability.py]

    [VelocityVerlet] (lines 75-98) reads the force of the active state
    [force[nstate-1]], moves the particle by [R_dot*dt + 0.5*a*dt^2],
    re-evaluates [Potenial_SAC] and [Calc_dij_force] at the new position
    (always the SAC potential, whatever potential the caller started from),
    reads the new force of the active state and averages the two
    accelerations into the new velocity.  It returns the new position,
    velocity, [V], forces, energies and coupling; the model returns them as a
    [VVResult], and [None] where Python's [force[nstate-1]] would raise.

    [SAC_adiabatic x] is [Calc_dij_force] applied to [Potenial_SAC x], the composition
    that the step (lines 88-89) and the trajectory start ([FSSH.py], lines
    55-56) both perform.

    The theorems: the step never raises for an active state in [{1, 2}]; its
    outputs are the adiabatic data of the new position; and the step is
    time-reversible: started from the new position with the reversed velocity
    and the new forces, it returns exactly to the old position with the
    reversed old velocity.  On the SAC model with the closed-form [eigh],
    the total energy [0.5 m R_dot^2 + Eig[nstate-1]] changes over a step of
    length [D] by at most [L D^2 / 2 + S h^2 / (8 m)] ([VelocityVerlet_energy],
    from the trapezoid lemma of [SACAnalysis]). *)

From Stdlib Require Import Reals Lra ZArith.
From S2P Require Import Prelude PotEig Eigh NACsForce Hopping SACAnalysis.
Open Scope R_scope.
Import PotEig.

(** The tuple [x, R_dot, V, force_t2, Eig, dij] returned by the step. *)
Record VVResult := mkVV {
  vv_x : R; vv_R_dot : R; vv_V : Mat2; vv_force : R * R; vv_Eig : R * R; vv_dij : Mat2 }.

Section Verlet.

Context {E : Eigh}.

(** [V, V_der = Potenial_SAC(p=x); Eig, dij, force = Calc_dij_force(V=V, V_der=V_der)]. *)
Definition SAC_adiabatic (x : R) : (R * R) * Mat2 * (R * R) :=
  let '(V, V_der) := Potenial_SAC x in Calc_dij_force V V_der.

Definition VelocityVerlet (x R_dot mass : R) (force : R * R) (t_step : R) (nstate : Z)
    : option VVResult :=
  match py_get2 force (nstate - 1) with
  | None => None
  | Some f1 =>
      let acc_t1 := f1 / mass in
      let x' := x + R_dot * t_step + 0.5 * acc_t1 * t_step ^ 2 in
      let '(V, V_der) := Potenial_SAC x' in
      let '(Eig, dij, force_t2) := Calc_dij_force V V_der in
      match py_get2 force_t2 (nstate - 1) with
      | None => None
      | Some f2 =>
          let acc_t2 := f2 / mass in
          Some (mkVV x' (R_dot + 0.5 * t_step * (acc_t1 + acc_t2)) V force_t2 Eig dij)
      end
  end.

(** The new position of the step. *)
Definition vv_position (x R_dot mass f1 t_step : R) : R :=
  x + R_dot * t_step + 0.5 * (f1 / mass) * t_step ^ 2.

(** The step in terms of [SAC_adiabatic]. *)
Lemma VelocityVerlet_eq x R_dot mass force t_step nstate :
  VelocityVerlet x R_dot mass force t_step nstate =
  match py_get2 force (nstate - 1) with
  | None => None
  | Some f1 =>
      let x' := vv_position x R_dot mass f1 t_step in
      let '(Eig, dij, force_t2) := SAC_adiabatic x' in
      match py_get2 force_t2 (nstate - 1) with
      | None => None
      | Some f2 =>
          Some (mkVV x' (R_dot + 0.5 * t_step * (f1 / mass + f2 / mass))
                     (fst (Potenial_SAC x')) force_t2 Eig dij)
      end
  end.
Proof.
  unfold VelocityVerlet, SAC_adiabatic, vv_position.
  destruct (py_get2 force (nstate - 1)) as [f1 |]; [| reflexivity]; cbv zeta.
  destruct (Potenial_SAC _) as [V V_der]; destruct (Calc_dij_force V V_der) as [[Eig dij] F2].
  reflexivity.
Qed.

(** Python indexing of a pair at [nstate - 1] succeeds for [nstate] 1 or 2. *)
Lemma py_get2_active {A} (v : A * A) (n : Z) :
  (n = 1 \/ n = 2)%Z -> exists a, py_get2 v (n - 1) = Some a.
Proof. intros [-> | ->]; eexists; reflexivity. Qed.

(** The step succeeds for an active state 1 or 2. *)
Lemma VelocityVerlet_some x R_dot mass force t_step nstate :
  (nstate = 1 \/ nstate = 2)%Z -> exists r, VelocityVerlet x R_dot mass force t_step nstate = Some r.
Proof.
  intros Hn; rewrite VelocityVerlet_eq.
  destruct (py_get2_active force nstate Hn) as [f1 ->]; cbv zeta.
  destruct (SAC_adiabatic _) as [[Eig dij] F2].
  destruct (py_get2_active F2 nstate Hn) as [f2 ->]; eexists; reflexivity.
Qed.

(** Whatever it returns carries the adiabatic data of its new position. *)
Lemma VelocityVerlet_consistent x R_dot mass force t_step nstate r :
  VelocityVerlet x R_dot mass force t_step nstate = Some r ->
  (vv_Eig r, vv_dij r, vv_force r) = SAC_adiabatic (vv_x r).
Proof.
  rewrite VelocityVerlet_eq; destruct (py_get2 force (nstate - 1)); [cbv zeta | discriminate].
  destruct (SAC_adiabatic _) as [[Eig dij] F2] eqn:HA; destruct (py_get2 F2 _); [| discriminate].
  intros H; injection H as <-; cbn; symmetry; exact HA.
Qed.

(** What a successful step computes: the new position and the velocity
    from the two forces of the active state. *)
Lemma VelocityVerlet_result x R_dot mass force t_step nstate r :
  VelocityVerlet x R_dot mass force t_step nstate = Some r ->
  exists f1 f2, py_get2 force (nstate - 1) = Some f1 /\ py_get2 (vv_force r) (nstate - 1) = Some f2 /\
    vv_x r = vv_position x R_dot mass f1 t_step /\
    vv_R_dot r = R_dot + 0.5 * t_step * (f1 / mass + f2 / mass).
Proof.
  rewrite VelocityVerlet_eq; destruct (py_get2 force (nstate - 1)) as [f1 |]; [cbv zeta | discriminate].
  destruct (SAC_adiabatic _) as [[Eig dij] F2]; destruct (py_get2 F2 _) as [f2 |] eqn:H2; [| discriminate].
  intros H; injection H as <-; exists f1, f2; cbn; auto.
Qed.

(** C21.  For an active state 1 or 2, [VelocityVerlet] never raises
    [IndexError], and the energies, coupling and forces it returns are those
    of [Potenial_SAC] at the new position: the next step's electronic
    propagation and hop decision see the adiabatic data of the current
    position (classical-path consistency). *)
Theorem VelocityVerlet_total x R_dot mass force t_step nstate :
  (nstate = 1 \/ nstate = 2)%Z ->
  exists r, VelocityVerlet x R_dot mass force t_step nstate = Some r /\
            (vv_Eig r, vv_dij r, vv_force r) = SAC_adiabatic (vv_x r).
Proof.
  intros Hn; destruct (VelocityVerlet_some x R_dot mass force t_step nstate Hn) as [r Hr].
  exists r; split; [exact Hr | apply (VelocityVerlet_consistent _ _ _ _ _ _ _ Hr)].
Qed.

(** C18.  Time reversibility: if a step from [x] with velocity [R_dot] and
    the forces of [x] lands at [x'] with velocity [R_dot'] and forces [F'],
    then a step from [x'] with velocity [-R_dot'] and forces [F'] lands
    exactly at [x] with velocity [-R_dot] and the forces of [x]. *)
Theorem VelocityVerlet_reversible x R_dot mass t_step nstate r :
  VelocityVerlet x R_dot mass (snd (SAC_adiabatic x)) t_step nstate = Some r ->
  exists r', VelocityVerlet (vv_x r) (- vv_R_dot r) mass (vv_force r) t_step nstate = Some r' /\
             vv_x r' = x /\ vv_R_dot r' = - R_dot /\ vv_force r' = snd (SAC_adiabatic x).
Proof.
  rewrite VelocityVerlet_eq; intros H.
  destruct (SAC_adiabatic x) as [[E0 d0] F0] eqn:HA0; cbn [snd] in H.
  destruct (py_get2 F0 (nstate - 1)) as [f1 |] eqn:H1; [cbv zeta in H | discriminate].
  destruct (SAC_adiabatic (vv_position x R_dot mass f1 t_step)) as [[Eig dij] F2].
  destruct (py_get2 F2 (nstate - 1)) as [f2 |] eqn:H2; [injection H as <- | discriminate].
  rewrite VelocityVerlet_eq; cbn [vv_x vv_R_dot vv_force]; rewrite H2; cbv zeta.
  replace (vv_position _ _ mass f2 t_step) with x by (unfold vv_position; ring).
  rewrite HA0, H1.
  eexists; split; [reflexivity | cbn; split; [reflexivity | split; [ring | reflexivity]]].
Qed.

End Verlet.

(** ** Energy of a step on the SAC model

    With the closed-form [eigh] the energies of [SAC_adiabatic x] are
    [(-r, r)] and the forces [(g, -g)] ([SACAnalysis]); the active state
    [nstate] reads [Eig[nstate-1] = sigma r] and [force[nstate-1] = -sigma g]. *)

Definition state_sign (n : Z) : R := if Z.eqb n 1 then -1 else 1.

Lemma state_sign_sq n : state_sign n ^ 2 = 1.
Proof. unfold state_sign; destruct (Z.eqb n 1); ring. Qed.

Lemma state_sign_cases n : state_sign n = -1 \/ state_sign n = 1.
Proof. unfold state_sign; destruct (Z.eqb n 1); auto. Qed.

Lemma state_sign_get (n : Z) (r g : R) :
  (n = 1 \/ n = 2)%Z ->
  py_get2 (- r, r) (n - 1) = Some (state_sign n * r) /\ py_get2 (g, - g) (n - 1) = Some (- state_sign n * g).
Proof. intros [-> | ->]; cbn; split; f_equal; ring. Qed.

(** The adiabatic data of the SAC model with the closed-form [eigh]. *)
Lemma sac_adiabatic_eq x :
  @SAC_adiabatic EighClosed x =
  ((- sac_r x, sac_r x), @cdf_dij EighClosed (fst (Potenial_SAC x)) (snd (Potenial_SAC x)),
   (sac_g x, - sac_g x)).
Proof.
  rewrite <- sac_eig, <- sac_force; unfold SAC_adiabatic, cdf_eig, cdf_dij, cdf_force.
  destruct (Potenial_SAC x) as [V Vd]; cbn [fst snd].
  destruct (Calc_dij_force V Vd) as [[Eig dij] F]; reflexivity.
Qed.

(** The kinetic energy gained over a step of length [D] is the trapezoid of
    the two forces over [D], up to [h^2 (f2^2 - f1^2) / (8m)]; against an
    energy change [c D] with [c] within [L |D| / 2] of the mean force, the
    total changes by at most [L D^2 / 2 + S h^2 / (8m)]. *)
Lemma verlet_energy_change m h v g1 g2 sg c L S :
  0 < m -> sg ^ 2 = 1 ->
  Rabs ((g1 + g2) / 2 - c) <= L * Rabs (v * h + 0.5 * (- sg * g1 / m) * h ^ 2) / 2 ->
  g1 ^ 2 <= S -> g2 ^ 2 <= S ->
  Rabs (kinetic m (v + 0.5 * h * (- sg * g1 / m + - sg * g2 / m))
        + sg * (c * (v * h + 0.5 * (- sg * g1 / m) * h ^ 2)) - kinetic m v)
  <= L * (v * h + 0.5 * (- sg * g1 / m) * h ^ 2) ^ 2 / 2 + S * h ^ 2 / (8 * m).
Proof.
  set (D := v * h + 0.5 * (- sg * g1 / m) * h ^ 2); intros Hm Hs Hc H1 H2.
  assert (E : kinetic m (v + 0.5 * h * (- sg * g1 / m + - sg * g2 / m)) + sg * (c * D) - kinetic m v
              = - sg * (D * ((g1 + g2) / 2 - c)) + sg ^ 2 * (h ^ 2 * (g2 ^ 2 - g1 ^ 2)) / (8 * m))
    by (unfold D, kinetic; rewrite R_half; field; lra).
  rewrite E, Hs, Rmult_1_l; eapply Rle_trans; [apply Rabs_triang |]; apply Rplus_le_compat.
  - assert (Ha : Rabs sg = 1) by (pose proof (Rabs_pos sg); pose proof (pow2_abs sg); nra).
    rewrite Rabs_mult, Rabs_Ropp, Ha, Rmult_1_l, Rabs_mult.
    replace (L * D ^ 2 / 2) with (Rabs D * (L * Rabs D / 2)) by (rewrite <- (pow2_abs D); field).
    apply Rmult_le_compat_l; [apply Rabs_pos | exact Hc].
  - apply Rabs_div_le; [lra |]; pose proof (pow2_ge_0 g1); pose proof (pow2_ge_0 g2).
    replace (8 * m * (S * h ^ 2 / (8 * m))) with (h ^ 2 * S) by (field; lra).
    rewrite Rabs_mult, (Rabs_right (h ^ 2)) by (apply Rle_ge, pow2_ge_0).
    apply Rmult_le_compat_l; [apply pow2_ge_0 | apply Rabs_le; lra].
Qed.

(** What a step from the adiabatic forces of [x] computes, in closed form. *)
Lemma VelocityVerlet_sac x v mass h n r :
  (n = 1 \/ n = 2)%Z ->
  @VelocityVerlet EighClosed x v mass (sac_g x, - sac_g x) h n = Some r ->
  vv_x r = x + v * h + 0.5 * (- state_sign n * sac_g x / mass) * h ^ 2 /\
  vv_R_dot r = v + 0.5 * h * (- state_sign n * sac_g x / mass + - state_sign n * sac_g (vv_x r) / mass) /\
  vv_Eig r = (- sac_r (vv_x r), sac_r (vv_x r)) /\ vv_force r = (sac_g (vv_x r), - sac_g (vv_x r)).
Proof.
  intros Hn Hr; destruct (VelocityVerlet_result _ _ _ _ _ _ _ Hr) as (f1 & f2 & Hf1 & Hf2 & Hx & HRd).
  pose proof (VelocityVerlet_consistent _ _ _ _ _ _ _ Hr) as Hc; rewrite sac_adiabatic_eq in Hc.
  injection Hc as HEig _ Hforce.
  rewrite (proj2 (state_sign_get _ (sac_r x) _ Hn)) in Hf1; injection Hf1 as <-.
  rewrite Hforce, (proj2 (state_sign_get _ (sac_r (vv_x r)) _ Hn)) in Hf2; injection Hf2 as <-.
  unfold vv_position in Hx; auto.
Qed.

(** The energy bound of one step, with the energy read as [sigma r]. *)
Lemma vv_energy x v mass h n r :
  0 < mass -> (n = 1 \/ n = 2)%Z ->
  @VelocityVerlet EighClosed x v mass (sac_g x, - sac_g x) h n = Some r ->
  Rabs (kinetic mass (vv_R_dot r) + state_sign n * sac_r (vv_x r) - (kinetic mass v + state_sign n * sac_r x))
  <= sac_L * (vv_x r - x) ^ 2 / 2 + 281 / 1000000 * h ^ 2 / (8 * mass).
Proof.
  intros Hm Hn Hr; destruct (VelocityVerlet_sac _ _ _ _ _ _ Hn Hr) as (Hx & HRd & _).
  destruct (sac_r_trapezoid_abs x (vv_x r)) as (c & Hc & Hb).
  assert (HxD : vv_x r - x = v * h + 0.5 * (- state_sign n * sac_g x / mass) * h ^ 2) by (rewrite Hx; ring).
  rewrite HxD in Hb; rewrite HxD.
  replace (kinetic mass (vv_R_dot r) + state_sign n * sac_r (vv_x r) - (kinetic mass v + state_sign n * sac_r x))
    with (kinetic mass (vv_R_dot r) + state_sign n * (c * (v * h + 0.5 * (- state_sign n * sac_g x / mass) * h ^ 2))
          - kinetic mass v) by (rewrite <- HxD, <- Hc; ring).
  rewrite HRd; apply verlet_energy_change; [exact Hm | apply state_sign_sq | exact Hb | apply sac_g_sq ..].
Qed.

(** ** Witnesses *)

Lemma VelocityVerlet_total_witness :
  exists r, VelocityVerlet 0 (1 / 100) 2000 (snd (SAC_adiabatic 0)) 1 1 = Some r /\
            (vv_Eig r, vv_dij r, vv_force r) = SAC_adiabatic (vv_x r).
Proof. apply VelocityVerlet_total; left; reflexivity. Defined.

Lemma VelocityVerlet_reversible_witness :
  exists r, VelocityVerlet 0 (1 / 100) 2000 (snd (SAC_adiabatic 0)) 1 1 = Some r /\
  exists r', VelocityVerlet (vv_x r) (- vv_R_dot r) 2000 (vv_force r) 1 1 = Some r' /\
             vv_x r' = 0 /\ vv_R_dot r' = - (1 / 100) /\ vv_force r' = snd (SAC_adiabatic 0).
Proof.
  destruct (VelocityVerlet_some 0 (1 / 100) 2000 (snd (SAC_adiabatic 0)) 1 1) as [r Hr];
    [left; reflexivity |].
  exists r; split; [exact Hr | apply (VelocityVerlet_reversible 0 (1 / 100) 2000 1 1 r Hr)].
Defined.

(** C13.  Energy error of one [VelocityVerlet] step on the SAC model
    (closed-form [eigh]), for any positive mass, any time step [h] and an
    active state 1 or 2, started from the adiabatic forces of [x]: the total
    energy [0.5 m R_dot^2 + Eig[nstate-1]] after the step differs from the
    one before by at most [L D^2 / 2 + S h^2 / (8 m)], where [D] is the
    distance moved, [L = 1/4] the Lipschitz constant of the SAC force and
    [S = 2.81e-4] the bound on its square: the scheme's energy error is of
    second order in the step. *)
Theorem VelocityVerlet_energy x v mass h n r :
  0 < mass -> (n = 1 \/ n = 2)%Z ->
  @VelocityVerlet EighClosed x v mass (snd (@SAC_adiabatic EighClosed x)) h n = Some r ->
  exists e e', py_get2 (fst (fst (@SAC_adiabatic EighClosed x))) (n - 1) = Some e /\
    py_get2 (vv_Eig r) (n - 1) = Some e' /\
    Rabs (kinetic mass (vv_R_dot r) + e' - (kinetic mass v + e))
    <= sac_L * (vv_x r - x) ^ 2 / 2 + 281 / 1000000 * h ^ 2 / (8 * mass).
Proof.
  intros Hm Hn Hr; rewrite sac_adiabatic_eq in Hr |- *; cbn [fst snd] in Hr |- *.
  destruct (VelocityVerlet_sac _ _ _ _ _ _ Hn Hr) as (_ & _ & HEig & _).
  exists (state_sign n * sac_r x), (state_sign n * sac_r (vv_x r)); rewrite HEig.
  split; [apply (proj1 (state_sign_get n _ (sac_g x) Hn)) |].
  split; [apply (proj1 (state_sign_get n _ (sac_g x) Hn)) |].
  apply (vv_energy _ _ _ _ _ _ Hm Hn Hr).
Qed.

Lemma VelocityVerlet_energy_witness :
  0 < 2000 /\ exists r,
  @VelocityVerlet EighClosed 0 (1 / 100) 2000 (snd (@SAC_adiabatic EighClosed 0)) 1 1 = Some r /\
  exists e e', py_get2 (fst (fst (@SAC_adiabatic EighClosed 0))) (1 - 1) = Some e /\
    py_get2 (vv_Eig r) (1 - 1) = Some e' /\
    Rabs (kinetic 2000 (vv_R_dot r) + e' - (kinetic 2000 (1 / 100) + e))
    <= sac_L * (vv_x r - 0) ^ 2 / 2 + 281 / 1000000 * 1 ^ 2 / (8 * 2000).
Proof.
  destruct (@VelocityVerlet_some EighClosed 0 (1 / 100) 2000 (snd (SAC_adiabatic 0)) 1 1) as [r Hr];
    [left; reflexivity |].
  split; [lra | exists r; split; [exact Hr | apply (VelocityVerlet_energy 0 (1 / 100) 2000 1 1 r); auto; lra]].
Defined.
