(* ===== verification/Trajectory.v ===== *)
(** * The trajectory loop and the outcome tally of [src/FSSH.py/run/FSSH.py]

    [main] (lines 32-108) runs, for each momentum, [ntraj] trajectories:
<<
      p = -9.9999; R_dot = momentum / mass; nstate = 1; cstate = [1, 0]
      V, V_der = Potenial_SAC(p); Eig, dij, force = Calc_dij_force(V, V_der)
      n = 0
      while p > PMin and p < PMax:
          cstate = Fourth_RungeKutta(R_dot, cstate, Eig, dij, t_step)
          nstate, R_dot = HoppingProbability(R_dot, cstate, mass, t_step, Eig, dij, nstate)
          p, R_dot, V, force, Eig, dij = VelocityVerlet(p, R_dot, mass, force, t_step, nstate)
          n += 1
          if n == 1038: break
>>
    and then adds the trajectory to one of the buckets [j[0]] (state 1,
    [p < 0]), [j[1]] (state 1, [p > 0]), [k[0]], [k[1]] (state 2).  The state
    of the loop is the record [TState]; [ts_draw] counts the calls of
    [random.random()] made so far, one per step, so that the draws of
    consecutive trajectories follow each other in one global stream [draws].
    The loop is [fssh_loop] with fuel; the fuel [NSTEP] is enough because
    the counter breaks the loop at [NSTEP] = 1038 steps.  [R_dot = momentum
    / mass] raises [ZeroDivisionError] for a zero mass: [run_trajectory]
    returns [None] then, and the theorems of Section [Trajectory] assume
    [mass cfg <> 0] (Hypothesis [mass_nz]).

    The theorems: the loop state invariant (active state in [{1, 2}], and the
    stored energies, coupling and forces are those of the current position)
    holds initially and is preserved by every step; every trajectory
    terminates without error, either outside [(PMin, PMax)] or after exactly
    1038 steps, and more fuel changes nothing; the tally adds exactly one to
    the buckets for every trajectory that does not stop at [p = 0], whether
    or not it left the domain; with a zero mass the run raises before its
    first step. *)

From Stdlib Require Import Reals Lra ZArith Arith Lia List.
From S2P Require Import Prelude PotEig Cplx Eigh NACsForce RungeKutta Hopping Verlet.
Open Scope R_scope.

(** The constants of [main] (lines 34-38, 50, 80). *)
Record Config := mkConfig { t_step : R; mass : R; PMin : R; PMax : R; ntraj : nat }.

Definition fssh_config : Config := mkConfig 1 2.0e3 (-10) 10 1.

Definition p_start : R := -9.9999.

Definition NSTEP : nat := 1038.

Record TState := mkTS {
  ts_p : R; ts_R_dot : R; ts_nstate : Z; ts_cstate : CVec2;
  ts_Eig : R * R; ts_dij : Mat2; ts_force : R * R;
  ts_n : nat; ts_draw : nat }.

(** The four buckets [j[0], j[1], k[0], k[1]]. *)
Record Tally := mkTally { j0 : nat; j1 : nat; k0 : nat; k1 : nat }.

Section Trajectory.

Context {E : Eigh}.

(** The successive results of [random.random()]. *)
Variable draws : nat -> R.

Variable cfg : Config.

(** The mass is nonzero: [main] divides by it before its loop (line 51) and
    the hop rescaling divides by it (hopping_probability.py, line 69). *)
Hypothesis mass_nz : mass cfg <> 0.

(** Lines 50-56 and 60. *)
Definition init_state (momentum : R) (draw : nat) : TState :=
  let p := p_start in
  let R_dot := momentum / mass cfg in
  let '(Eig, dij, force) := SAC_adiabatic p in
  mkTS p R_dot 1 (mkCV (mkC 1 0) (mkC 0 0)) Eig dij force 0 draw.

(** The loop condition [p > PMin and p < PMax] (line 61). *)
Definition in_domain (p : R) : bool := (Rltb (PMin cfg) p && Rltb p (PMax cfg))%bool.

(** The loop body (lines 64-79). *)
Definition fssh_step (s : TState) : option TState :=
  let cstate := Fourth_RungeKutta (ts_R_dot s) (ts_cstate s) (ts_Eig s) (ts_dij s) (t_step cfg) in
  match HoppingProbability (ts_R_dot s) (ts_nstate s) cstate (mass cfg) (ts_Eig s) (ts_dij s)
          (t_step cfg) (draws (ts_draw s)) with
  | None => None
  | Some (nstate, R_dot) =>
      match VelocityVerlet (ts_p s) R_dot (mass cfg) (ts_force s) (t_step cfg) nstate with
      | None => None
      | Some r =>
          Some (mkTS (vv_x r) (vv_R_dot r) nstate cstate (vv_Eig r) (vv_dij r) (vv_force r)
                     (S (ts_n s)) (S (ts_draw s)))
      end
  end.

(** The [while] loop with its [break] at [n == 1038] (lines 61-81). *)
Fixpoint fssh_loop (fuel : nat) (s : TState) : option TState :=
  match fuel with
  | O => Some s
  | S f =>
      if in_domain (ts_p s) then
        match fssh_step s with
        | None => None
        | Some s' => if Nat.eqb (ts_n s') NSTEP then Some s' else fssh_loop f s'
        end
      else Some s
  end.

(** One trajectory (lines 50-81); [R_dot = momentum / mass] (line 51) is a
    Python float division and raises [ZeroDivisionError] for [mass == 0]
    before the loop starts ([init_state] is the start state otherwise). *)
Definition run_trajectory (momentum : R) (draw : nat) : option TState :=
  if Req_dec_T (mass cfg) 0 then None else fssh_loop NSTEP (init_state momentum draw).

(** The classification (lines 88-97). *)
Definition tally (t : Tally) (s : TState) : Tally :=
  if Z.eqb (ts_nstate s) 1 then
    let t := if Rltb (ts_p s) 0 then mkTally (S (j0 t)) (j1 t) (k0 t) (k1 t) else t in
    if Rltb 0 (ts_p s) then mkTally (j0 t) (S (j1 t)) (k0 t) (k1 t) else t
  else
    let t := if Rltb (ts_p s) 0 then mkTally (j0 t) (j1 t) (S (k0 t)) (k1 t) else t in
    if Rltb 0 (ts_p s) then mkTally (j0 t) (j1 t) (k0 t) (S (k1 t)) else t.

(** The loop over [nt in range(0, ntraj)] (lines 48-97). *)
Fixpoint run_ensemble (nt : nat) (momentum : R) (draw : nat) (t : Tally) : option (Tally * nat) :=
  match nt with
  | O => Some (t, draw)
  | S k =>
      match run_trajectory momentum draw with
      | None => None
      | Some s => run_ensemble k momentum (ts_draw s) (tally t s)
      end
  end.

(** [prob_trans_lower], [prob_refl_lower], [prob_trans_upper] (lines
    100-102); Python's [j[1]/ntraj] raises [ZeroDivisionError] for
    [ntraj == 0]. *)
Definition probabilities (t : Tally) : option (R * R * R) :=
  match ntraj cfg with
  | O => None
  | _ => Some (INR (j1 t) / INR (ntraj cfg), INR (j0 t) / INR (ntraj cfg), INR (k1 t) / INR (ntraj cfg))
  end.

(** One momentum of the sweep (lines 45-102). *)
Definition fssh_momentum (momentum : R) (draw : nat) : option (R * R * R * nat) :=
  match run_ensemble (ntraj cfg) momentum draw (mkTally 0 0 0 0) with
  | Some (t, draw') =>
      match probabilities t with Some pr => Some (pr, draw') | None => None end
  | None => None
  end.

(** The sweep [for momentum in range(20, 21)] (lines 43-108): the lists
    [momentums, prob12, prob11, prob22] as one list of records, and the
    global stream of draws continued from one momentum to the next. *)
Fixpoint fssh_sweep (momenta : list R) (draw : nat) : option (list (R * (R * R * R))) :=
  match momenta with
  | nil => Some nil
  | m :: ms =>
      match fssh_momentum m draw with
      | None => None
      | Some (pt, pr, pu, draw') => option_map (cons (m, (pt, pr, pu))) (fssh_sweep ms draw')
      end
  end.

Definition fssh_main : option (list (R * (R * R * R))) := fssh_sweep (20 :: nil) 0.

(** The states a trajectory passes through: the start, and every successor
    of a state inside the domain. *)
Inductive reachable (momentum : R) (draw : nat) : TState -> Prop :=
  | reach_init : reachable momentum draw (init_state momentum draw)
  | reach_step s s' :
      reachable momentum draw s -> in_domain (ts_p s) = true -> fssh_step s = Some s' ->
      reachable momentum draw s'.

(** The final states of the trajectories of [run_ensemble], in order. *)
Fixpoint ensemble_finals (nt : nat) (momentum : R) (draw : nat) : option (list TState) :=
  match nt with
  | O => Some nil
  | S k =>
      match run_trajectory momentum draw with
      | None => None
      | Some s => option_map (cons s) (ensemble_finals k momentum (ts_draw s))
      end
  end.

Definition tally_total (t : Tally) : nat := (j0 t + j1 t + k0 t + k1 t)%nat.

(** A final position that the tally counts: [p < 0] or [p > 0]. *)
Definition counted (s : TState) : bool := (Rltb (ts_p s) 0 || Rltb 0 (ts_p s))%bool.

(** ** The loop invariant *)

(** The active state is 1 or 2 and the stored adiabatic data are those of
    the current position. *)
Definition traj_inv (s : TState) : Prop :=
  (ts_nstate s = 1 \/ ts_nstate s = 2)%Z /\
  (ts_Eig s, ts_dij s, ts_force s) = SAC_adiabatic (ts_p s).

Lemma init_state_inv momentum draw :
  traj_inv (init_state momentum draw) /\ ts_n (init_state momentum draw) = 0%nat /\
  ts_draw (init_state momentum draw) = draw.
Proof.
  unfold init_state, traj_inv; destruct (SAC_adiabatic p_start) as [[Eig dij] F] eqn:HA.
  cbn; repeat split; [left; reflexivity | symmetry; exact HA].
Qed.

Lemma fssh_step_inv s :
  traj_inv s ->
  exists s', fssh_step s = Some s' /\ traj_inv s' /\
             ts_n s' = S (ts_n s) /\ ts_draw s' = S (ts_draw s).
Proof.
  intros [Hn _]; unfold fssh_step.
  match goal with |- context [HoppingProbability ?a ?b ?c ?d ?e ?f ?g ?h] =>
    destruct (hop_active a b c d e f g h mass_nz Hn) as (n' & v & -> & Hn') end.
  match goal with |- context [VelocityVerlet ?a ?b ?c ?d ?e ?f] =>
    destruct (VelocityVerlet_some a b c d e f Hn') as [r Hr]; rewrite Hr end.
  eexists; split; [reflexivity |].
  split; [split; [exact Hn' | exact (VelocityVerlet_consistent _ _ _ _ _ _ _ Hr)] | split; reflexivity].
Qed.

(** From a state with [n < 1038] steps, [NSTEP - n] units of fuel run the
    loop to its end: outside the domain or at the ceiling, one draw per
    step, the invariant kept. *)
Lemma fssh_loop_result fuel s :
  traj_inv s -> (ts_n s < NSTEP)%nat -> (NSTEP - ts_n s <= fuel)%nat ->
  exists s', fssh_loop fuel s = Some s' /\ traj_inv s' /\
             (in_domain (ts_p s') = false \/ ts_n s' = NSTEP) /\
             (ts_n s <= ts_n s')%nat /\ ts_draw s' = (ts_draw s + (ts_n s' - ts_n s))%nat.
Proof.
  revert s; induction fuel as [| f IH]; intros s Hinv Hlt Hfuel; [lia |].
  cbn [fssh_loop]; destruct (in_domain (ts_p s)) eqn:Hd.
  - destruct (fssh_step_inv s Hinv) as (s1 & -> & Hinv1 & Hn1 & Hd1).
    destruct (Nat.eqb (ts_n s1) NSTEP) eqn:Heq.
    + apply Nat.eqb_eq in Heq; exists s1.
      split; [reflexivity | split; [exact Hinv1 | split; [right; exact Heq | lia]]].
    + apply Nat.eqb_neq in Heq.
      destruct (IH s1 Hinv1 ltac:(lia) ltac:(lia)) as (s' & Hrun & Hinv' & Hend & Hle & Hdr).
      exists s'; split; [exact Hrun | split; [exact Hinv' | split; [exact Hend | lia]]].
  - exists s; split; [reflexivity | split; [exact Hinv | split; [left; exact Hd | lia]]].
Qed.

(** Beyond [NSTEP - n], more fuel changes nothing. *)
Lemma fssh_loop_fuel fuel k s :
  traj_inv s -> (ts_n s < NSTEP)%nat -> (NSTEP - ts_n s <= fuel)%nat ->
  fssh_loop (fuel + k) s = fssh_loop fuel s.
Proof.
  revert s; induction fuel as [| f IH]; intros s Hinv Hlt Hfuel; [lia |].
  cbn [fssh_loop Nat.add]; destruct (in_domain (ts_p s)); [| reflexivity].
  destruct (fssh_step_inv s Hinv) as (s1 & -> & Hinv1 & Hn1 & _).
  destruct (Nat.eqb (ts_n s1) NSTEP) eqn:Heq; [reflexivity |].
  apply Nat.eqb_neq in Heq; apply IH; auto; lia.
Qed.

(** One trajectory adds one to the buckets exactly when it is counted. *)
Lemma tally_total_tally t s :
  tally_total (tally t s) = (tally_total t + if counted s then 1 else 0)%nat.
Proof.
  unfold tally, tally_total, counted.
  destruct (Rltb (ts_p s) 0) eqn:H1; destruct (Rltb 0 (ts_p s)) eqn:H2;
    [apply Rltb_true in H1; apply Rltb_true in H2; lra | ..];
    destruct (Z.eqb (ts_nstate s) 1); cbn; lia.
Qed.

(** With a nonzero mass, a trajectory is the loop from the start state. *)
Lemma run_trajectory_loop momentum draw :
  run_trajectory momentum draw = fssh_loop NSTEP (init_state momentum draw).
Proof. unfold run_trajectory; apply if_Req_neq, mass_nz. Qed.

Lemma run_trajectory_spec momentum draw :
  exists s', run_trajectory momentum draw = Some s' /\ traj_inv s' /\
             (in_domain (ts_p s') = false \/ ts_n s' = NSTEP) /\
             ts_draw s' = (draw + ts_n s')%nat.
Proof.
  destruct (init_state_inv momentum draw) as (Hinv & Hn & Hd).
  destruct (fssh_loop_result NSTEP _ Hinv ltac:(rewrite Hn; unfold NSTEP; lia) ltac:(lia))
    as (s' & Hrun & Hinv' & Hend & _ & Hdr).
  exists s'; rewrite run_trajectory_loop; rewrite Hn, Hd, Nat.sub_0_r in Hdr; auto.
Qed.

Lemma init_state_eq momentum draw :
  exists Eig dij F, init_state momentum draw =
    mkTS p_start (momentum / mass cfg) 1 (mkCV (mkC 1 0) (mkC 0 0)) Eig dij F 0 draw.
Proof. unfold init_state; destruct (SAC_adiabatic p_start) as [[Eig dij] F]; eauto. Qed.

Lemma init_state_p momentum draw : ts_p (init_state momentum draw) = p_start.
Proof. unfold init_state; destruct (SAC_adiabatic p_start) as [[? ?] ?]; reflexivity. Qed.

(** The loop only visits reachable states. *)
Lemma fssh_loop_reachable momentum draw fuel s s' :
  reachable momentum draw s -> fssh_loop fuel s = Some s' -> reachable momentum draw s'.
Proof.
  revert s; induction fuel as [| f IH]; intros s Hr; cbn [fssh_loop]; [congruence |].
  destruct (in_domain (ts_p s)) eqn:Hd; [| congruence].
  destruct (fssh_step s) as [s1 |] eqn:Hs; [| discriminate].
  pose proof (reach_step momentum draw s s1 Hr Hd Hs) as Hr1.
  destruct (Nat.eqb (ts_n s1) NSTEP); [congruence | apply IH, Hr1].
Qed.

(** The ensemble's final states, its tally and where each trajectory ended. *)
Lemma ensemble_spec nt momentum draw t :
  exists t' draw' l,
    run_ensemble nt momentum draw t = Some (t', draw') /\ ensemble_finals nt momentum draw = Some l /\
    length l = nt /\ tally_total t' = (tally_total t + length (filter counted l))%nat /\
    Forall (fun s => in_domain (ts_p s) = false \/ ts_n s = NSTEP) l.
Proof.
  revert draw t; induction nt as [| k IH]; intros draw t.
  - exists t, draw, nil; cbn; repeat split; [lia | constructor].
  - destruct (run_trajectory_spec momentum draw) as (s & Hs & _ & Hend & _).
    destruct (IH (ts_draw s) (tally t s)) as (t' & d' & l & H1 & H2 & H3 & H4 & H5).
    exists t', d', (s :: l); cbn [run_ensemble ensemble_finals]; rewrite Hs, H1, H2;
      cbn [option_map length].
    repeat split; [lia | | constructor; assumption].
    rewrite H4, tally_total_tally; cbn [filter]; destruct (counted s); cbn [length]; lia.
Qed.

Lemma counted_outside s :
  PMin cfg < 0 -> 0 < PMax cfg -> in_domain (ts_p s) = false -> counted s = true.
Proof.
  unfold in_domain, counted; intros H1 H2 Hd; apply Bool.orb_true_intro.
  destruct (Rltb (PMin cfg) (ts_p s)) eqn:Ha;
    [destruct (Rltb (ts_p s) (PMax cfg)) eqn:Hb; [discriminate |] |].
  - apply Rltb_false in Hb; right; apply Rltb_true; lra.
  - apply Rltb_false in Ha; left; apply Rltb_true; lra.
Qed.

(** ** Properties of the trajectory loop *)

(** C17.  For a nonzero mass, every state a trajectory reaches (from its start, by steps taken
    inside the domain) has an active state in [{1, 2}], stores the
    energies, coupling and forces of its own position, and has used exactly
    one random draw per step. *)
Theorem reachable_inv momentum draw s :
  reachable momentum draw s -> traj_inv s /\ ts_draw s = (draw + ts_n s)%nat.
Proof.
  induction 1 as [| s s' Hr [Hinv Hd] Hin Hs].
  - destruct (init_state_inv momentum draw) as (H1 & H2 & H3); rewrite H2, H3; split; [exact H1 | lia].
  - destruct (fssh_step_inv s Hinv) as (s1 & Hs1 & Hinv1 & Hn1 & Hd1).
    rewrite Hs in Hs1; injection Hs1 as <-; split; [exact Hinv1 | lia].
Qed.

(** C7.  For a nonzero mass, every trajectory of the loop of [main] terminates without error
    in a reachable state that is either outside [(PMin, PMax)] or at the
    1038-step ceiling, and any fuel beyond [NSTEP] gives the same result:
    the fuel of the model never cuts the loop short. *)
Theorem run_trajectory_terminates momentum draw :
  exists s', run_trajectory momentum draw = Some s' /\ reachable momentum draw s' /\
             (in_domain (ts_p s') = false \/ ts_n s' = NSTEP) /\
             forall k, fssh_loop (NSTEP + k) (init_state momentum draw) = Some s'.
Proof.
  destruct (run_trajectory_spec momentum draw) as (s' & Hs & _ & Hend & _).
  destruct (init_state_inv momentum draw) as (Hinv & Hn & _).
  exists s'; split; [exact Hs |]; rewrite run_trajectory_loop in Hs.
  split; [apply (fssh_loop_reachable _ _ NSTEP _ _ (reach_init _ _) Hs) |].
  split; [exact Hend | intros k].
  rewrite fssh_loop_fuel; [exact Hs | exact Hinv | rewrite Hn; unfold NSTEP; lia | lia].
Qed.

(** C9.  For a nonzero mass, [run_ensemble] over [nt] trajectories never fails, and the four
    buckets grow by exactly the number of trajectories whose final
    position is nonzero, whether they left the domain or stopped at the
    1038-step ceiling: no trajectory is counted twice, and one that stops
    inside the domain is counted as reflected or transmitted. *)
Theorem run_ensemble_tally nt momentum draw t :
  exists t' draw' l,
    run_ensemble nt momentum draw t = Some (t', draw') /\ ensemble_finals nt momentum draw = Some l /\
    length l = nt /\ tally_total t' = (tally_total t + length (filter counted l))%nat /\
    Forall (fun s => in_domain (ts_p s) = false \/ ts_n s = NSTEP) l.
Proof. apply ensemble_spec. Qed.

(** C23.  For a nonzero mass, when [PMin < 0 < PMax] and every trajectory of the ensemble has
    left the domain, the buckets grow by exactly the number [nt] of
    trajectories. *)
Theorem run_ensemble_all_exit nt momentum draw t t' draw' l :
  PMin cfg < 0 -> 0 < PMax cfg ->
  run_ensemble nt momentum draw t = Some (t', draw') -> ensemble_finals nt momentum draw = Some l ->
  Forall (fun s => in_domain (ts_p s) = false) l ->
  tally_total t' = (tally_total t + nt)%nat.
Proof.
  intros H1 H2 Hrun Hfin Hout.
  destruct (ensemble_spec nt momentum draw t) as (t2 & d2 & l2 & Hr2 & Hf2 & Hlen & Htot & _).
  rewrite Hrun in Hr2; injection Hr2 as <- <-; rewrite Hfin in Hf2; injection Hf2 as <-.
  rewrite Htot, filter_all, Hlen; [reflexivity |].
  eapply Forall_impl; [| exact Hout]; intros s; apply counted_outside; assumption.
Qed.

Lemma momentum_bounds momentum draw :
  ntraj cfg <> 0%nat ->
  exists pt pr pu draw', fssh_momentum momentum draw = Some (pt, pr, pu, draw') /\
    0 <= pt /\ 0 <= pr /\ 0 <= pu /\ pt + pr + pu <= 1.
Proof.
  intros Hnt; unfold fssh_momentum, probabilities.
  destruct (ensemble_spec (ntraj cfg) momentum draw (mkTally 0 0 0 0))
    as (t' & d' & l & -> & _ & Hlen & Htot & _).
  pose proof (length_filter_le counted l); unfold tally_total in Htot; cbn in Htot.
  assert (Hle : INR (j1 t' + j0 t' + k1 t') <= INR (ntraj cfg)) by (apply le_INR; lia).
  assert (Hn : 0 < INR (ntraj cfg)) by (apply lt_0_INR; lia).
  rewrite !plus_INR in Hle; pose proof (pos_INR (j0 t')); pose proof (pos_INR (j1 t'));
    pose proof (pos_INR (k1 t')).
  destruct (ntraj cfg) as [| n]; [contradiction |].
  do 4 eexists; split; [reflexivity |].
  assert (Hi : 0 < / INR (S n)) by (apply Rinv_0_lt_compat; lra).
  unfold Rdiv; repeat split; [nra | nra | nra |].
  rewrite <- !Rmult_plus_distr_r; apply (Rmult_le_reg_r (INR (S n))); [lra |].
  rewrite Rmult_assoc, Rinv_l, Rmult_1_r, Rmult_1_l by lra; lra.
Qed.

(** For [ntraj > 0], the three probabilities of one momentum exist,
    are nonnegative and sum to at most 1 (Python raises
    [ZeroDivisionError] for [ntraj = 0]). *)
Theorem fssh_momentum_bounds momentum draw :
  ntraj cfg <> 0%nat ->
  exists pt pr pu draw', fssh_momentum momentum draw = Some (pt, pr, pu, draw') /\
    0 <= pt /\ 0 <= pr /\ 0 <= pu /\ pt + pr + pu <= 1.
Proof. apply momentum_bounds. Qed.

(** With one trajectory per momentum, each probability is 0 or 1. *)
Lemma momentum_single momentum draw :
  ntraj cfg = 1%nat ->
  exists pt pr pu draw', fssh_momentum momentum draw = Some (pt, pr, pu, draw') /\
    (pt = 0 \/ pt = 1) /\ (pr = 0 \/ pr = 1) /\ (pu = 0 \/ pu = 1) /\ pt + pr + pu <= 1.
Proof.
  intros Hnt; unfold fssh_momentum, probabilities; rewrite Hnt.
  destruct (ensemble_spec 1 momentum draw (mkTally 0 0 0 0)) as (t' & d' & l & -> & _ & Hlen & Htot & _).
  pose proof (length_filter_le counted l); unfold tally_total in Htot; cbn in Htot.
  assert (H01 : forall j, (j <= 1)%nat -> INR j / INR 1 = 0 \/ INR j / INR 1 = 1).
  { intros j Hj; cbn [INR]; destruct j as [| [| j]]; [left | right | lia]; cbn [INR]; field. }
  do 4 eexists; split; [reflexivity |].
  split; [apply H01; lia | split; [apply H01; lia | split; [apply H01; lia |]]].
  cbn [INR]; unfold Rdiv; rewrite Rinv_1, !Rmult_1_r, <- !plus_INR.
  replace 1 with (INR 1) by reflexivity; apply le_INR; lia.
Qed.

(** C24.  For a nonzero mass and [ntraj > 0], the momentum sweep never fails: it returns
    one row per momentum, in order, and each row's three probabilities are
    nonnegative and sum to at most 1. *)
Theorem fssh_sweep_bounds momenta draw :
  ntraj cfg <> 0%nat ->
  exists res, fssh_sweep momenta draw = Some res /\ map fst res = momenta /\
    Forall (fun r => let '(pt, pr, pu) := snd r in 0 <= pt /\ 0 <= pr /\ 0 <= pu /\ pt + pr + pu <= 1) res.
Proof.
  intros Hnt; revert draw; induction momenta as [| m ms IH]; intros draw; [exists nil; auto |].
  destruct (momentum_bounds m draw Hnt) as (pt & pr & pu & d' & Hm & Hb).
  destruct (IH d') as (res & Hres & Hfst & Hall).
  exists ((m, (pt, pr, pu)) :: res); cbn [fssh_sweep]; rewrite Hm, Hres.
  split; [reflexivity | split; [cbn; rewrite Hfst; reflexivity | constructor; [exact Hb | exact Hall]]].
Qed.

End Trajectory.

(** ** Reproducibility

    The stream of draws is an argument: a step reads the draw at its own
    counter [ts_draw] and advances it by one, so a trajectory, and an
    ensemble of them, depends only on the window of the stream it
    consumes. *)

Section Reproducible.

Context {E : Eigh}.

Variable cfg : Config.

Lemma fssh_step_draws (d1 d2 : nat -> R) s :
  d1 (ts_draw s) = d2 (ts_draw s) -> fssh_step d1 cfg s = fssh_step d2 cfg s.
Proof. intros H; unfold fssh_step; rewrite H; reflexivity. Qed.

Lemma fssh_step_draw d s s' : fssh_step d cfg s = Some s' -> ts_draw s' = S (ts_draw s).
Proof.
  unfold fssh_step; destruct (HoppingProbability _ _ _ _ _ _ _ _) as [[n v] |]; [| discriminate].
  destruct (VelocityVerlet _ _ _ _ _ _); [| discriminate]; intros H; injection H as <-; reflexivity.
Qed.

Lemma init_state_draw momentum draw : ts_draw (init_state cfg momentum draw) = draw.
Proof. unfold init_state; destruct (SAC_adiabatic p_start) as [[? ?] ?]; reflexivity. Qed.

(** A loop of [fuel] iterations consumes at most [fuel] draws. *)
Lemma fssh_loop_draw d fuel s s' :
  fssh_loop d cfg fuel s = Some s' -> (ts_draw s <= ts_draw s' <= ts_draw s + fuel)%nat.
Proof.
  revert s; induction fuel as [| f IH]; intros s; cbn [fssh_loop]; [intros H; injection H as <-; lia |].
  destruct (in_domain cfg (ts_p s)); [| intros H; injection H as <-; lia].
  destruct (fssh_step d cfg s) as [s1 |] eqn:Hs; [| discriminate].
  pose proof (fssh_step_draw d s s1 Hs) as Hd.
  destruct (Nat.eqb (ts_n s1) NSTEP); [intros H; injection H as <-; lia |].
  intros H; specialize (IH s1 H); lia.
Qed.

(** Two streams that agree on the next [fuel] draws give the same loop. *)
Lemma fssh_loop_draws (d1 d2 : nat -> R) fuel s :
  (forall i, (i < fuel)%nat -> d1 (ts_draw s + i)%nat = d2 (ts_draw s + i)%nat) ->
  fssh_loop d1 cfg fuel s = fssh_loop d2 cfg fuel s.
Proof.
  revert s; induction fuel as [| f IH]; intros s H; cbn [fssh_loop]; [reflexivity |].
  destruct (in_domain cfg (ts_p s)); [| reflexivity].
  rewrite (fssh_step_draws d1 d2) by (rewrite <- (Nat.add_0_r (ts_draw s)); apply H; lia).
  destruct (fssh_step d2 cfg s) as [s1 |] eqn:Hs; [| reflexivity].
  destruct (Nat.eqb (ts_n s1) NSTEP); [reflexivity |].
  apply IH; intros i Hi; rewrite (fssh_step_draw d2 s s1 Hs).
  replace (S (ts_draw s) + i)%nat with (ts_draw s + S i)%nat by lia; apply H; lia.
Qed.

(** Reproducibility: two streams of draws that agree on the
    [nt * 1038] draws from position [draw] on give the same ensemble run
    (the same tally and the same final position in the stream): a run is
    reproduced exactly from a fixed seed, and trajectory [k] reads only the
    draws after those of trajectory [k - 1]. *)
Theorem run_ensemble_reproducible (d1 d2 : nat -> R) nt momentum draw t :
  (forall i, (i < nt * NSTEP)%nat -> d1 (draw + i)%nat = d2 (draw + i)%nat) ->
  run_ensemble d1 cfg nt momentum draw t = run_ensemble d2 cfg nt momentum draw t.
Proof.
  revert draw t; induction nt as [| k IH]; intros draw t H; [reflexivity |].
  cbn [run_ensemble]; unfold run_trajectory; destruct (Req_dec_T (mass cfg) 0); [reflexivity |].
  rewrite (fssh_loop_draws d1 d2) by (intros i Hi; rewrite init_state_draw; apply H; lia).
  destruct (fssh_loop d2 cfg NSTEP (init_state cfg momentum draw)) as [s |] eqn:Hl; [| reflexivity].
  apply (fssh_loop_draw d2) in Hl; rewrite init_state_draw in Hl.
  apply IH; intros i Hi.
  replace (ts_draw s + i)%nat with (draw + (ts_draw s - draw + i))%nat by lia; apply H; lia.
Qed.

End Reproducible.

(** Error path of a zero mass: [main] raises [ZeroDivisionError] at
    [R_dot = momentum / mass] before any step, so a trajectory, and a
    momentum with at least one trajectory, give no result; and a hop from
    state 2, when the draw decides it, raises at [2.0 / mass] in the
    velocity rescaling, while the draw that decides no hop returns state 2
    unchanged. *)
Theorem fssh_zero_mass_raises `{Eigh} (draws : nat -> R) cfg momentum draw R_dot c Eig dij h rnd :
  mass cfg = 0 ->
  run_trajectory draws cfg momentum draw = None /\
  (ntraj cfg <> 0%nat -> fssh_momentum draws cfg momentum draw = None) /\
  HoppingProbability R_dot 2 c (mass cfg) Eig dij h rnd =
    (if Rltb rnd (prob_down R_dot c dij h) then None else Some (2%Z, R_dot)).
Proof.
  intros Hm; assert (Hrun : forall m d, run_trajectory draws cfg m d = None)
    by (intros; unfold run_trajectory; rewrite Hm; apply if_Req_eq).
  split; [apply Hrun | split].
  - intros Hnt; unfold fssh_momentum; destruct (ntraj cfg) as [| n]; [contradiction |].
    cbn [run_ensemble]; rewrite Hrun; reflexivity.
  - rewrite hop_state2, Hm, if_Req_eq; reflexivity.
Qed.

Lemma fssh_config_mass : mass fssh_config <> 0.
Proof. cbn; lra. Qed.

(** The repository's run: [main] of [FSSH.py] with its configuration
    (mass 2000, time step 1, domain [(-10, 10)], one trajectory, momentum
    20) terminates without error for every sequence of random draws and
    every implementation of [eigh], and reports the single row
    [(20, prob_trans_lower, prob_refl_lower, prob_trans_upper)], each entry
    0 or 1 and their sum at most 1. *)
Theorem fssh_main_outcome `{Eigh} (draws : nat -> R) :
  exists pt pr pu, fssh_main draws fssh_config = Some ((20, (pt, pr, pu)) :: nil) /\
    (pt = 0 \/ pt = 1) /\ (pr = 0 \/ pr = 1) /\ (pu = 0 \/ pu = 1) /\ pt + pr + pu <= 1.
Proof.
  destruct (momentum_single draws fssh_config fssh_config_mass 20 0 eq_refl) as (pt & pr & pu & d' & Hm & Hb).
  exists pt, pr, pu; split; [unfold fssh_main; cbn [fssh_sweep]; rewrite Hm; reflexivity | exact Hb].
Qed.

(** ** Witnesses *)

Definition no_draws : nat -> R := fun _ => 0.

(** A configuration whose domain [(-5, 10)] excludes the start [-9.9999]. *)
Definition cfg_exit : Config := mkConfig 1 2000 (-5) 10 2.

Lemma reachable_inv_witness :
  mass fssh_config <> 0 /\
  reachable no_draws fssh_config 20 0 (init_state fssh_config 20 0) /\
  traj_inv (init_state fssh_config 20 0) /\
  ts_draw (init_state fssh_config 20 0) = (0 + ts_n (init_state fssh_config 20 0))%nat.
Proof.
  assert (H : reachable no_draws fssh_config 20 0 (init_state fssh_config 20 0)) by apply reach_init.
  split; [exact fssh_config_mass | split; [exact H | apply (reachable_inv no_draws fssh_config fssh_config_mass 20 0 _ H)]].
Defined.

Lemma cfg_exit_run draw : run_trajectory no_draws cfg_exit 20 draw = Some (init_state cfg_exit 20 draw).
Proof.
  rewrite run_trajectory_loop by (cbn; lra); unfold NSTEP; cbn [fssh_loop].
  replace (in_domain cfg_exit (ts_p (init_state cfg_exit 20 draw))) with false; [reflexivity |].
  rewrite init_state_p; unfold in_domain, p_start, cfg_exit; cbn [PMin PMax].
  replace (Rltb (-5) (-9.9999)) with false by (symmetry; apply Rltb_false; lra); reflexivity.
Qed.

Lemma run_ensemble_all_exit_witness :
  let s0 := init_state cfg_exit 20 0 in
  mass cfg_exit <> 0 /\ PMin cfg_exit < 0 /\ 0 < PMax cfg_exit /\
  run_ensemble no_draws cfg_exit 2 20 0 (mkTally 0 0 0 0) = Some (mkTally 2 0 0 0, 0%nat) /\
  ensemble_finals no_draws cfg_exit 2 20 0 = Some (s0 :: s0 :: nil) /\
  Forall (fun s => in_domain cfg_exit (ts_p s) = false) (s0 :: s0 :: nil) /\
  tally_total (mkTally 2 0 0 0) = (tally_total (mkTally 0 0 0 0) + 2)%nat.
Proof.
  intros s0; assert (H0 : mass cfg_exit <> 0) by (cbn; lra).
  assert (H1 : PMin cfg_exit < 0) by (cbn; lra); assert (H2 : 0 < PMax cfg_exit) by (cbn; lra).
  assert (Hout : in_domain cfg_exit (ts_p s0) = false).
  { unfold s0; rewrite init_state_p; unfold in_domain, p_start, cfg_exit; cbn [PMin PMax].
    replace (Rltb (-5) (-9.9999)) with false by (symmetry; apply Rltb_false; lra); reflexivity. }
  assert (Hp : Rltb p_start 0 = true /\ Rltb 0 p_start = false)
    by (unfold p_start; split; [apply Rltb_true | apply Rltb_false]; lra).
  destruct (init_state_eq cfg_exit 20 0) as (Eig & dij & F & Hs0).
  assert (H3 : run_ensemble no_draws cfg_exit 2 20 0 (mkTally 0 0 0 0) = Some (mkTally 2 0 0 0, 0%nat)).
  { repeat (cbn [run_ensemble ts_draw]; rewrite ?cfg_exit_run, ?Hs0).
    unfold tally; cbn [ts_nstate ts_p Z.eqb Pos.eqb]; rewrite (proj1 Hp), (proj2 Hp); reflexivity. }
  assert (H4 : ensemble_finals no_draws cfg_exit 2 20 0 = Some (s0 :: s0 :: nil)).
  { unfold s0; repeat (cbn [ensemble_finals ts_draw option_map]; rewrite ?cfg_exit_run, ?Hs0).
    reflexivity. }
  assert (H5 : Forall (fun s => in_domain cfg_exit (ts_p s) = false) (s0 :: s0 :: nil))
    by (repeat constructor; exact Hout).
  do 6 (split; [assumption |]).
  apply (run_ensemble_all_exit no_draws cfg_exit H0 2 20 0 _ _ _ _ H1 H2 H3 H4 H5).
Defined.

Lemma fssh_momentum_bounds_witness :
  mass fssh_config <> 0 /\ ntraj fssh_config <> 0%nat /\
  exists pt pr pu draw', fssh_momentum no_draws fssh_config 20 0 = Some (pt, pr, pu, draw') /\
    0 <= pt /\ 0 <= pr /\ 0 <= pu /\ pt + pr + pu <= 1.
Proof.
  assert (H : ntraj fssh_config <> 0%nat) by discriminate.
  split; [exact fssh_config_mass | split; [exact H | apply (fssh_momentum_bounds no_draws fssh_config fssh_config_mass 20 0 H)]].
Defined.

Lemma fssh_sweep_bounds_witness :
  mass cfg_exit <> 0 /\ ntraj cfg_exit <> 0%nat /\
  exists res, @fssh_sweep EighClosed no_draws cfg_exit (20 :: nil) 0 = Some res /\ map fst res = 20 :: nil /\
    Forall (fun r => let '(pt, pr, pu) := snd r in 0 <= pt /\ 0 <= pr /\ 0 <= pu /\ pt + pr + pu <= 1) res.
Proof.
  assert (H : ntraj cfg_exit <> 0%nat) by (cbn; lia); assert (H0 : mass cfg_exit <> 0) by (cbn; lra).
  split; [exact H0 | split; [exact H | apply (@fssh_sweep_bounds EighClosed no_draws cfg_exit H0 (20 :: nil) 0 H)]].
Defined.

(** A stream that differs from [no_draws] only after the first 1038 draws. *)
Definition late_draws : nat -> R := fun i => if Nat.ltb i NSTEP then 0 else 1.

Lemma run_ensemble_reproducible_witness :
  (forall i, (i < 1 * NSTEP)%nat -> no_draws (0 + i)%nat = late_draws (0 + i)%nat) /\
  @run_ensemble EighClosed no_draws fssh_config 1 20 0 (mkTally 0 0 0 0) =
  @run_ensemble EighClosed late_draws fssh_config 1 20 0 (mkTally 0 0 0 0).
Proof.
  assert (H : forall i, (i < 1 * NSTEP)%nat -> no_draws (0 + i)%nat = late_draws (0 + i)%nat).
  { intros i Hi; unfold no_draws, late_draws; destruct (Nat.ltb_spec (0 + i) NSTEP); [reflexivity | lia]. }
  split; [exact H | apply (@run_ensemble_reproducible EighClosed fssh_config no_draws late_draws 1 20 0 _ H)].
Defined.

Lemma run_trajectory_terminates_witness :
  mass fssh_config <> 0 /\
  exists s', @run_trajectory EighClosed no_draws fssh_config 20 0 = Some s' /\
    reachable no_draws fssh_config 20 0 s' /\
    (in_domain fssh_config (ts_p s') = false \/ ts_n s' = NSTEP) /\
    forall k, fssh_loop no_draws fssh_config (NSTEP + k) (init_state fssh_config 20 0) = Some s'.
Proof.
  split; [exact fssh_config_mass | apply (@run_trajectory_terminates EighClosed no_draws fssh_config fssh_config_mass 20 0)].
Defined.

Lemma run_ensemble_tally_witness :
  mass cfg_exit <> 0 /\
  exists t' draw' l,
    @run_ensemble EighClosed no_draws cfg_exit 2 20 0 (mkTally 0 0 0 0) = Some (t', draw') /\
    ensemble_finals no_draws cfg_exit 2 20 0 = Some l /\
    length l = 2%nat /\ tally_total t' = (tally_total (mkTally 0 0 0 0) + length (filter counted l))%nat /\
    Forall (fun s => in_domain cfg_exit (ts_p s) = false \/ ts_n s = NSTEP) l.
Proof.
  assert (H0 : mass cfg_exit <> 0) by (cbn; lra).
  split; [exact H0 | apply (@run_ensemble_tally EighClosed no_draws cfg_exit H0 2 20 0)].
Defined.

(** A configuration with a zero mass. *)
Definition cfg_massless : Config := mkConfig 1 0 (-10) 10 1.

Lemma fssh_zero_mass_raises_witness :
  mass cfg_massless = 0 /\
  @run_trajectory EighClosed no_draws cfg_massless 20 0 = None /\
  (ntraj cfg_massless <> 0%nat -> @fssh_momentum EighClosed no_draws cfg_massless 20 0 = None) /\
  HoppingProbability 1 2 c_example (mass cfg_massless) (0, 1) dij_example 1 (1 / 2) =
    (if Rltb (1 / 2) (prob_down 1 c_example dij_example 1) then None else Some (2%Z, 1)).
Proof.
  assert (H : mass cfg_massless = 0) by reflexivity.
  split; [exact H | apply (@fssh_zero_mass_raises EighClosed no_draws cfg_massless 20 0 1 c_example (0, 1) dij_example 1 (1 / 2) H)].
Defined.
