(* ===== verification/Drivers.v ===== *)
(** * The command-line drivers: the [main] functions and [Plot]

    Each module of [src/FSSH.py] ends with a [main] that evaluates its
    functions at one input and prints or plots the result.  Without their
    [print] and [matplotlib] calls these are computations of the model:

    - [hopping_main] is [main] of [hopping_probability.py] (lines 100-119):
      one hop decision on the ECR model at [p = -9.9999] with momentum 1,
      called with keyword arguments; [py_kwargs_bind] is Python's binding
      of such a call to the parameters of [HoppingProbability];
    - [linspace], [Plot_data] and [nacs_main] are the data that [Plot] and
      [main] of [NACsForce.py] (lines 55-100) hand to [plt.plot]: energies,
      couplings and forces along [np.linspace(-10, 10, 200)];
    - [poteig_main] is the curve [main] of [PotEig.py] (lines 117-138)
      plots: the ECR energies along the same grid;
    - [rk4_main] is [main] of [run/Fourth_RungeKutta.py] (lines 101-119):
      one RK4 step on the SAC model at [p = -9.9999] from [c = (1, 0)].

    The theorems: [hopping_main] raises [TypeError] (its call passes [x=p],
    which [HoppingProbability] does not declare), and the decision it meant
    to print is frustrated whatever the random draw, for every
    implementation of [eigh]; [Plot_data] fails
    exactly where Python raises; the forces it plots are minus the slopes of
    the energies it plots; the energies of [poteig_main] are those of
    [Plot_data]; the amplitude [rk4_main] computes has a norm within
    [10^-12] of 1, for every implementation of [eigh]. *)

From Stdlib Require Import Reals Lra Lia ZArith List String.
From S2P Require Import Prelude PotEig Cplx Eigh NACsForce RungeKutta Hopping.
Import ListNotations.
Open Scope R_scope.
Import PotEig.

Section Drivers.

Context {E : Eigh}.

(** Python binds a call made with keyword arguments only when every
    keyword names a parameter and every parameter (none has a default
    here) is named; otherwise the call raises [TypeError] before the body
    runs. *)
Definition py_kwargs_bind (params kwargs : list string) : bool :=
  (forallb (fun k => existsb (String.eqb k) params) kwargs &&
   forallb (fun q => existsb (String.eqb q) kwargs) params &&
   Nat.eqb (List.length kwargs) (List.length params))%bool.

(** [def HoppingProbability(R_dot, nstate, cstate, mass, Eig, dij, t_step)]. *)
Definition HoppingProbability_params : list string :=
  ["R_dot"; "nstate"; "cstate"; "mass"; "Eig"; "dij"; "t_step"]%string.

(** [main] of [hopping_probability.py] without its prints: the returned
    [(nstate, R_dot)], or [None] where Python raises.  Its call passes the
    keyword [x=p], which [HoppingProbability] does not declare. *)
Definition hopping_main (rnd : R) : option (Z * R) :=
  let momentum := 1 in
  let mass := 2.0e3 in
  let R_dot := momentum / mass in
  let cstate := mkCV (mkC 1 0) (mkC 0 0) in
  let p := -9.9999 in
  let '(V, V_der) := Potenial_ECR p in
  let '(Eig, dij, force) := Calc_dij_force V V_der in
  let t_step := 1 in
  if py_kwargs_bind HoppingProbability_params
       ["R_dot"; "cstate"; "mass"; "nstate"; "Eig"; "t_step"; "x"; "dij"]%string
  then HoppingProbability R_dot 1 cstate mass Eig dij t_step rnd
  else None.

(** ** The ECR start: a frustrated hop *)

(** The diagonal of the ECR matrix is [(A, -A)] at every position. *)
Lemma Potenial_ECR_diag p : m00 (fst (Potenial_ECR p)) = ECR_A /\ m11 (fst (Potenial_ECR p)) = - ECR_A.
Proof. pot_branches; split; reflexivity. Qed.

(** Along ECR the gap [eig[1] - eig[0]] is at least [2 A], whatever the
    implementation of [eigh]. *)
Lemma Potenial_ECR_gap p :
  let eig := cdf_eig (fst (Potenial_ECR p)) (snd (Potenial_ECR p)) in
  2 * ECR_A <= snd eig - fst eig.
Proof.
  cbv zeta; destruct (Potenial_ECR_wf p) as [HS _]; destruct (Potenial_ECR_diag p) as [H0 H1].
  rewrite cdf_eig_eigh, (eigh_eigenvalues _ HS), eigh_closed_eigs, H0, H1; cbn [fst snd].
  assert (HA : 0 <= ECR_A) by (unfold ECR_A; lra).
  assert (ECR_A <= sqrt (((ECR_A - - ECR_A) / 2) ^ 2 + m10 (fst (Potenial_ECR p)) ^ 2)); [| lra].
  rewrite <- (sqrt_pow2 ECR_A HA) at 1; apply sqrt_le_1_alt.
  replace ((ECR_A - - ECR_A) / 2) with ECR_A by field; pose proof (pow2_ge_0 (m10 (fst (Potenial_ECR p)))); lra.
Qed.

(** The test driver of [hopping_probability.py] raises [TypeError]
    for every random draw: its call passes [x=p], which [HoppingProbability]
    does not accept (the call of [FSSH.py] binds).  The decision it meant to
    print is frustrated whatever the draw and the implementation of [eigh]:
    at the start of the ECR model the kinetic energy [2.5e-4] is below the
    gap (at least [1.2e-3]), so it would return state 1 with [R_dot]
    unchanged. *)
Theorem hopping_main_frustrated rnd :
  hopping_main rnd = None /\
  py_kwargs_bind HoppingProbability_params
    ["R_dot"; "cstate"; "mass"; "t_step"; "Eig"; "dij"; "nstate"]%string = true /\
  let V := fst (Potenial_ECR (-9.9999)) in
  let V_der := snd (Potenial_ECR (-9.9999)) in
  HoppingProbability (1 / 2.0e3) 1 (mkCV (mkC 1 0) (mkC 0 0)) 2.0e3
    (cdf_eig V V_der) (cdf_dij V V_der) 1 rnd = Some (1%Z, 1 / 2.0e3).
Proof.
  split; [unfold hopping_main; destruct (Potenial_ECR _), (Calc_dij_force _ _) as [[? ?] ?]; reflexivity |].
  split; [reflexivity |].
  pose proof (Potenial_ECR_gap (-9.9999)) as Hg; cbv zeta in *.
  rewrite hop_state1, (proj2 (Rltb_false _ _)); [reflexivity |].
  unfold kinetic, ECR_A in *; lra.
Qed.

(** ** [Plot] of [NACsForce.py] *)

(** The arrays [Plot] computes before plotting them, and its [factor]. *)
Record PlotData := mkPlot {
  pd_eig : list (R * R); pd_dij : list Mat2; pd_force : list (R * R); pd_factor : R }.

(** [np.array([pot(p)[0] for p in plist])] and [np.array([pot(p)[1] for p in plist])]. *)
Definition plot_arrays (pot : R -> Mat2 * Mat2) (plist : list R) : list Mat2 * list Mat2 :=
  (map (fun p => fst (pot p)) plist, map (fun p => snd (pot p)) plist).

(** [Plot(type_, plist)] up to its [plt] calls (lines 55-77).  The three
    [if]s are not exclusive in form and are evaluated in turn; when none
    matches, [V] is unbound and line 72 raises [NameError] (or, for an empty
    [plist], line 77 raises [IndexError]); an empty [plist] makes
    [dij[:, 0, 1]] index a one-dimensional empty array, which raises
    [IndexError] at line 77 for every [type_]. *)
Definition Plot_data (type_ : string) (plist : list R) : option PlotData :=
  let factor := 1 in
  let VV : option (list Mat2 * list Mat2) := None in
  let '(VV, factor) :=
    if String.eqb type_ "ECR" then (Some (plot_arrays Potenial_ECR plist), 1) else (VV, factor) in
  let '(VV, factor) :=
    if String.eqb type_ "SAC" then (Some (plot_arrays Potenial_SAC plist), 50) else (VV, factor) in
  let '(VV, factor) :=
    if String.eqb type_ "DAC" then (Some (plot_arrays Potenial_DAC plist), 12) else (VV, factor) in
  match VV with
  | None => None
  | Some (V, V_der) =>
      let idx := seq 0 (List.length plist) in
      let eig := map (fun i => cdf_eig (nth i V m2_id) (nth i V_der m2_id)) idx in
      let dij := map (fun i => cdf_dij (nth i V m2_id) (nth i V_der m2_id)) idx in
      let force := map (fun i => cdf_force (nth i V m2_id) (nth i V_der m2_id)) idx in
      match plist with
      | [] => None
      | _ :: _ => Some (mkPlot eig dij force factor)
      end
  end.

(** The reference: the family a name selects, with its plotting factor. *)
Definition family_of_string (s : string) : option (family * R) :=
  if String.eqb s "ECR" then Some (ECR, 1)
  else if String.eqb s "SAC" then Some (SAC, 50)
  else if String.eqb s "DAC" then Some (DAC, 12)
  else None.

(** The reference: the curves of a family, point by point. *)
Definition Plot_ref (f : family) (factor : R) (plist : list R) : PlotData :=
  mkPlot (map (fun p => cdf_eig (fst (potential f p)) (snd (potential f p))) plist)
         (map (fun p => cdf_dij (fst (potential f p)) (snd (potential f p))) plist)
         (map (fun p => cdf_force (fst (potential f p)) (snd (potential f p))) plist)
         factor.

Lemma Plot_data_eq s plist :
  Plot_data s plist =
  match family_of_string s, plist with
  | Some (f, factor), _ :: _ => Some (Plot_ref f factor plist)
  | _, _ => None
  end.
Proof.
  unfold Plot_data, family_of_string.
  destruct (String.eqb_spec s "ECR") as [-> | H1]; [| destruct (String.eqb_spec s "SAC") as [-> | H2];
    [| destruct (String.eqb_spec s "DAC") as [-> | H3]]]; cbv beta iota zeta; cbn [String.eqb Ascii.eqb Bool.eqb];
    destruct plist as [| x l]; try reflexivity; cbv beta iota zeta;
    unfold plot_arrays; rewrite !(map_nth2_seq _ _ cdf_eig), !(map_nth2_seq _ _ cdf_dij), !(map_nth2_seq _ _ cdf_force);
    reflexivity.
Qed.

(** C25.  Refinement of the string dispatch: [Plot(type_, plist)] computes
    the energies, couplings and forces of the family [type_] names, point by
    point along [plist], with that family's factor (1 for ECR, 50 for SAC,
    12 for DAC), and raises exactly when [type_] names no family or [plist]
    is empty. *)
Theorem Plot_data_dispatch s plist :
  Plot_data s plist =
  match family_of_string s, plist with
  | Some (f, factor), _ :: _ => Some (Plot_ref f factor plist)
  | _, _ => None
  end.
Proof. apply Plot_data_eq. Qed.

(** [np.linspace(start, stop, num)]: [num] points [start + i * step] with
    [step = (stop - start) / (num - 1)], the last set to [stop] exactly
    when [num > 1]. *)
Definition linspace (start stop : R) (num : nat) : list R :=
  let div := INR (num - 1) in
  map (fun i => if (Nat.ltb 1 num && Nat.eqb (S i) num)%bool then stop
                else INR i * ((stop - start) / div) + start)
      (seq 0 num).

(** [main] of [NACsForce.py] (lines 89-100): [Plot] on the SAC model over
    [np.linspace(-10, 10, 200)]. *)
Definition nacs_main : option PlotData :=
  let npoints := 200%nat in
  let PMin := -10 in
  let PMax := 10 in
  let plist := linspace PMin PMax npoints in
  let type_ := "SAC"%string in
  Plot_data type_ plist.

(** [main] of [PotEig.py] (lines 117-138): the ECR energies
    [np.linalg.eigh(Potenial_ECR(p)[0])[0]] over [np.linspace(-10, 10, 200)]. *)
Definition poteig_main : list (R * R) :=
  let npoints := 200%nat in
  let PMin := -10 in
  let PMax := 10 in
  let plist := linspace PMin PMax npoints in
  map (fun p => fst (eigh (fst (Potenial_ECR p)))) plist.

(** [main] of [run/Fourth_RungeKutta.py] (lines 101-119) without its print:
    one RK4 step on the SAC model at [p = -9.9999] from [c = (1, 0)]. *)
Definition rk4_main : CVec2 :=
  let momentum := 1 in
  let mass := 2.0e3 in
  let R_dot := momentum / mass in
  let npoints := 200%nat in
  let PMin := -10 in
  let PMax := 10 in
  let plist := linspace PMin PMax npoints in
  let cstate := mkCV (mkC 1 0) (mkC 0 0) in
  let '(V, V_der) := Potenial_SAC (-9.9999) in
  let '(Eig, dij, force) := Calc_dij_force V V_der in
  let t_step := 1 in
  Fourth_RungeKutta R_dot cstate Eig dij t_step.

End Drivers.

(** ** Properties of the plotted data *)

(** Every grid point of [linspace] lies in [[start, stop]]. *)
Lemma linspace_bounds start stop num x :
  start <= stop -> In x (linspace start stop num) -> start <= x <= stop.
Proof.
  unfold linspace; intros Hle Hx; apply in_map_iff in Hx as (i & <- & Hi); apply in_seq in Hi.
  destruct (Nat.ltb 1 num && Nat.eqb (S i) num)%bool eqn:Hl; [lra |].
  apply Bool.andb_false_iff in Hl as [Hl | Hl].
  - apply Nat.ltb_ge in Hl; assert (i = 0)%nat as -> by lia; cbn [INR]; lra.
  - apply Nat.eqb_neq in Hl.
    assert (HI : INR i <= INR (num - 1) - 1 /\ 0 < INR (num - 1)).
    { assert (Hi1 : (i + 1 <= num - 1)%nat) by lia; apply le_INR in Hi1; rewrite plus_INR in Hi1.
      cbn [INR] in Hi1; split; [lra | apply lt_0_INR; lia]. }
    destruct HI as [HI Hd].
    assert (Hs : 0 <= (stop - start) / INR (num - 1))
      by (unfold Rdiv; apply Rmult_le_pos; [lra | apply Rlt_le, Rinv_0_lt_compat, Hd]).
    pose proof (pos_INR i); split; [nra |].
    apply (Rle_trans _ (INR (num - 1) * ((stop - start) / INR (num - 1)) + start)); [| right; field; lra].
    apply Rplus_le_compat_r, Rmult_le_compat_r; [exact Hs | lra].
Qed.

Lemma length_linspace start stop num : List.length (linspace start stop num) = num.
Proof. unfold linspace; rewrite length_map, length_seq; reflexivity. Qed.

Lemma linspace_nonempty start stop num : (0 < num)%nat -> linspace start stop num <> [].
Proof. intros Hn Hl; apply (f_equal (@List.length R)) in Hl; rewrite length_linspace in Hl; cbn in Hl; lia. Qed.

(** With the closed-form [eigh], at every grid point [p] of a
    successful [Plot] call, the energies plotted are those of the selected
    family at [p], and the two plotted forces are minus the slopes at [p]
    of the two plotted energy curves. *)
Theorem Plot_forces_conservative s plist d f factor k :
  family_of_string s = Some (f, factor) -> @Plot_data EighClosed s plist = Some d ->
  (k < List.length plist)%nat ->
  let p := nth k plist 0 in
  nth k (pd_eig d) (0, 0) = @cdf_eig EighClosed (fst (potential f p)) (snd (potential f p)) /\
  derivable_pt_lim (fun q => fst (@cdf_eig EighClosed (fst (potential f q)) (snd (potential f q)))) p
                   (- fst (nth k (pd_force d) (0, 0))) /\
  derivable_pt_lim (fun q => snd (@cdf_eig EighClosed (fst (potential f q)) (snd (potential f q)))) p
                   (- snd (nth k (pd_force d) (0, 0))).
Proof.
  intros Hf Hd Hk p; rewrite Plot_data_eq, Hf in Hd.
  destruct plist as [| x l]; [discriminate | injection Hd as <-].
  unfold Plot_ref; cbn [pd_eig pd_force]; rewrite !(nth_map_lt _ _ 0) by exact Hk.
  split; [reflexivity | apply potential_conservative].
Qed.

(** [main] of [NACsForce.py] never raises: it plots the SAC curves at
    200 points of [[-10, 10]], with the coupling scaled by [1/50]. *)
Theorem nacs_main_plots `{Eigh} :
  nacs_main = Some (Plot_ref SAC 50 (linspace (-10) 10 200)) /\
  List.length (linspace (-10) 10 200) = 200%nat /\
  (forall p, In p (linspace (-10) 10 200) -> -10 <= p <= 10).
Proof.
  split; [| split; [apply length_linspace | intros p; apply linspace_bounds; lra]].
  unfold nacs_main; cbv zeta; rewrite Plot_data_eq.
  destruct (linspace (-10) 10 200) eqn:Hl; [contradict Hl; apply linspace_nonempty; lia | reflexivity].
Qed.

(** The curve [main] of [PotEig.py] plots is the energy curve of
    [Plot]'s ECR branch on the same grid, and for every implementation of
    [eigh] it is the closed-form curve [m -+ sqrt(del^2 + b^2)]. *)
Theorem poteig_main_curve `{Eigh} :
  option_map pd_eig (Plot_data "ECR" (linspace (-10) 10 200)) = Some poteig_main /\
  poteig_main = map (fun p => fst (eigh_closed (fst (Potenial_ECR p)))) (linspace (-10) 10 200).
Proof.
  split.
  - rewrite Plot_data_eq; unfold poteig_main; cbv zeta.
    destruct (linspace (-10) 10 200) eqn:Hl; [contradict Hl; apply linspace_nonempty; lia |].
    cbn [family_of_string String.eqb Ascii.eqb Bool.eqb option_map pd_eig Plot_ref].
    f_equal; apply map_ext; intros p; apply cdf_eig_eigh.
  - unfold poteig_main; apply map_ext; intros p.
    apply eigh_eigenvalues, (Potenial_ECR_wf p).
Qed.

(** ** Witnesses *)

Lemma Plot_forces_conservative_witness :
  family_of_string "SAC" = Some (SAC, 50) /\
  @Plot_data EighClosed "SAC" [0] = Some (@Plot_ref EighClosed SAC 50 [0]) /\ (0 < 1)%nat /\
  let p := nth 0 [0] 0 in
  nth 0 (pd_eig (@Plot_ref EighClosed SAC 50 [0])) (0, 0) =
    @cdf_eig EighClosed (fst (potential SAC p)) (snd (potential SAC p)) /\
  derivable_pt_lim (fun q => fst (@cdf_eig EighClosed (fst (potential SAC q)) (snd (potential SAC q)))) p
                   (- fst (nth 0 (pd_force (@Plot_ref EighClosed SAC 50 [0])) (0, 0))) /\
  derivable_pt_lim (fun q => snd (@cdf_eig EighClosed (fst (potential SAC q)) (snd (potential SAC q)))) p
                   (- snd (nth 0 (pd_force (@Plot_ref EighClosed SAC 50 [0])) (0, 0))).
Proof.
  assert (H1 : family_of_string "SAC" = Some (SAC, 50)) by reflexivity.
  assert (H2 : @Plot_data EighClosed "SAC" [0] = Some (@Plot_ref EighClosed SAC 50 [0])) by reflexivity.
  assert (H3 : (0 < 1)%nat) by lia.
  split; [exact H1 | split; [exact H2 | split; [exact H3 |]]].
  apply (Plot_forces_conservative "SAC" [0] _ SAC 50 0 H1 H2 H3).
Defined.

(** ** The RK4 driver *)

Lemma exp_half_bound x : x <= - 1 -> exp x <= / 2.
Proof.
  intros Hx; rewrite <- (Ropp_involutive x), exp_Ropp.
  pose proof (exp_ineq1_le (- x)); apply Rinv_le_contravar; lra.
Qed.

(** The SAC matrices at the start [-9.9999]: [||V||_F^2 <= 2.5e-4], a gap
    of at least [0.01] and [||V_der||_F^2 <= 0.0206]. *)
Lemma SAC_start_bounds :
  let VV := Potenial_SAC (-9.9999) in
  m2_symmetric (fst VV) /\ m2_frob2 (fst VV) <= 25 / 10 ^ 5 /\
  1 / 10 ^ 4 <= (m00 (fst VV) - m11 (fst VV)) ^ 2 + 4 * m10 (fst VV) ^ 2 /\
  m2_frob2 (snd VV) <= 206 / 10 ^ 4.
Proof.
  cbv zeta; split; [apply (Potenial_SAC_wf (-9.9999)) |].
  assert (Hx : exp (SAC_B * -9.9999) <= / 2) by (apply exp_half_bound; unfold SAC_B; lra).
  pose proof (exp_pos (SAC_B * -9.9999)).
  assert (Hy : exp (- SAC_D * (-9.9999) ^ 2) <= 1)
    by (apply Rlt_le; rewrite <- exp_0; apply exp_increasing; unfold SAC_D; nra).
  pose proof (exp_pos (- SAC_D * (-9.9999) ^ 2)).
  pot_branches; unfold m2_frob2; cbn [m00 m01 m10 m11].
  set (x := exp (SAC_B * -9.9999)) in *; set (y := exp (- SAC_D * (-9.9999) ^ 2)) in *.
  unfold SAC_A, SAC_B, SAC_C, SAC_D; split; [| split]; nra.
Qed.

(** At the SAC start, [||combine||_F^2 <= 4e-4] for the driver's velocity
    [1/2000], whatever the implementation of [eigh]. *)
Lemma SAC_start_combine `{Eigh} :
  let V := fst (Potenial_SAC (-9.9999)) in
  let V_der := snd (Potenial_SAC (-9.9999)) in
  combine_norm2 (1 / 2.0e3) (cdf_eig V V_der) (cdf_dij V V_der) <= 4 / 10 ^ 4.
Proof.
  cbv zeta; destruct SAC_start_bounds as (HS & HV & Hg & HD).
  set (V := fst (Potenial_SAC (-9.9999))) in *; set (V_der := snd (Potenial_SAC (-9.9999))) in *.
  destruct (Calc_dij_force_bounds V V_der HS) as (_ & _ & Hd).
  pose proof (eigh_energy_sq V HS) as He; pose proof (eigh_gap_sq V HS) as Hgap.
  rewrite <- (cdf_eig_eigh V V_der) in He, Hgap; rewrite <- Hgap in Hg.
  unfold combine_norm2; rewrite cdf_dij_antisym, He.
  set (d := m01 (cdf_dij V V_der)) in *; set (g := fst (cdf_eig V V_der) - snd (cdf_eig V V_der)) in *.
  assert (Hd2 : d ^ 2 <= 206) by (rewrite Rpow_mult_distr in Hd; pose proof (pow2_ge_0 d); nra).
  nra.
Qed.

(** The amplitude printed by the test driver of
    [Fourth_RungeKutta.py] has squared norm within [10^-12] of 1 and not
    above 1, for every implementation of [eigh]: at the SAC start the
    generator is small ([||combine||_F^2 <= 4e-4]), so one step of size 1
    loses at most [(4e-4)^3 / 72] of the norm. *)
Theorem rk4_main_norm `{Eigh} : 1 - 1 / 10 ^ 12 <= cv_norm2 rk4_main <= 1.
Proof.
  pose proof SAC_start_combine as Hw; cbv zeta in Hw.
  unfold rk4_main; cbv zeta.
  destruct (Potenial_SAC (-9.9999)) as [V V_der]; cbn [fst snd] in Hw.
  pose proof (cdf_dij_antisym V V_der) as Ha.
  unfold cdf_eig, cdf_dij in Hw, Ha; destruct (Calc_dij_force V V_der) as [[Eig dij] F]; cbn [fst snd] in Hw, Ha.
  rewrite Fourth_RungeKutta_exp_taylor.
  pose proof (Coefficient_DiffEqu_bound (1 / 2.0e3) Eig dij) as Hb.
  set (w := combine_norm2 (1 / 2.0e3) Eig dij) in *.
  pose proof (bound_nonneg _ _ Hb) as Hw0.
  destruct (exp_taylor4_step_bounds _ (Coefficient_DiffEqu_skew _ Eig dij Ha) w Hb 1 (mkCV (mkC 1 0) (mkC 0 0)))
    as [H1 H2]; [lra |].
  replace (cv_norm2 (mkCV (mkC 1 0) (mkC 0 0))) with 1 in H1, H2 by (unfold cv_norm2, Cnorm2; cbn; ring).
  assert (w ^ 3 <= (4 / 10 ^ 4) ^ 3) by (apply pow_incr; lra).
  split; [lra | exact H1].
Qed.
