(* ===== verification/Scenario.v ===== *)
(** * The end-to-end scenario of [FSSH.py]: the trajectory never exits

    [main] of [src/FSSH.py/run/FSSH.py] runs one trajectory at momentum 20,
    mass 2000 and [dt = 1] on the SAC potential from [p = -9.9999], inside
    [(-10, 10)], with a [break] at step 1038.  This file proves that, with
    the closed-form [eigh] and for every sequence of draws in [[0, 1)], the
    loop reaches the ceiling with the particle still inside the domain:
    the run never exits, and the final position is then tallied.

    The argument is energy bookkeeping.  The total energy
    [W = 0.5 m v^2 + Eig[nstate-1]] is conserved exactly by a hop
    ([hop_energy]), unchanged without a hop ([hop_stay]), and changed by at
    most [L D^2 / 2 + S / (8 m) <= 2e-5] by a velocity-Verlet step of
    length [D] ([verlet_energy_change], from the trapezoid lemma
    [sac_r_trapezoid]).  Over 1038 steps [W] stays in
    [[0.0888 - 0.0208, 0.1 + 0.0208]]; with [|Eig| <= 0.0112] the velocity
    stays in [(0.0075, 0.012)], so each step moves the particle forward by
    less than [1/80], and [-9.9999 + 1038/80 < 3]. *)

From Stdlib Require Import Reals Lra ZArith Arith Lia List.
From S2P Require Import Prelude PotEig Cplx Eigh NACsForce RungeKutta Hopping Verlet Trajectory SACAnalysis.
Open Scope R_scope.
Import ListNotations.
Import PotEig.

Lemma fssh_mass : mass fssh_config = 2000.
Proof. cbn; lra. Qed.

Lemma fssh_t_step : t_step fssh_config = 1.
Proof. reflexivity. Qed.

(** ** The numbers of one step *)

Section StepNumbers.

Variables (k : nat) (v1 W sg r g1 g2 : R).
Hypothesis Hk : INR k <= 1037.
Hypothesis Hsg : sg = -1 \/ sg = 1.
Hypothesis Hr : 0 <= r <= 0.0112.
Hypothesis Hv1 : 0 < v1.
Hypothesis HW : 0.0888 - INR k / 50000 <= kinetic 2000 v1 + sg * r <= 0.1 + INR k / 50000.
Hypothesis Hg1 : g1 ^ 2 <= 281 / 1000000.
Hypothesis Hg2 : g2 ^ 2 <= 281 / 1000000.

Lemma step_velocity : 3 / 400 <= v1 <= 3 / 250.
Proof. unfold kinetic in HW; destruct Hsg as [-> | ->]; split; nra. Qed.

Lemma step_force_abs g : g ^ 2 <= 281 / 1000000 -> - 0.0168 <= g <= 0.0168.
Proof. intros H; split; nra. Qed.

(** The step moves the particle forward by [D] in [[0.0074, 1/80]]. *)
Lemma step_length : 37 / 5000 <= v1 * 1 + 0.5 * (- sg * g1 / 2000) * 1 ^ 2 <= 1 / 80.
Proof.
  pose proof step_velocity; pose proof (step_force_abs g1 Hg1); destruct Hsg as [-> | ->]; split; lra.
Qed.

(** The new velocity stays positive. *)
Lemma step_velocity_next : 0 < v1 + 0.5 * 1 * (- sg * g1 / 2000 + - sg * g2 / 2000).
Proof.
  pose proof step_velocity; pose proof (step_force_abs g1 Hg1); pose proof (step_force_abs g2 Hg2).
  destruct Hsg as [-> | ->]; lra.
Qed.

(** The energy error of a step of length at most [1/80] is below [2e-5]. *)
Lemma step_energy_error D : 0 <= D <= 1 / 80 -> sac_L * D ^ 2 / 2 + 281 / 1000000 * 1 ^ 2 / (8 * 2000) <= 1 / 50000.
Proof. intros HD; unfold sac_L; nra. Qed.

End StepNumbers.

(** ** The invariant of the scenario *)

Section Run.

Variable draws : nat -> R.
Hypothesis draws_nonneg : forall i, 0 <= draws i.

(** Total energy [0.5 m R_dot^2 + Eig[nstate-1]] at the adiabatic data of [p]. *)
Definition scen_energy (s : TState) : R :=
  kinetic 2000 (ts_R_dot s) + state_sign (ts_nstate s) * sac_r (ts_p s).

(** After [k] steps: adiabatic data of the current position, a positive
    velocity, a position advanced by [k] steps of length in [[0.0074, 1/80]],
    and a total energy within [k * 2e-5] of its start range. *)
Definition scen_inv (k : nat) (s : TState) : Prop :=
  ts_n s = k /\ (ts_nstate s = 1 \/ ts_nstate s = 2)%Z /\
  ts_Eig s = (- sac_r (ts_p s), sac_r (ts_p s)) /\ ts_force s = (sac_g (ts_p s), - sac_g (ts_p s)) /\
  0 < ts_R_dot s /\ p_start + INR k * (37 / 5000) <= ts_p s <= p_start + INR k / 80 /\
  0.0888 - INR k / 50000 <= scen_energy s <= 0.1 + INR k / 50000.

(** The hop of a step keeps the total energy and a positive velocity. *)
Lemma scen_hop s c n1 v1 :
  (ts_nstate s = 1 \/ ts_nstate s = 2)%Z -> ts_Eig s = (- sac_r (ts_p s), sac_r (ts_p s)) ->
  0 < ts_R_dot s ->
  HoppingProbability (ts_R_dot s) (ts_nstate s) c 2000 (ts_Eig s) (ts_dij s) 1 (draws (ts_draw s))
    = Some (n1, v1) -> (n1 = 1 \/ n1 = 2)%Z ->
  kinetic 2000 v1 + state_sign n1 * sac_r (ts_p s) = scen_energy s /\ 0 < v1.
Proof.
  intros Hn HE Hv Hhop Hn1; unfold scen_energy.
  destruct (Z.eq_dec n1 (ts_nstate s)) as [-> | Hne].
  - rewrite (hop_stay _ _ _ _ _ _ _ _ _ Hhop); auto.
  - pose proof (sac_r_pos (ts_p s)).
    destruct (hop_energy (ts_R_dot s) _ c 2000 (ts_Eig s) _ 1 _ n1 v1 ltac:(lra) ltac:(rewrite HE; cbn; lra) (draws_nonneg _) Hhop Hne)
      as (e & e' & He & He' & Hk & Hdir).
    rewrite HE, (proj1 (state_sign_get _ _ (sac_g (ts_p s)) Hn)) in He.
    rewrite HE, (proj1 (state_sign_get _ _ (sac_g (ts_p s)) Hn1)) in He'.
    injection He as <-; injection He' as <-; split; [lra | nra].
Qed.

Lemma nat_le_1037 k : (k < NSTEP)%nat -> INR k <= 1037.
Proof. intros Hk; rewrite INR_IZR_INZ; apply IZR_le; unfold NSTEP in Hk; lia. Qed.

(** One loop body preserves the invariant, and never raises. *)
Lemma scen_step k s :
  (k < NSTEP)%nat -> scen_inv k s ->
  exists s', @fssh_step EighClosed draws fssh_config s = Some s' /\ scen_inv (S k) s'.
Proof.
  intros Hk (Hn & Hns & HE & HF & Hv & Hp & HW); pose proof (nat_le_1037 k Hk) as HkR.
  unfold fssh_step; cbv zeta; rewrite fssh_mass, fssh_t_step.
  destruct (hop_active (ts_R_dot s) (ts_nstate s) (Fourth_RungeKutta (ts_R_dot s) (ts_cstate s) (ts_Eig s)
              (ts_dij s) 1) 2000 (ts_Eig s) (ts_dij s) 1 (draws (ts_draw s)) ltac:(lra) Hns) as (n1 & v1 & Hhop & Hn1).
  rewrite Hhop; destruct (scen_hop s _ n1 v1 Hns HE Hv Hhop Hn1) as (HW1 & Hv1).
  destruct (VelocityVerlet_some (ts_p s) v1 2000 (ts_force s) 1 n1 Hn1) as [r Hr]; rewrite Hr.
  rewrite HF in Hr; destruct (VelocityVerlet_sac _ _ _ _ _ _ Hn1 Hr) as (Hx & HRd & HEig & Hforce).
  pose proof (vv_energy (ts_p s) v1 2000 1 n1 r ltac:(lra) Hn1 Hr) as HdW.
  eexists; split; [reflexivity |].
  pose proof (sac_g_sq (ts_p s)) as Hg1; pose proof (sac_g_sq (vv_x r)) as Hg2.
  pose proof (sac_r_pos (ts_p s)); pose proof (sac_r_le (ts_p s)).
  assert (HWk : 0.0888 - INR k / 50000 <= kinetic 2000 v1 + state_sign n1 * sac_r (ts_p s)
                <= 0.1 + INR k / 50000) by (rewrite HW1; exact HW).
  pose proof (state_sign_cases n1) as Hsg.
  pose proof (step_length k v1 (state_sign n1) (sac_r (ts_p s)) _ _ HkR Hsg ltac:(lra) Hv1 HWk Hg1 Hg2) as HD.
  pose proof (step_velocity_next k v1 (state_sign n1) (sac_r (ts_p s)) _ _ HkR Hsg ltac:(lra) Hv1 HWk Hg1 Hg2) as Hv'.
  assert (HxD : vv_x r - ts_p s = v1 * 1 + 0.5 * (- state_sign n1 * sac_g (ts_p s) / 2000) * 1 ^ 2)
    by (rewrite Hx; ring).
  pose proof (step_energy_error (vv_x r - ts_p s) ltac:(lra)) as Herr.
  unfold scen_inv, scen_energy; cbn [ts_n ts_nstate ts_Eig ts_force ts_R_dot ts_p]; rewrite S_INR.
  rewrite HEig, Hforce, HRd; do 5 (split; [first [rewrite Hn; reflexivity | assumption | reflexivity] |]).
  split; [lra |].
  rewrite <- HRd; apply Rabs_le_bounds in HdW; lra.
Qed.

(** The start of [main]: [p = -9.9999], [R_dot = 20 / 2000], state 1. *)
Lemma scen_init draw : scen_inv 0 (@init_state EighClosed fssh_config 20 draw).
Proof.
  unfold init_state; rewrite sac_adiabatic_eq; cbn [ts_n ts_nstate ts_Eig ts_force ts_R_dot ts_p].
  pose proof (sac_r_pos p_start); pose proof (sac_r_le p_start).
  unfold scen_inv, scen_energy, state_sign, kinetic; cbn [ts_n ts_nstate ts_Eig ts_force ts_R_dot ts_p Z.eqb Pos.eqb].
  rewrite fssh_mass; replace (INR 0) with 0 by reflexivity.
  repeat split; auto; lra.
Qed.

(** Every position the invariant allows lies inside [(-10, 10)]. *)
Lemma scen_in_domain k s :
  (k <= NSTEP)%nat -> scen_inv k s -> in_domain fssh_config (ts_p s) = true.
Proof.
  intros Hk (_ & _ & _ & _ & _ & Hp & _).
  assert (HkR : 0 <= INR k <= 1038)
    by (split; [apply pos_INR | rewrite INR_IZR_INZ; apply IZR_le; unfold NSTEP in Hk; lia]).
  unfold p_start in Hp; unfold in_domain; cbn [PMin PMax fssh_config].
  rewrite (proj2 (Rltb_true _ _)), (proj2 (Rltb_true _ _)) by lra; reflexivity.
Qed.

(** At the ceiling the particle is in [[-2.5, 3]], around the crossing. *)
Lemma scen_final_position s : scen_inv NSTEP s -> -5 / 2 <= ts_p s <= 3.
Proof.
  intros (_ & _ & _ & _ & _ & Hp & _); rewrite INR_IZR_INZ in Hp; cbn in Hp; unfold p_start in Hp; lra.
Qed.

(** The loop from step [k] runs to the ceiling, keeping the invariant. *)
Lemma scen_loop j : forall k s, (k + j = NSTEP)%nat -> (0 < j)%nat -> scen_inv k s ->
  exists s', @fssh_loop EighClosed draws fssh_config j s = Some s' /\ scen_inv NSTEP s'.
Proof.
  induction j as [| j IH]; intros k s Hkj Hj Hinv; [lia |].
  cbn [fssh_loop]; rewrite (scen_in_domain k s ltac:(lia) Hinv).
  destruct (scen_step k s ltac:(lia) Hinv) as (s' & Hs' & Hinv'); rewrite Hs'.
  rewrite (proj1 Hinv'); destruct (Nat.eqb_spec (S k) NSTEP) as [Heq | Hne].
  - rewrite Heq in Hinv'; eauto.
  - apply (IH (S k)); [lia | lia | exact Hinv'].
Qed.

(** The whole trajectory of [main]. *)
Lemma scen_run draw :
  exists s, @run_trajectory EighClosed draws fssh_config 20 draw = Some s /\ scen_inv NSTEP s.
Proof.
  rewrite (run_trajectory_loop _ _ fssh_config_mass).
  apply (scen_loop NSTEP 0); [reflexivity | unfold NSTEP; lia | apply scen_init].
Qed.

(** The loop of [main] as a transition relation: [steps_to P s] holds when
    the loop, run from [s], takes steps only from states inside the domain
    and reaches a state satisfying [P]. *)
Inductive steps_to (P : TState -> Prop) : TState -> Prop :=
  | steps_done s : P s -> steps_to P s
  | steps_next s s' :
      in_domain fssh_config (ts_p s) = true -> @fssh_step EighClosed draws fssh_config s = Some s' ->
      steps_to P s' -> steps_to P s.

#[local] Hint Constructors steps_to : fssh.

(** From step [k], the loop reaches the ceiling inside the domain. *)
Lemma scen_steps j : forall k s, (k + j = NSTEP)%nat -> scen_inv k s ->
  steps_to (fun s => ts_n s = NSTEP /\ in_domain fssh_config (ts_p s) = true) s.
Proof.
  induction j as [| j IH]; intros k s Hkj Hinv.
  - rewrite Nat.add_0_r in Hkj; subst k.
    pose proof (scen_in_domain NSTEP s (le_n _) Hinv); pose proof (proj1 Hinv); eauto with fssh.
  - destruct (scen_step k s ltac:(lia) Hinv) as (s' & Hs' & Hinv').
    pose proof (scen_in_domain k s ltac:(lia) Hinv); pose proof (IH (S k) s' ltac:(lia) Hinv').
    eauto with fssh.
Qed.

End Run.

(** [main]'s result for the one momentum 20: the tally of its single
    trajectory, each count divided by [ntraj = 1]. *)
Lemma scen_main (draws : nat -> R) s :
  @run_trajectory EighClosed draws fssh_config 20 0 = Some s ->
  let t := tally (mkTally 0 0 0 0) s in
  @fssh_main EighClosed draws fssh_config = Some ((20, (INR (j1 t), INR (j0 t), INR (k1 t))) :: nil).
Proof.
  intros Hs t; unfold fssh_main, fssh_sweep, fssh_momentum; cbn [ntraj fssh_config run_ensemble].
  rewrite Hs; unfold probabilities; cbn [ntraj fssh_config option_map].
  fold t; cbn [INR]; unfold Rdiv; rewrite Rinv_1, !Rmult_1_r; reflexivity.
Qed.

(** ** The scenario *)

(** C11.  The end-to-end run of [main] (momentum 20, mass 2000, SAC,
    [dt = 1], start [-9.9999], domain [(-10, 10)], one trajectory), with the
    closed-form [eigh] and any draws in [[0, 1)], never exits the domain:
    the loop stops at the step ceiling [n = 1038] with the particle at
    [p] in [[-2.5, 3]], still inside [(-10, 10)] and in the interaction
    region, and [main] reports the tally of that unfinished trajectory as
    its probabilities. *)
Theorem fssh_scenario_ceiling (draws : nat -> R) :
  (forall i, 0 <= draws i) ->
  exists s, @run_trajectory EighClosed draws fssh_config 20 0 = Some s /\
    ts_n s = NSTEP /\ in_domain fssh_config (ts_p s) = true /\ -5 / 2 <= ts_p s <= 3 /\
    let t := tally (mkTally 0 0 0 0) s in
    @fssh_main EighClosed draws fssh_config = Some ((20, (INR (j1 t), INR (j0 t), INR (k1 t))) :: nil).
Proof.
  intros Hd; destruct (scen_run draws Hd 0) as (s & Hs & Hinv); exists s.
  split; [exact Hs | split; [apply (proj1 Hinv) | split; [apply (scen_in_domain NSTEP s (le_n _) Hinv) |]]].
  split; [apply scen_final_position, Hinv | apply scen_main, Hs].
Qed.

(** Liveness of the loop of [main] on its own scenario (momentum 20,
    closed-form [eigh], draws in [[0, 1)]): from the start, the [while] loop
    only ever steps from positions inside [(-10, 10)] and eventually reaches
    a state at the step ceiling [n = 1038] that is still inside the domain;
    the exit condition of the [while] never becomes true. *)
Theorem fssh_scenario_eventually (draws : nat -> R) draw :
  (forall i, 0 <= draws i) ->
  steps_to draws (fun s => ts_n s = NSTEP /\ in_domain fssh_config (ts_p s) = true)
           (@init_state EighClosed fssh_config 20 draw).
Proof. intros Hd; apply (scen_steps draws Hd NSTEP 0); [reflexivity | apply scen_init]. Qed.

(** ** Witnesses *)

Lemma fssh_scenario_ceiling_witness :
  (forall i, 0 <= no_draws i) /\
  exists s, @run_trajectory EighClosed no_draws fssh_config 20 0 = Some s /\
    ts_n s = NSTEP /\ in_domain fssh_config (ts_p s) = true /\ -5 / 2 <= ts_p s <= 3 /\
    let t := tally (mkTally 0 0 0 0) s in
    @fssh_main EighClosed no_draws fssh_config = Some ((20, (INR (j1 t), INR (j0 t), INR (k1 t))) :: nil).
Proof.
  assert (H : forall i, 0 <= no_draws i) by (intros; unfold no_draws; lra).
  split; [exact H | apply (fssh_scenario_ceiling no_draws H)].
Defined.

Lemma fssh_scenario_eventually_witness :
  (forall i, 0 <= no_draws i) /\
  steps_to no_draws (fun s => ts_n s = NSTEP /\ in_domain fssh_config (ts_p s) = true)
           (@init_state EighClosed fssh_config 20 0).
Proof.
  assert (H : forall i, 0 <= no_draws i) by (intros; unfold no_draws; lra).
  split; [exact H | apply (fssh_scenario_eventually no_draws 0 H)].
Defined.
